(** * BizzLeap backend: authentication and session lifecycle

    A shallow embedding of the authentication code of the repository:
    the controllers ([registerUser], [loginUser], [refreshToken],
    [logoutUser]), the two [authenticateToken] gateways (the stateless
    middleware and the stateful one of [server.js]), the inline handlers of
    [server.js], [findOrCreateUser] of [config/oauth.js] and the two start-up
    scripts.

    Handlers are programs of a small monad whose only effects are the ones
    the JavaScript has: [await db.execute(...)], reading the clock, and
    throwing.  The relational store is modelled from the schema
    ([scripts/schema.sql]): AUTO_INCREMENT keys, column defaults, NOT NULL,
    the UNIQUE keys on [email] and on [(socialId, socialProvider)], the
    foreign key of [user_sessions.userId] and ON UPDATE CURRENT_TIMESTAMP.

    [server.js] mounts the router of [routes/authRoutes.js] at [/api/auth]
    before it registers its own handlers, so POST /api/auth/register,
    /login and /logout are answered by the controllers behind the router;
    the inline handlers of [server.js] for these three paths are embedded
    as the functions they are, not as routes.

    Strings are byte strings.  The functions of [Js] are those of
    JavaScript on ASCII strings, the comparison of the store is the one
    of the collation on printable ASCII, and the store keeps a value as
    it is bound, as MySQL does when the value fits its column; the
    statements that depend on it say so in their hypotheses
    ([ascii_text], [plain_emails], [fits_column]). *)

From Stdlib Require Import ZArith Lia Bool Ascii String List.
From stdpp Require Import base option list gmap strings.

Local Open Scope string_scope.
Local Open Scope Z_scope.
Local Open Scope list_scope.

(** ** JavaScript strings *)

Module Js.

Definition is_upper (c : ascii) : bool :=
  let n := nat_of_ascii c in (65 <=? n)%nat && (n <=? 90)%nat.

Definition lower_char (c : ascii) : ascii :=
  if is_upper c then ascii_of_nat (nat_of_ascii c + 32) else c.

(** [s.toLowerCase()]: the letters A-Z are folded, every other byte is
    kept.  This is what JavaScript does on ASCII strings. *)
Fixpoint toLowerCase (s : string) : string :=
  match s with
  | EmptyString => EmptyString
  | String c r => String (lower_char c) (toLowerCase r)
  end.

(** The class [\s] restricted to ASCII: tab, LF, VT, FF, CR and space
    (JavaScript also counts U+00A0 and other characters outside ASCII). *)
Definition is_space (c : ascii) : bool :=
  let n := nat_of_ascii c in ((9 <=? n)%nat && (n <=? 13)%nat) || (n =? 32)%nat.

Fixpoint trimStart (s : string) : string :=
  match s with
  | EmptyString => EmptyString
  | String c r => if is_space c then trimStart r else s
  end.

Fixpoint rev_string (acc s : string) : string :=
  match s with
  | EmptyString => acc
  | String c r => rev_string (String c acc) r
  end.

(** [s.trim()] *)
Definition trim (s : string) : string :=
  rev_string "" (trimStart (rev_string "" (trimStart s))).

(** Truthiness of a possibly undefined string: [undefined] and [""] are
    falsy. *)
Definition truthy (o : option string) : bool :=
  match o with
  | Some (String _ _) => true
  | _ => false
  end.

(** [a || b] on possibly undefined strings. *)
Definition or_else (a : option string) (b : string) : string :=
  match a with
  | Some (String c r) => String c r
  | _ => b
  end.

(** [s.split(" ")] *)
Fixpoint split_space (s : string) : list string :=
  match s with
  | EmptyString => [EmptyString]
  | String c r =>
      if Ascii.eqb c " " then EmptyString :: split_space r
      else match split_space r with
           | [] => [String c EmptyString]
           | h :: t => String c h :: t
           end
  end.

(** A character of the class [[^\s@]]. *)
Definition not_space_at (c : ascii) : bool :=
  negb (is_space c) && negb (Ascii.eqb c "@").

(** Some ["."] of the list has a character before it and one after it. *)
Fixpoint inner_dot (seen : bool) (l : list ascii) : bool :=
  match l with
  | [] => false
  | c :: r =>
      (seen && Ascii.eqb c "." && negb (match r with [] => true | _ => false end))
      || inner_dot true r
  end.

Fixpoint split_at (l : list ascii) : list ascii * option (list ascii) :=
  match l with
  | [] => ([], None)
  | c :: r =>
      if Ascii.eqb c "@" then ([], Some r)
      else let '(a, b) := split_at r in (c :: a, b)
  end.

(** [/^[^\s@]+@[^\s@]+\.[^\s@]+$/.test(s)] *)
Definition emailRegex_test (s : string) : bool :=
  match split_at (list_ascii_of_string s) with
  | (loc, Some dom) =>
      negb (match loc with [] => true | _ => false end)
      && forallb not_space_at loc && forallb not_space_at dom
      && inner_dot false dom
  | (_, None) => false
  end.

End Js.

(** ** Values, and the [jsonwebtoken] library

    The values that travel between JavaScript, JSON and the store: [null],
    booleans, numbers, strings and bearer strings.  A bearer string is
    either a well-formed JWT, represented by its claims and the key it was
    signed with, or any other text.  Signatures are ideal: a token verifies
    under a secret exactly when it was signed with that secret. *)

Inductive jsval :=
| VNull
| VBool (b : bool)
| VInt (z : Z)
| VStr (s : string)
| VTok (t : token)
with token :=
| Text (s : string)
| JWT (c : claims) (key : string)
with claims :=
| Claims (userId : jsval) (email_claim : option jsval) (iat exp : Z).

Definition userId (c : claims) : jsval := let 'Claims u _ _ _ := c in u.
Definition email_claim (c : claims) : option jsval := let 'Claims _ m _ _ := c in m.
Definition iat (c : claims) : Z := let 'Claims _ _ i _ := c in i.
Definition exp (c : claims) : Z := let 'Claims _ _ _ e := c in e.

Global Instance jsval_eq_dec : EqDecision jsval.
Proof.
  refine (fix go (a b : jsval) {struct a} : Decision (a = b) :=
    let _ : EqDecision jsval := go in
    match a, b with
    | VNull, VNull => left eq_refl
    | VBool x, VBool y => cast_if (decide (x = y))
    | VInt x, VInt y => cast_if (decide (x = y))
    | VStr x, VStr y => cast_if (decide (x = y))
    | VTok (Text x), VTok (Text y) => cast_if (decide (x = y))
    | VTok (JWT (Claims u1 m1 i1 e1) k1), VTok (JWT (Claims u2 m2 i2 e2) k2) =>
        cast_if_and5 (decide (u1 = u2)) (decide (m1 = m2)) (decide (i1 = i2))
                     (decide (e1 = e2)) (decide (k1 = k2))
    | _, _ => right _
    end); abstract congruence.
Defined.

Global Instance claims_eq_dec : EqDecision claims.
Proof. solve_decision. Defined.
Global Instance token_eq_dec : EqDecision token.
Proof. solve_decision. Defined.

Inductive jwt_error := JsonWebTokenError | TokenExpiredError.

(** [Math.floor(Date.now() / 1000)]; the clock counts milliseconds. *)
Definition clockTimestamp (now : Z) : Z := now / 1000.

(** [jwt.sign(payload, secret, { expiresIn })]: [expiresIn] in seconds. *)
Definition jwt_sign (uid : jsval) (mail : option jsval) (secret : string)
    (expiresIn : Z) (now : Z) : token :=
  JWT (Claims uid mail (clockTimestamp now) (clockTimestamp now + expiresIn)) secret.

(** [jwt.verify(token, secret)] at the instant [now]. *)
Definition jwt_verify (t : token) (secret : string) (now : Z) : jwt_error + claims :=
  match t with
  | Text _ => inl JsonWebTokenError
  | JWT c key =>
      if decide (key = secret) then
        if exp c <=? clockTimestamp now then inl TokenExpiredError else inr c
      else inl JsonWebTokenError
  end.

(** The instant, in milliseconds, at which a token expires. *)
Definition expiry_instant (t : token) : option Z :=
  match t with
  | JWT c _ => Some (exp c * 1000)
  | Text _ => None
  end.

(** ** The [bcrypt] library, idealised: no salt, and no collisions among
    what it hashes, which is the first 72 bytes of the password. *)

Definition bcrypt_hash (password : string) (saltRounds : nat) : string :=
  String.append "$2b$" (String.substring 0 72 password).

(** ** Rows

    A row is a JavaScript object keyed by column name; an absent key reads
    as NULL.  DATETIME columns hold milliseconds. *)

Abbreviation row := (gmap string jsval).

Definition col (r : row) (c : string) : jsval := default VNull (r !! c).

(** A bound parameter as the store sees it: booleans are sent as 0 and 1. *)
Definition to_sql (v : jsval) : jsval :=
  match v with
  | VBool b => VInt (if b then 1 else 0)
  | _ => v
  end.

(** The comparison [a = b] of SQL: never true on NULL, and insensitive to
    letter case on text (the tables use the collation utf8mb4_unicode_ci;
    only ASCII letters are folded here).  Bearer strings are compared
    exactly. *)
Definition sql_eq (a b : jsval) : bool :=
  match to_sql a, to_sql b with
  | VInt x, VInt y => x =? y
  | VStr x, VStr y => String.eqb (Js.toLowerCase x) (Js.toLowerCase y)
  | VTok x, VTok y => bool_decide (x = y)
  | _, _ => false
  end.

(** Truthiness of a JavaScript value. *)
Definition truthy (v : jsval) : bool :=
  match v with
  | VNull => false
  | VBool b => b
  | VInt z => negb (z =? 0)
  | VStr s => Js.truthy (Some s)
  | VTok (Text s) => Js.truthy (Some s)
  | VTok (JWT _ _) => true
  end.

(** ** The relational store *)

Inductive table := Users | UserSessions.

(** A value of a statement: a bound parameter or [NOW()]. *)
Inductive expr := Lit (v : jsval) | NOW.

Global Instance expr_eq_dec : EqDecision expr.
Proof. solve_decision. Defined.

(** One conjunct of a WHERE clause: [c = ?] or [c > NOW()]. *)
Inductive cond := Eq (c : string) (v : jsval) | GtNow (c : string).

Inductive sql :=
| SELECT (cols : option (list string)) (t : table) (wh : list cond)
| INSERT (t : table) (vals : gmap string jsval)
| UPDATE (t : table) (sets : gmap string expr) (wh : list cond)
| SELECT_1.

Inductive sqlres :=
| Rows (rs : list row)
| OkPacket (insertId : Z)
| SqlError (code : string).

Record world := World {
  users : list row;
  user_sessions : list row;
  auto_users : Z;          (* next AUTO_INCREMENT value of users.id *)
  auto_sessions : Z;       (* next AUTO_INCREMENT value of user_sessions.id *)
  now : Z;                 (* the clock, in milliseconds *)
  reachable : bool;        (* whether the store answers *)
  strict : bool            (* sql_mode has STRICT_TRANS_TABLES *)
}.

Definition rows_of (t : table) (w : world) : list row :=
  match t with Users => users w | UserSessions => user_sessions w end.

Definition auto_of (t : table) (w : world) : Z :=
  match t with Users => auto_users w | UserSessions => auto_sessions w end.

Definition set_rows (t : table) (rs : list row) (w : world) : world :=
  match t with
  | Users => World rs (user_sessions w) (auto_users w) (auto_sessions w) (now w) (reachable w) (strict w)
  | UserSessions => World (users w) rs (auto_users w) (auto_sessions w) (now w) (reachable w) (strict w)
  end.

Definition bump_auto (t : table) (w : world) : world :=
  match t with
  | Users => World (users w) (user_sessions w) (auto_users w + 1) (auto_sessions w) (now w) (reachable w) (strict w)
  | UserSessions => World (users w) (user_sessions w) (auto_users w) (auto_sessions w + 1) (now w) (reachable w) (strict w)
  end.

(** *** The schema *)

(** Columns declared NOT NULL without a DEFAULT. *)
Definition not_null (t : table) : list string :=
  match t with
  | Users => ["email"; "password"; "firstName"; "lastName"]
  | UserSessions => ["userId"; "token"; "expiresAt"]
  end.

(** What a non-strict server stores for such a column when no value is
    given. *)
Definition implicit_default (t : table) (c : string) : jsval :=
  match t with
  | Users => VStr ""
  | UserSessions =>
      if String.eqb c "token" then VTok (Text "") else VInt 0
  end.

(** The declared defaults that are not NULL. *)
Definition defaults (t : table) (clock : Z) : row :=
  match t with
  | Users =>
      list_to_map
        [("profileSetup", VInt 0); ("organicCertified", VInt 0);
         ("buyerType", VStr "individual"); ("currency", VStr "USD");
         ("language", VStr "en"); ("emailVerified", VInt 0);
         ("isActive", VInt 1); ("createdAt", VInt clock);
         ("updatedAt", VInt clock)]
  | UserSessions =>
      list_to_map
        [("isActive", VInt 1); ("createdAt", VInt clock);
         ("lastUsedAt", VInt clock)]
  end.

(** The column with ON UPDATE CURRENT_TIMESTAMP. *)
Definition on_update (t : table) : string :=
  match t with Users => "updatedAt" | UserSessions => "lastUsedAt" end.

Definition is_null (v : jsval) : bool :=
  match v with VNull => true | _ => false end.

(** UNIQUE (email). *)
Definition dup_email (r : row) (others : list row) : bool :=
  existsb (fun o => sql_eq (col o "email") (col r "email")) others.

(** UNIQUE KEY unique_social (socialId, socialProvider); rows with a NULL
    in the key never collide. *)
Definition dup_social (r : row) (others : list row) : bool :=
  existsb (fun o => sql_eq (col o "socialId") (col r "socialId")
                    && sql_eq (col o "socialProvider") (col r "socialProvider"))
          others.

(** FOREIGN KEY (userId) REFERENCES users(id). *)
Definition has_user (uid : jsval) (w : world) : bool :=
  existsb (fun u => sql_eq (col u "id") uid) (users w).

Definition holds (clock : Z) (r : row) (c : cond) : bool :=
  match c with
  | Eq k v => sql_eq (col r k) v
  | GtNow k => match col r k with VInt t => clock <? t | _ => false end
  end.

Definition matches (clock : Z) (wh : list cond) (r : row) : bool :=
  forallb (holds clock r) wh.

Definition project (cols : option (list string)) (r : row) : row :=
  match cols with
  | None => r
  | Some cs => filter (fun kv : string * jsval => kv.1 ∈ cs) r
  end.

(** *** INSERT *)

Definition given_null (vals : row) (c : string) : bool :=
  bool_decide (vals !! c = Some VNull).

Definition not_given (vals : row) (c : string) : bool :=
  bool_decide (vals !! c = None).

Definition implicit_defaults (t : table) : row :=
  list_to_map (map (fun c => (c, implicit_default t c)) (not_null t)).

(** The row an INSERT builds, or the error of a NOT NULL column. *)
Definition new_row (t : table) (w : world) (vals : row) : string + row :=
  if existsb (given_null vals) (not_null t) then inl "ER_BAD_NULL_ERROR"
  else if strict w && existsb (not_given vals) (not_null t)
  then inl "ER_NO_DEFAULT_FOR_FIELD"
  else inr ((to_sql <$> vals)
              ∪ <["id" := VInt (auto_of t w)]> (implicit_defaults t)
              ∪ defaults t (now w)).

(** The key constraints a new or changed row must satisfy. *)
Definition key_error (t : table) (w : world) (r : row) (others : list row)
  : option string :=
  match t with
  | Users =>
      if dup_email r others || dup_social r others then Some "ER_DUP_ENTRY"
      else None
  | UserSessions =>
      if has_user (col r "userId") w then None
      else Some "ER_NO_REFERENCED_ROW_2"
  end.

Definition insert (t : table) (vals : row) (w : world) : sqlres * world :=
  match new_row t w vals with
  | inl code => (SqlError code, w)
  | inr r =>
      match key_error t w r (rows_of t w) with
      | Some code => (SqlError code, w)
      | None =>
          (OkPacket (auto_of t w),
           bump_auto t (set_rows t (rows_of t w ++ [r]) w))
      end
  end.

(** *** UPDATE *)

Definition eval (clock : Z) (e : expr) : jsval :=
  match e with Lit v => to_sql v | NOW => VInt clock end.

(** An UPDATE that assigns NULL to a NOT NULL column. *)
Definition assigns_null (t : table) (sets : gmap string expr) : bool :=
  existsb (fun c => bool_decide (sets !! c = Some (Lit VNull))) (not_null t).

(** A non-strict server stores the implicit default instead. *)
Definition relax (t : table) (sets : gmap string expr) : gmap string expr :=
  (Lit <$> filter (fun kv : string * jsval => sets !! kv.1 = Some (Lit VNull))
                  (implicit_defaults t))
  ∪ sets.

(** The row after the assignments.  When no assigned column gets a new
    value the row is left alone; otherwise the ON UPDATE CURRENT_TIMESTAMP
    column follows, unless it is assigned itself. *)
Definition updated (t : table) (w : world) (sets : gmap string expr) (r : row)
  : row :=
  let new : row := eval (now w) <$> relax t sets in
  if bool_decide (map_Forall (fun c v => col r c = v) new) then r
  else if bool_decide (sets !! on_update t = None)
       then <[on_update t := VInt (now w)]> (new ∪ r)
       else new ∪ r.

(** Whether a changed row must be checked against the keys again. *)
Definition key_changed (t : table) (old new : row) : bool :=
  match t with
  | Users =>
      negb (bool_decide (col new "email" = col old "email"
                         /\ col new "socialId" = col old "socialId"
                         /\ col new "socialProvider" = col old "socialProvider"))
  | UserSessions => negb (bool_decide (col new "userId" = col old "userId"))
  end.

(** Rows are updated one after the other; [seen] holds the rows already
    visited, in their new state. *)
Fixpoint update_rows (t : table) (w : world) (sets : gmap string expr)
    (wh : list cond) (seen todo : list row) : string + list row :=
  match todo with
  | [] => inr seen
  | r :: rest =>
      let r' := if matches (now w) wh r then updated t w sets r else r in
      if bool_decide (r' = r) then update_rows t w sets wh (seen ++ [r]) rest
      else if strict w && assigns_null t sets then inl "ER_BAD_NULL_ERROR"
      else
        match (if key_changed t r r' then key_error t w r' (seen ++ rest)
               else None) with
        | Some code => inl code
        | None => update_rows t w sets wh (seen ++ [r']) rest
        end
  end.

Definition update (t : table) (sets : gmap string expr) (wh : list cond)
    (w : world) : sqlres * world :=
  match update_rows t w sets wh [] (rows_of t w) with
  | inl code => (SqlError code, w)
  | inr rs => (OkPacket 0, set_rows t rs w)
  end.

(** *** One statement: [db.execute(q)] against the store.  A statement
    that fails leaves the store as it was. *)
Definition execute (q : sql) (w : world) : sqlres * world :=
  if reachable w then
    match q with
    | SELECT cols t wh =>
        (Rows (project cols <$> List.filter (matches (now w) wh) (rows_of t w)), w)
    | INSERT t vals => insert t vals w
    | UPDATE t sets wh => update t sets wh w
    | SELECT_1 => (Rows [ {["1" := VInt 1]} ], w)
    end
  else (SqlError "ECONNREFUSED", w).

(** ** Handler programs

    An [async] function is a program whose suspension points are its
    [await db.execute(...)] calls.  [Throw] is a JavaScript exception. *)

Inductive exn :=
| DbError (code : string)
| JwtError (e : jwt_error)
| TypeError (what : string).

Inductive prog (A : Type) : Type :=
| Ret (a : A)
| Throw (e : exn)
| Execute (q : sql) (k : sqlres -> prog A)
| DateNow (k : Z -> prog A).

Arguments Ret {A} a.
Arguments Throw {A} e.
Arguments Execute {A} q k.
Arguments DateNow {A} k.

Fixpoint bind {A B} (p : prog A) (f : A -> prog B) : prog B :=
  match p with
  | Ret a => f a
  | Throw e => Throw e
  | Execute q k => Execute q (fun r => bind (k r) f)
  | DateNow k => DateNow (fun t => bind (k t) f)
  end.

Global Instance prog_ret : MRet prog := @Ret.
Global Instance prog_bind : MBind prog := fun A B f p => bind p f.

(** [try { p } catch (error) { h error }] *)
Fixpoint try_catch {A} (p : prog A) (h : exn -> prog A) : prog A :=
  match p with
  | Ret a => Ret a
  | Throw e => h e
  | Execute q k => Execute q (fun r => try_catch (k r) h)
  | DateNow k => DateNow (fun t => try_catch (k t) h)
  end.

(** [await db.execute(q)]: a failed statement rejects. *)
Definition db_execute (q : sql) : prog sqlres :=
  Execute q (fun r =>
    match r with
    | SqlError code => Throw (DbError code)
    | _ => Ret r
    end).

(** [const [rows] = await db.execute(q)] *)
Definition query (q : sql) : prog (list row) :=
  r ← db_execute q;
  Ret (match r with Rows rs => rs | _ => [] end).

(** [const [result] = await db.execute(q)], read for [result.insertId]. *)
Definition command (q : sql) : prog Z :=
  r ← db_execute q;
  Ret (match r with OkPacket n => n | _ => 0 end).

(** A bound parameter; mysql2 refuses [undefined]. *)
Definition param (v : option jsval) : prog jsval :=
  match v with
  | Some x => Ret x
  | None => Throw (TypeError "Bind parameters must not contain undefined")
  end.

(** [jwt.verify(token, secret)] reads the clock and throws on failure. *)
Definition verify (t : token) (secret : string) : prog claims :=
  DateNow (fun clock =>
    match jwt_verify t secret clock with
    | inr c => Ret c
    | inl e => Throw (JwtError e)
    end).

(** [jwt.sign(payload, secret, { expiresIn })] reads the clock. *)
Definition sign (uid : jsval) (mail : option jsval) (secret : string)
    (expiresIn : Z) : prog token :=
  DateNow (fun clock => Ret (jwt_sign uid mail secret expiresIn clock)).

(** [await bcrypt.compare(password, hash)]; the library throws unless the
    hash is a string. *)
Definition bcrypt_compare (password : string) (hash : jsval) : prog bool :=
  match hash with
  | VStr h => Ret (String.eqb h (bcrypt_hash password 12))
  | _ => Throw (TypeError "data and hash arguments required")
  end.

(** Running a program to completion against the store, without
    interference. *)
Fixpoint run {A} (p : prog A) (w : world) : (exn + A) * world :=
  match p with
  | Ret a => (inr a, w)
  | Throw e => (inl e, w)
  | Execute q k => let '(r, w') := execute q w in run (k r) w'
  | DateNow k => run (k (now w)) w
  end.

(** ** Requests and responses *)

#[warnings="-register-all"]
Inductive json :=
| JNull
| JBool (b : bool)
| JNum (z : Z)
| JStr (s : string)
| JTok (t : token)
| JRow (r : row)
| JObj (fields : list (string * json)).

(** [res.status(status).json(sent)] *)
Record response := Response { status : Z; sent : json }.

(** The Authorization header is kept as [authHeader.split(" ")]. *)
Record request := Request {
  authorization : option (list token);
  body : gmap string jsval;
  ip : option string;
  userAgent : option string
}.

Record environment := Environment {
  env_JWT_SECRET : option string;
  env_JWT_EXPIRES_IN : option Z      (* a time span, in seconds *)
}.

(** A string field of the JSON body; a field that holds anything but a
    string reads as missing, which is what the handlers make of [null],
    [false] and [0]. *)
Definition field (req : request) (k : string) : option string :=
  match body req !! k with
  | Some (VStr s) => Some s
  | _ => None
  end.

(** [authorization.startsWith("Bearer ")] *)
Definition startsWith_Bearer (h : option (list token)) : bool :=
  match h with
  | Some (Text "Bearer" :: _ :: _) => true
  | _ => false
  end.

(** [authHeader && authHeader.split(" ")[1]]: [None] is [undefined]; the
    empty header is falsy and is the value of the conjunction. *)
Definition header_token (h : option (list token)) : option token :=
  match h with
  | None => None
  | Some [Text ""] => Some (Text "")
  | Some pieces => pieces !! 1%nat
  end.

(** The same value when it is truthy, that is when [!token] is false. *)
Definition bearer (h : option (list token)) : option token :=
  match header_token h with
  | Some t => if truthy (VTok t) then Some t else None
  | None => None
  end.

(** What a gateway hands on: a response of its own, or [next()] with what
    it attached to the request. *)
Inductive gate (A : Type) :=
| Rejected (r : response)
| Next (a : A).

Arguments Rejected {A} r.
Arguments Next {A} a.

(** [app.METHOD(path, gateway, handler)] *)
Definition route {A} (gateway : prog (gate A)) (handler : A -> prog response)
  : prog response :=
  g ← gateway;
  match g with
  | Rejected r => Ret r
  | Next a => handler a
  end.

Definition error_json (e : string) : json := JObj [("error", JStr e)].

Definition error_message (e m : string) : json :=
  JObj [("error", JStr e); ("message", JStr m)].

Definition seven_days : Z := 7 * 24 * 60 * 60.

(** ** controllers/authController.js *)

Module AuthController.

Definition JWT_SECRET (env : environment) : string :=
  Js.or_else (env_JWT_SECRET env) "your-fallback-secret".

Definition JWT_EXPIRES_IN (env : environment) : Z :=
  default seven_days (env_JWT_EXPIRES_IN env).

Definition generateToken (env : environment) (uid : jsval) : prog token :=
  sign uid None (JWT_SECRET env) (JWT_EXPIRES_IN env).

Definition user_exists : response :=
  Response 409 (error_message "User already exists"
                  "An account with this email address already exists").

Definition registered (user : row) (t : token) : response :=
  Response 201
    (JObj [("success", JBool true);
           ("message", JStr "User registered successfully");
           ("data", JObj [("user", JRow (<["profileSetup" := VBool false]> user));
                          ("token", JTok t);
                          ("redirectTo", JStr "/role-selection")])]).

(** The part of [registerUser] that follows the existence check. *)
Definition createUser (env : environment)
    (firstName lastName email password : string) : prog response :=
  let saltRounds := 12%nat in
  let hashedPassword := bcrypt_hash password saltRounds in
  uid ← command (INSERT Users
           (list_to_map
              [("email", VStr (Js.toLowerCase email));
               ("password", VStr hashedPassword);
               ("firstName", VStr (Js.trim firstName));
               ("lastName", VStr (Js.trim lastName));
               ("role", VNull)]));
  t ← generateToken env (VInt uid);
  newUser ← query (SELECT (Some ["id"; "firstName"; "lastName"; "email"; "role"])
                     Users [Eq "id" (VInt uid)]);
  let user := default ∅ (head newUser) in
  Ret (registered user t).

Definition register_catch (error : exn) : prog response :=
  match error with
  | DbError "ER_DUP_ENTRY" => Ret user_exists
  | _ => Ret (Response 500 (error_message "Internal server error"
                              "Registration failed. Please try again."))
  end.

Definition registerUser (env : environment) (req : request) : prog response :=
  try_catch
    (match field req "firstName", field req "lastName",
           field req "email", field req "password" with
     | Some (String _ _ as firstName), Some (String _ _ as lastName),
       Some (String _ _ as email), Some (String _ _ as password) =>
         if negb (Js.emailRegex_test email) then
           Ret (Response 400 (error_json "Invalid email format"))
         else if (String.length password <? 8)%nat then
           Ret (Response 400
                  (error_json "Password must be at least 8 characters long"))
         else
           existingUsers ← query (SELECT (Some ["id"]) Users
                                    [Eq "email" (VStr (Js.toLowerCase email))]);
           if (0 <? length existingUsers)%nat then Ret user_exists
           else createUser env firstName lastName email password
     | _, _, _, _ =>
         Ret (Response 400
                (JObj [("error", JStr "All fields are required");
                       ("details",
                        JStr "firstName, lastName, email, and password are required")]))
     end)
    register_catch.

Definition invalid_credentials : response :=
  Response 401 (error_message "Invalid credentials"
                  "Email or password is incorrect").

Definition logged_in (user : row) (t : token) : response :=
  let hasRole := truthy (col user "role") in
  Response 200
    (JObj [("success", JBool true);
           ("message", JStr "Login successful");
           ("data", JObj [("user", JRow (<["profileSetup" := VBool hasRole]> user));
                          ("token", JTok t);
                          ("redirectTo",
                           JStr (if hasRole then "/dashboard"
                                 else "/role-selection"))])]).

Definition loginUser (env : environment) (req : request) : prog response :=
  try_catch
    (match field req "email", field req "password" with
     | Some (String _ _ as email), Some (String _ _ as password) =>
         users ← query (SELECT (Some ["id"; "firstName"; "lastName"; "email";
                                      "password"; "role"])
                          Users [Eq "email" (VStr (Js.toLowerCase email))]);
         match users with
         | [] => Ret invalid_credentials
         | user :: _ =>
             isPasswordValid ← bcrypt_compare password (col user "password");
             if negb isPasswordValid then Ret invalid_credentials
             else
               t ← generateToken env (col user "id");
               Ret (logged_in (delete "password" user) t)
         end
     | _, _ =>
         Ret (Response 400 (error_json "Email and password are required"))
     end)
    (fun _ => Ret (Response 500 (error_message "Internal server error"
                                   "Login failed. Please try again."))).

Definition refreshed (t : token) : response :=
  Response 200 (JObj [("success", JBool true);
                      ("data", JObj [("token", JTok t)])]).

Definition refreshToken (env : environment) (req : request) : prog response :=
  try_catch
    (if negb (startsWith_Bearer (authorization req)) then
       Ret (Response 401 (error_json "No token provided"))
     else
       let t := default (Text "") (authorization req ≫= (.!! 1%nat)) in
       decoded ← verify t (JWT_SECRET env);
       let uid := userId decoded in
       users ← query (SELECT (Some ["id"]) Users
                        [Eq "id" uid; Eq "isActive" (VInt 1)]);
       match users with
       | [] => Ret (Response 401 (error_json "Invalid token"))
       | _ :: _ =>
           newToken ← generateToken env uid;
           _ ← db_execute (UPDATE UserSessions
                  (list_to_map [("token", Lit (VTok newToken));
                                ("lastUsedAt", NOW)])
                  [Eq "userId" uid; Eq "isActive" (VInt 1)]);
           Ret (refreshed newToken)
       end)
    (fun _ => Ret (Response 401 (error_json "Invalid or expired token"))).

Definition logout_successful : response :=
  Response 200 (JObj [("success", JBool true);
                      ("message", JStr "Logout successful")]).

Definition logoutUser (req : request) : prog response :=
  try_catch
    (_ ← (if startsWith_Bearer (authorization req) then
            let t := default (Text "") (authorization req ≫= (.!! 1%nat)) in
            db_execute (UPDATE UserSessions
                          {["isActive" := Lit (VInt 0)]}
                          [Eq "token" (VTok t)])
          else Ret (OkPacket 0));
     Ret logout_successful)
    (fun _ => Ret (Response 500 (error_json "Internal server error"))).

End AuthController.

(** ** middleware/auth.js: the stateless gateway *)

Module AuthMiddleware.

Definition JWT_SECRET (env : environment) : string :=
  Js.or_else (env_JWT_SECRET env) "your-fallback-secret".

(** [req.user = { userId, token }] *)
Definition gate_catch (error : exn) : prog (gate (jsval * token)) :=
  match error with
  | JwtError JsonWebTokenError =>
      Ret (Rejected (Response 401 (error_message "Invalid token"
                                     "Token is malformed")))
  | JwtError TokenExpiredError =>
      Ret (Rejected (Response 401 (error_message "Token expired"
                                     "Please login again")))
  | _ =>
      Ret (Rejected (Response 500 (error_message "Internal server error"
                                     "Authentication failed")))
  end.

Definition authenticateToken (env : environment) (req : request)
  : prog (gate (jsval * token)) :=
  try_catch
    (match bearer (authorization req) with
     | None =>
         Ret (Rejected (Response 401 (error_message "Access denied"
                                        "No token provided")))
     | Some t =>
         decoded ← verify t (JWT_SECRET env);
         let uid := userId decoded in
         users ← query (SELECT (Some ["id"]) Users [Eq "id" uid]);
         match users with
         | [] =>
             Ret (Rejected (Response 401 (error_message "Invalid token"
                                            "User not found")))
         | _ :: _ => Ret (Next (uid, t))
         end
     end)
    gate_catch.

End AuthMiddleware.

(** ** routes/authRoutes.js *)

Module AuthRoutes.

(** [router.post("/logout", authenticateToken, logoutUser)] *)
Definition logout (env : environment) (req : request) : prog response :=
  route (AuthMiddleware.authenticateToken env req)
        (fun _ => AuthController.logoutUser req).

End AuthRoutes.

(** ** server.js *)

Module Server.

Definition JWT_SECRET (env : environment) : string :=
  Js.or_else (env_JWT_SECRET env)
             "your-super-secret-jwt-key-change-in-production".

(** The stateful gateway: [req.user = decoded], [req.sessionId]. *)
Definition authenticateToken (env : environment) (req : request)
  : prog (gate (claims * jsval)) :=
  match bearer (authorization req) with
  | None => Ret (Rejected (Response 401 (error_json "Access token required")))
  | Some t =>
      try_catch
        (decoded ← verify t (JWT_SECRET env);
         sessions ← query (SELECT None UserSessions
                             [Eq "token" (VTok t); Eq "isActive" (VInt 1);
                              GtNow "expiresAt"]);
         match sessions with
         | [] =>
             Ret (Rejected (Response 403 (error_json "Invalid or expired token")))
         | session :: _ =>
             _ ← db_execute (UPDATE UserSessions {["lastUsedAt" := NOW]}
                               [Eq "token" (VTok t)]);
             Ret (Next (decoded, col session "id"))
         end)
        (fun _ => Ret (Rejected (Response 403 (error_json "Invalid token"))))
  end.

Definition internal_error : response :=
  Response 500 (error_json "Internal server error").

(** [req.body.deviceInfo || null] *)
Definition deviceInfo (req : request) : jsval :=
  match body req !! "deviceInfo" with
  | Some v => if truthy v then v else VNull
  | None => VNull
  end.

(** Signing the token and storing its session, as the register, login and
    OAuth handlers all do. *)
Definition openSession (env : environment) (req : request)
    (uid email device : jsval) : prog token :=
  t ← sign uid (Some email) (JWT_SECRET env) seven_days;
  clock ← DateNow Ret;
  let expiresAt := clock + seven_days * 1000 in
  address ← param (VStr <$> ip req);
  agent ← param (VStr <$> userAgent req);
  _ ← db_execute (INSERT UserSessions
         (list_to_map
            [("userId", uid); ("token", VTok t); ("deviceInfo", device);
             ("ipAddress", address); ("userAgent", agent);
             ("expiresAt", VInt expiresAt)]));
  Ret t.

(** The inline handler of POST /api/auth/register, after its validators
    (server.js 276-347; the router answers this path before it). *)
Definition register (env : environment) (req : request) : prog response :=
  try_catch
    (email ← param (VStr <$> field req "email");
     existingUsers ← query (SELECT (Some ["id"]) Users [Eq "email" email]);
     if (0 <? length existingUsers)%nat then
       Ret (Response 400 (error_json "User already exists"))
     else
       let saltRounds := 12%nat in
       hashedPassword ←
         match field req "password" with
         | Some password => Ret (VStr (bcrypt_hash password saltRounds))
         | None => Throw (TypeError "data and salt arguments required")
         end;
       firstName ← param (VStr <$> field req "firstName");
       lastName ← param (VStr <$> field req "lastName");
       uid ← command (INSERT Users
                (list_to_map
                   [("email", email); ("password", hashedPassword);
                    ("firstName", firstName); ("lastName", lastName)]));
       t ← openSession env req (VInt uid) email (deviceInfo req);
       users ← query (SELECT (Some ["id"; "email"; "firstName"; "lastName";
                                    "role"; "profileSetup"; "country";
                                    "createdAt"])
                        Users [Eq "id" (VInt uid)]);
       Ret (Response 201
              (JObj [("message", JStr "User created successfully");
                     ("user", from_option JRow JNull (head users));
                     ("token", JTok t)])))
    (fun _ => Ret internal_error).

(** The inline handler of POST /api/auth/login, after its validators
    (server.js 349-415; the router answers this path before it). *)
Definition login (env : environment) (req : request) : prog response :=
  try_catch
    (email ← param (VStr <$> field req "email");
     users ← query (SELECT None Users [Eq "email" email; Eq "isActive" (VInt 1)]);
     match users with
     | [] => Ret (Response 400 (error_json "Invalid credentials"))
     | user :: _ =>
         validPassword ←
           match field req "password" with
           | Some password => bcrypt_compare password (col user "password")
           | None => Throw (TypeError "data and hash arguments required")
           end;
         if negb validPassword then
           Ret (Response 400 (error_json "Invalid credentials"))
         else
           _ ← db_execute (UPDATE Users {["lastLogin" := NOW]}
                             [Eq "id" (col user "id")]);
           t ← openSession env req (col user "id") (col user "email")
                 (deviceInfo req);
           Ret (Response 200
                  (JObj [("message", JStr "Login successful");
                         ("user", JRow (delete "password" user));
                         ("token", JTok t)]))
     end)
    (fun _ => Ret internal_error).

(** The inline handler of POST /api/auth/logout (server.js 418-434; the
    router answers this path before it). *)
Definition logout_handler (req : request) : prog response :=
  try_catch
    (t ← param (VTok <$> header_token (authorization req));
     _ ← db_execute (UPDATE UserSessions {["isActive" := Lit (VInt 0)]}
                       [Eq "token" t]);
     Ret (Response 200 (JObj [("message", JStr "Logged out successfully")])))
    (fun _ => Ret internal_error).

Definition allowedUpdates : list string :=
  ["firstName"; "lastName"; "role"; "phone"; "bio"; "country"; "state";
   "city"; "location"; "zipCode"; "profileSetup"; "farmName"; "farmSize";
   "farmType"; "productsGrown"; "organicCertified"; "businessName";
   "businessType"; "servicesOffered"; "yearsInBusiness"; "website";
   "buyerType"; "interests"; "monthlyBudget"; "currency"].

Definition profile_columns : list string :=
  ["id"; "email"; "firstName"; "lastName"; "role"; "phone"; "bio"; "avatar";
   "country"; "state"; "city"; "location"; "zipCode"; "profileSetup";
   "farmName"; "farmSize"; "farmType"; "productsGrown"; "organicCertified";
   "businessName"; "businessType"; "servicesOffered"; "yearsInBusiness";
   "website"; "buyerType"; "interests"; "monthlyBudget"; "currency";
   "createdAt"; "lastLogin"].

(** The handler of PUT /api/user/profile, after the validators. *)
Definition updateProfile (req : request) (decoded : claims) : prog response :=
  try_catch
    (let updates : gmap string jsval :=
       filter (fun kv : string * jsval => kv.1 ∈ allowedUpdates) (body req) in
     if bool_decide (updates = ∅) then
       Ret (Response 400 (error_json "No valid fields to update"))
     else
       _ ← db_execute (UPDATE Users (Lit <$> updates) [Eq "id" (userId decoded)]);
       users ← query (SELECT (Some profile_columns) Users
                        [Eq "id" (userId decoded)]);
       Ret (Response 200
              (JObj [("message", JStr "Profile updated successfully");
                     ("user", from_option JRow JNull (head users))])))
    (fun _ => Ret internal_error).

(** [app.put("/api/user/profile", authenticateToken, ..., handler)] *)
Definition putProfile (env : environment) (req : request) : prog response :=
  route (authenticateToken env req) (fun a => updateProfile req a.1).

End Server.

(** ** config/oauth.js *)

Module OAuth.

(** The profile a passport strategy hands over: [id], [emails[i].value],
    [name.givenName], [name.familyName], [displayName],
    [photos[i].value]. *)
Record profile := Profile {
  id : string;
  emails : list string;
  name : option (option string * option string);
  displayName : option string;
  photos : list string
}.

(** [profile.name?.givenName || profile.displayName?.split(" ")[i] || ""] *)
Definition derived_name (own : option string) (p : profile) (i : nat) : string :=
  Js.or_else own
    (Js.or_else (displayName p ≫= fun d => Js.split_space d !! i) "").

Definition null_or (o : option string) : jsval :=
  match o with
  | Some (String _ _ as s) => VStr s
  | _ => VNull
  end.

(** The last step of [findOrCreateUser]: no user has the social identity
    and none was linked through the email. *)
Definition createUser (p : profile) (provider : string) (email : jsval)
  : prog (option row) :=
  let firstName := derived_name (name p ≫= fst) p 0 in
  let lastName := derived_name (name p ≫= snd) p 1 in
  let avatar := null_or (head (photos p)) in
  uid ← command (INSERT Users
           (list_to_map
              [("email", email); ("firstName", VStr firstName);
               ("lastName", VStr lastName); ("socialId", VStr (id p));
               ("socialProvider", VStr provider); ("avatar", avatar);
               ("emailVerified", VInt 1); ("profileSetup", VInt 0)]));
  newUser ← query (SELECT None Users [Eq "id" (VInt uid)]);
  Ret (head newUser).

(** The catch block logs and throws the error again, so exceptions simply
    propagate.  The result is [undefined] when [newUser[0]] is. *)
Definition findOrCreateUser (p : profile) (provider : string)
  : prog (option row) :=
  existingUsers ← query (SELECT None Users
                           [Eq "socialId" (VStr (id p));
                            Eq "socialProvider" (VStr provider)]);
  match existingUsers with
  | u :: _ => Ret (Some u)
  | [] =>
      (* profile.emails && profile.emails[0] ? profile.emails[0].value : null *)
      let email := from_option VStr VNull (head (emails p)) in
      linked ←
        (if truthy email then
           emailUsers ← query (SELECT None Users [Eq "email" email]);
           match emailUsers with
           | u :: _ =>
               photo ← param (VStr <$> head (photos p));
               _ ← db_execute (UPDATE Users
                      (list_to_map
                         [("socialId", Lit (VStr (id p)));
                          ("socialProvider", Lit (VStr provider));
                          ("avatar", Lit photo)])
                      [Eq "id" (col u "id")]);
               Ret (Some u)
           | [] => Ret None
           end
         else Ret None);
      match linked with
      | Some u => Ret (Some u)
      | None => createUser p provider email
      end
  end.

End OAuth.

(** ** Start-up

    The top level of an entry script runs to completion before any promise
    reaction does.  A script is the sequence of its effects; calling
    [connectDB()] registers what runs once its promise has settled. *)

Module Startup.

Inductive outcome := Connected | Failed.

Inductive event :=
| Listening               (* app.listen(PORT, ...) was called *)
| Exited (code : Z).      (* process.exit(code) *)

Inductive task :=
| Done
| Listen (k : task)
| Exit (code : Z)
| Connect (settled : outcome -> task) (k : task).

(** The synchronous part of a task: its events, the reactions it
    registered, and whether it ended the process. *)
Fixpoint sync (o : outcome) (t : task) : list event * list task * bool :=
  match t with
  | Done => ([], [], false)
  | Listen k => let '(ev, rs, x) := sync o k in (Listening :: ev, rs, x)
  | Exit code => ([Exited code], [], true)
  | Connect settled k =>
      let '(ev, rs, x) := sync o k in (ev, settled o :: rs, x)
  end.

(** The event loop: tasks run one after the other until the queue is
    empty or the process exits. *)
Fixpoint loop (fuel : nat) (o : outcome) (queue : list task) : list event :=
  match fuel, queue with
  | S n, t :: rest =>
      let '(ev, rs, x) := sync o t in
      if x then ev else ev ++ loop n o (rest ++ rs)
  | _, _ => []
  end.

Fixpoint size (t : task) : nat :=
  match t with
  | Done | Exit _ => 1
  | Listen k => S (size k)
  | Connect settled k => S (size (settled Connected) + size (settled Failed) + size k)
  end.

Definition boot (script : task) (o : outcome) : list event :=
  loop (size script) o [script].

(** server.js: [connectDB().catch(() => process.exit(1))] near the top,
    [app.listen(PORT, ...)] at the bottom. *)
Definition server_js : task :=
  Connect (fun o => match o with Connected => Done | Failed => Exit 1 end)
          (Listen Done).

(** The slim server: an async function that awaits [connectDB()] before
    it listens, and exits in its catch block. *)
Definition slim_server : task :=
  Connect (fun o => match o with Connected => Listen Done | Failed => Exit 1 end)
          Done.

End Startup.

(** ** Vocabulary of the statements *)

(** The users whose email the store holds equal to [e]. *)
Definition users_with_email (e : string) (w : world) : list row :=
  List.filter (fun u => sql_eq (col u "email") (VStr e)) (users w).

(** The stored hash of [u] is a string and not the hash of [p]. *)
Definition wrong_password (p : string) (u : row) : Prop :=
  exists h, col u "password" = VStr h /\ h <> bcrypt_hash p 12.

(** The body of [req] carries the non-empty strings [e] and [p] as its
    email and password. *)
Definition presents (req : request) (e p : string) : Prop :=
  field req "email" = Some e /\ field req "password" = Some p
  /\ e <> "" /\ p <> "".

(** Those of them that are active. *)
Definition active_users_with_email (e : string) (w : world) : list row :=
  List.filter (fun u => sql_eq (col u "isActive") (VInt 1))
              (users_with_email e w).

(** The sessions the stateful gateway accepts for a bearer string: same
    token, active, not expired. *)
Definition live_sessions (t : token) (w : world) : list row :=
  List.filter (matches (now w) [Eq "token" (VTok t); Eq "isActive" (VInt 1);
                                GtNow "expiresAt"])
              (user_sessions w).

(** The store after the gateway has bumped [lastUsedAt] of the sessions
    of a bearer string. *)
Definition touched (t : token) (w : world) : world :=
  set_rows UserSessions
    (map (fun r => if matches (now w) [Eq "token" (VTok t)] r
                   then updated UserSessions w {["lastUsedAt" := NOW]} r
                   else r)
         (user_sessions w)) w.

(** The columns of a user that carry identity and account status. *)
Definition protected_columns : list string :=
  ["email"; "password"; "socialId"; "socialProvider"; "emailVerified";
   "isActive"].

(** The store after [UPDATE user_sessions SET isActive = 0 WHERE token = ?]. *)
Definition revoke (t : token) (w : world) : world :=
  set_rows UserSessions
    (map (fun r => if matches (now w) [Eq "token" (VTok t)] r
                   then updated UserSessions w {["isActive" := Lit (VInt 0)]} r
                   else r)
         (user_sessions w)) w.

(** No session row with the bearer string [t] is active. *)
Definition revoked (t : token) (w : world) : Prop :=
  Forall (fun r => sql_eq (col r "token") (VTok t) = true ->
                   sql_eq (col r "isActive") (VInt 1) = false)
         (user_sessions w).

(** A statement that neither stores the bearer string [t] in a session
    row nor sets a session active again.  (Signing in again within the
    same second yields the same string, and a refresh writes the new
    string into the old rows: these are the statements excluded.) *)
Definition harmless (t : token) (q : sql) : bool :=
  match q with
  | INSERT UserSessions vals =>
      match vals !! "token" with
      | Some (VTok t') => negb (bool_decide (t' = t))
      | _ => false
      end
  | UPDATE UserSessions sets _ =>
      match sets !! "token" with
      | None => true
      | Some (Lit (VTok t')) => negb (bool_decide (t' = t))
      | _ => false
      end
      && match sets !! "isActive" with
         | None | Some (Lit (VInt 0)) => true
         | _ => false
         end
  | _ => true
  end.

(** How the store may evolve after a logout: harmless statements of other
    requests, and anything that leaves the two tables alone (time passing,
    the store going away and coming back). *)
Inductive later (t : token) : world -> world -> Prop :=
| later_refl w : later t w w
| later_execute w q w' :
    harmless t q = true -> later t (execute q w).2 w' -> later t w w'
| later_env w w1 w' :
    users w1 = users w -> user_sessions w1 = user_sessions w ->
    later t w1 w' -> later t w w'.

(** ** Sample data

    A deployment whose JWT_SECRET is configured, so that the controllers,
    the middleware and server.js sign and verify with the same key; and
    a store that holds Ann's user row and the session of a token of hers,
    as the inline register handler of server.js writes them at second
    1000. *)

Definition sample_env : environment := Environment (Some "k3y-from-env") None.

Definition empty_store : world := World [] [] 1 1 1000000 true false.

Definition signup (email password : string) : request :=
  Request None
    (list_to_map [("firstName", VStr "Ann"); ("lastName", VStr "Lee");
                  ("email", VStr email); ("password", VStr password)])
    (Some "203.0.113.7") (Some "Mozilla/5.0").

Definition credentials (email password : string) : request :=
  Request None
    (list_to_map [("email", VStr email); ("password", VStr password)])
    (Some "203.0.113.7") (Some "Mozilla/5.0").

Definition with_bearer (t : token) (b : gmap string jsval) : request :=
  Request (Some [Text "Bearer"; t]) b (Some "203.0.113.7") (Some "Mozilla/5.0").

Definition ann_store : world :=
  (run (Server.register sample_env (signup "ann@example.com" "pw123456"))
       empty_store).2.

Definition ann_token : token :=
  JWT (Claims (VInt 1) (Some (VStr "ann@example.com")) 1000 605800)
      "k3y-from-env".

(** The same store [ms] milliseconds later. *)
Definition advance (ms : Z) (w : world) : world :=
  World (users w) (user_sessions w) (auto_users w) (auto_sessions w)
        (now w + ms) (reachable w) (strict w).

(** The same store with every account deactivated ([isActive = 0]), as an
    administrator would do it. *)
Definition deactivate_all (w : world) : world :=
  World (<["isActive" := VInt 0]> <$> users w) (user_sessions w)
        (auto_users w) (auto_sessions w) (now w) (reachable w) (strict w).

(** The active users with a given id. *)
Definition active_users_with_id (uid : jsval) (w : world) : list row :=
  List.filter (matches (now w) [Eq "id" uid; Eq "isActive" (VInt 1)]) (users w).

(** The row of an active session of user [uid]. *)
Definition active_session_of (uid : jsval) (r : row) : bool :=
  sql_eq (col r "userId") uid && sql_eq (col r "isActive") (VInt 1).

(** The users that carry the social identity of a profile. *)
Definition social_users (p : OAuth.profile) (provider : string) (w : world)
  : list row :=
  List.filter (matches (now w) [Eq "socialId" (VStr (OAuth.id p));
                                Eq "socialProvider" (VStr provider)])
              (users w).

(** [users.id] is an INT column. *)
Definition integer_ids (w : world) : Prop :=
  Forall (fun r => exists n, col r "id" = VInt n) (users w).

(** A profile as Google hands it over. *)
Definition bob_profile : OAuth.profile :=
  OAuth.Profile "108177" ["bob@example.com"] (Some (Some "Bob", Some "Ray"))
                (Some "Bob Ray") ["https://img.example.com/bob.png"].

(** What one call of [findOrCreateUser] achieves, from the store [w] to
    the result [res] and the store [w1]: at most one user is added; when
    one is added, some user carries the social identity afterwards; and
    when a user is returned, the first user that carries the social
    identity has its id. *)
Definition settled (p : OAuth.profile) (provider : string) (w : world)
    (res : exn + option row) (w1 : world) : Prop :=
  (length (users w1) <= S (length (users w)))%nat
  /\ reachable w1 = reachable w
  /\ (length (users w1) <> length (users w) ->
      exists u' l, social_users p provider w1 = u' :: l)
  /\ (integer_ids w -> forall u, res = inr (Some u) ->
      reachable w = true
      /\ exists u' l, social_users p provider w1 = u' :: l
                      /\ col u' "id" = col u "id").

(** ** Requests served concurrently

    Node serves one request until it awaits, then another.  [step] runs a
    program up to its next suspension point (reading the clock counts as
    one, which only adds interleavings); a schedule says whose turn it
    is, and what is left when the schedule ends runs to completion. *)

Definition step {A} (p : prog A) (w : world) : prog A * world :=
  match p with
  | Execute q k => let '(r, w') := execute q w in (k r, w')
  | DateNow k => (k (now w), w)
  | _ => (p, w)
  end.

Fixpoint interleave {A B} (sched : list bool) (p : prog A) (q : prog B)
    (w : world) : prog A * prog B * world :=
  match sched with
  | [] => (p, q, w)
  | true :: s => let '(p', w') := step p w in interleave s p' q w'
  | false :: s => let '(q', w') := step q w in interleave s p q' w'
  end.

Definition serve2 {A B} (sched : list bool) (p : prog A) (q : prog B)
    (w : world) : (exn + A) * (exn + B) * world :=
  let '(p', q', w') := interleave sched p q w in
  let '(a, w1) := run p' w' in
  let '(b, w2) := run q' w1 in
  (a, b, w2).

(** The body of [req] passes the checks of [registerUser]: four non-empty
    strings, an email of the right shape, a password of eight characters
    or more. *)
Definition valid_signup (req : request) (firstName lastName email password : string)
  : Prop :=
  field req "firstName" = Some firstName /\ field req "lastName" = Some lastName
  /\ field req "email" = Some email /\ field req "password" = Some password
  /\ firstName <> "" /\ lastName <> ""
  /\ Js.emailRegex_test email = true
  /\ (8 <= String.length password)%nat.

(** Some user holds the email [e]. *)
Definition has_email (e : string) (w : world) : bool :=
  existsb (fun o => sql_eq (col o "email") (VStr e)) (users w).

(** The stages of [registerUser] between its suspension points: before
    the existence check, before the INSERT, before signing, before the
    final SELECT, and after the response. *)
Inductive stage :=
| Checking
| Creating
| Signing (uid : Z)
| Fetching (uid : Z) (t : token)
| Answered (r : response).

Definition thread (env : environment) (req : request)
    (firstName lastName email password : string) (s : stage) : prog response :=
  match s with
  | Checking => AuthController.registerUser env req
  | Creating =>
      try_catch (AuthController.createUser env firstName lastName email password)
                AuthController.register_catch
  | Signing uid =>
      try_catch
        (t ← AuthController.generateToken env (VInt uid);
         newUser ← query (SELECT (Some ["id"; "firstName"; "lastName"; "email"; "role"])
                            Users [Eq "id" (VInt uid)]);
         Ret (AuthController.registered (default ∅ (head newUser)) t))
        AuthController.register_catch
  | Fetching uid t =>
      try_catch
        (newUser ← query (SELECT (Some ["id"; "firstName"; "lastName"; "email"; "role"])
                            Users [Eq "id" (VInt uid)]);
         Ret (AuthController.registered (default ∅ (head newUser)) t))
        AuthController.register_catch
  | Answered r => Ret r
  end.

(** The row [registerUser] inserts. *)
Definition signup_values (firstName lastName email password : string) : row :=
  list_to_map
    [("email", VStr (Js.toLowerCase email));
     ("password", VStr (bcrypt_hash password 12));
     ("firstName", VStr (Js.trim firstName));
     ("lastName", VStr (Js.trim lastName));
     ("role", VNull)].

(** One step of a stage, in a store that answers. *)
Definition next (env : environment) (email : string) (vals : row)
    (s : stage) (w : world) : stage * world :=
  match s with
  | Checking =>
      if has_email (Js.toLowerCase email) w
      then (Answered AuthController.user_exists, w) else (Creating, w)
  | Creating =>
      if has_email (Js.toLowerCase email) w
      then (Answered AuthController.user_exists, w)
      else (Signing (auto_users w), (execute (INSERT Users vals) w).2)
  | Signing uid =>
      (Fetching uid (jwt_sign (VInt uid) None (AuthController.JWT_SECRET env)
                       (AuthController.JWT_EXPIRES_IN env) (now w)), w)
  | Fetching uid t =>
      (Answered
         (AuthController.registered
            (default ∅ (head (project (Some ["id"; "firstName"; "lastName"; "email"; "role"])
                              <$> List.filter (matches (now w) [Eq "id" (VInt uid)])
                                              (users w))))
            t), w)
  | Answered r => (Answered r, w)
  end.

(** A stage at or after a successful INSERT. *)
Definition created (s : stage) : bool :=
  match s with
  | Signing _ | Fetching _ _ => true
  | Answered r => status r =? 201
  | _ => false
  end.

(** The only answers a valid sign-up gets while the store answers. *)
Definition answer_ok (s : stage) : Prop :=
  match s with
  | Answered r => r = AuthController.user_exists \/ status r = 201
  | _ => True
  end.

(** What holds of two concurrent sign-ups with the email [e], started in
    the store [w0]: at most one of them has inserted, and the email is
    present exactly when it was at the start or one of them inserted. *)
Definition race_invariant (e : string) (w0 : world) (s1 s2 : stage) (w : world)
  : Prop :=
  reachable w = true
  /\ answer_ok s1 /\ answer_ok s2
  /\ (created s1 = true -> created s2 = true -> False)
  /\ (created s1 = true \/ created s2 = true \/ has_email e w0 = true ->
      has_email e w = true)
  /\ (has_email e w = true ->
      created s1 = true \/ created s2 = true \/ has_email e w0 = true)
  /\ (s1 = Answered AuthController.user_exists -> has_email e w = true)
  /\ (s2 = Answered AuthController.user_exists -> has_email e w = true).

(** ** Reading the profile *)

Module ProfileRead.

(** controllers/authController.js: [getUserProfile], behind the
    middleware gateway, which sets [req.user.userId]. *)
Definition columns : list string :=
  ["id"; "firstName"; "lastName"; "email"; "role"; "phone"; "bio"; "avatar";
   "country"; "state"; "city"; "location"; "zipCode"; "profileSetup";
   "farmName"; "farmSize"; "farmType"; "productsGrown"; "organicCertified";
   "businessName"; "businessType"; "servicesOffered"; "yearsInBusiness";
   "website"; "buyerType"; "interests"; "monthlyBudget"; "currency";
   "emailVerified"; "createdAt"; "lastLogin"].

Definition getUserProfile (uid : jsval) : prog response :=
  try_catch
    (users ← query (SELECT (Some columns) Users
                      [Eq "id" uid; Eq "isActive" (VInt 1)]);
     match users with
     | [] => Ret (Response 404 (error_json "User not found"))
     | user :: _ =>
         Ret (Response 200 (JObj [("success", JBool true); ("data", JRow user)]))
     end)
    (fun _ => Ret (Response 500 (error_json "Internal server error"))).

(** [router.get("/profile", authenticateToken, getUserProfile)] *)
Definition profile (env : environment) (req : request) : prog response :=
  route (AuthMiddleware.authenticateToken env req)
        (fun a => getUserProfile a.1).

(** server.js: the handler of GET /api/user/profile, [req.user] being the
    decoded token. *)
Definition getProfile (decoded : claims) : prog response :=
  try_catch
    (users ← query (SELECT (Some Server.profile_columns) Users
                      [Eq "id" (userId decoded)]);
     match users with
     | [] => Ret (Response 404 (error_json "User not found"))
     | user :: _ => Ret (Response 200 (JRow user))
     end)
    (fun _ => Ret Server.internal_error).

(** [app.get("/api/user/profile", authenticateToken, handler)] *)
Definition userProfile (env : environment) (req : request) : prog response :=
  route (Server.authenticateToken env req) (fun a => getProfile a.1).

End ProfileRead.

(** ** middleware/auth.js: [optionalAuth]

    It always calls [next()]; the result is what it left in [req.user]. *)

Module Optional.

Definition optionalAuth (env : environment) (req : request)
  : prog (option (jsval * token)) :=
  try_catch
    (match bearer (authorization req) with
     | Some t =>
         decoded ← verify t (AuthMiddleware.JWT_SECRET env);
         Ret (Some (userId decoded, t))
     | None => Ret None
     end)
    (fun _ => Ret None).

End Optional.

(** Whether a JSON value carries the column [c] in one of its rows. *)
Fixpoint exposes (c : string) (j : json) : bool :=
  match j with
  | JRow r => bool_decide (is_Some (r !! c))
  | JObj fields =>
      (fix go (l : list (string * json)) : bool :=
         match l with
         | [] => false
         | (_, v) :: rest => exposes c v || go rest
         end) fields
  | _ => false
  end.

(** ** The inputs the statements speak about *)

(** Printable ASCII, the blank included: on such strings the byte length
    is the length JavaScript reports, and [\s], [trim] and [toLowerCase]
    are the ASCII ones. *)
Definition ascii_text (s : string) : bool :=
  forallb (fun c => let n := nat_of_ascii c in (32 <=? n)%nat && (n <=? 126)%nat)
          (list_ascii_of_string s).

(** Printable ASCII without blanks: on such strings the comparison of
    utf8mb4_unicode_ci is equality up to letter case. *)
Definition ascii_word (s : string) : bool :=
  forallb (fun c => let n := nat_of_ascii c in (33 <=? n)%nat && (n <=? 126)%nat)
          (list_ascii_of_string s).

(** Every stored email is such a string. *)
Definition plain_emails (w : world) : Prop :=
  Forall (fun u => exists e, col u "email" = VStr e /\ ascii_word e = true)
         (users w).

(** The widths of the columns a sign-up fills: [firstName] and
    [lastName] are VARCHAR(100), [email] is VARCHAR(255); the password is
    stored as its hash. *)
Definition signup_width (k : string) (s : string) : bool :=
  if String.eqb k "password" then true
  else if String.eqb k "email" then (String.length s <=? 255)%nat
  else (String.length s <=? 100)%nat.

(** The body of a sign-up as far as [registerUser] reads it: each of the
    four fields is missing, falsy, or a string of printable ASCII that
    fits its column. *)
Definition text_fields (req : request) : Prop :=
  forall k v,
    k ∈ ["firstName"; "lastName"; "email"; "password"] ->
    body req !! k = Some v -> truthy v = true ->
    exists s, v = VStr s /\ ascii_text s = true /\ signup_width k s = true.

(** A sign-up that passes the checks of [registerUser], written in
    printable ASCII, whose values fit their columns: [firstName] and
    [lastName] are VARCHAR(100), [email] is VARCHAR(255).  The validators
    of the router let no longer names through. *)
Definition storable_signup (req : request)
    (firstName lastName email password : string) : Prop :=
  valid_signup req firstName lastName email password
  /\ ascii_text firstName = true /\ ascii_text lastName = true
  /\ ascii_text email = true /\ ascii_text password = true
  /\ (String.length (Js.trim firstName) <= 100)%nat
  /\ (String.length (Js.trim lastName) <= 100)%nat
  /\ (String.length email <= 255)%nat.

(** A bearer string that is a signed token. *)
Definition is_jwt (t : token) : bool :=
  match t with JWT _ _ => true | Text _ => false end.

(** Every session row holds a signed token, as every statement of the
    code that writes the column does.  Two different signed tokens are
    different strings also under the collation of the column. *)
Definition jwt_sessions (w : world) : Prop :=
  Forall (fun r => exists t, col r "token" = VTok t /\ is_jwt t = true)
         (user_sessions w).

(** *** The types of the columns a profile update may write
    ([scripts/schema.sql], table users).  A value fits when MySQL stores
    it unchanged and [mysql2] reads it back as it was bound. *)

Definition VARCHAR (n : N) (v : jsval) : bool :=
  match v with
  | VStr s => (N.of_nat (String.length s) <=? n)%N
  | _ => false
  end.

(** TEXT: up to 65535 bytes. *)
Definition TEXT (v : jsval) : bool := VARCHAR 65535 v.

Definition ENUM (members : list string) (v : jsval) : bool :=
  match v with
  | VStr s => bool_decide (s ∈ members)
  | _ => false
  end.

(** BOOLEAN is TINYINT(1). *)
Definition TINYINT (v : jsval) : bool :=
  match v with
  | VBool _ => true
  | VInt n => (-128 <=? n) && (n <=? 127)
  | _ => false
  end.

Definition INT (v : jsval) : bool :=
  match v with
  | VInt n => (-2147483648 <=? n) && (n <=? 2147483647)
  | _ => false
  end.

Definition column_types : list (string * (jsval -> bool)) :=
  [("firstName", VARCHAR 100); ("lastName", VARCHAR 100);
   ("role", ENUM ["farmer"; "business"; "buyer"]);
   ("phone", VARCHAR 20); ("bio", TEXT); ("country", VARCHAR 2);
   ("state", VARCHAR 100); ("city", VARCHAR 100); ("location", VARCHAR 255);
   ("zipCode", VARCHAR 20); ("profileSetup", TINYINT);
   ("farmName", VARCHAR 255); ("farmSize", VARCHAR 50);
   ("farmType", VARCHAR 100); ("productsGrown", TEXT);
   ("organicCertified", TINYINT); ("businessName", VARCHAR 255);
   ("businessType", VARCHAR 100); ("servicesOffered", TEXT);
   ("yearsInBusiness", INT); ("website", VARCHAR 500);
   ("buyerType", ENUM ["individual"; "restaurant"; "retailer"]);
   ("interests", TEXT); ("monthlyBudget", VARCHAR 50);
   ("currency", VARCHAR 3)].

Definition fits_column (c : string) (v : jsval) : bool :=
  match List.find (fun kv : string * (jsval -> bool) => String.eqb kv.1 c)
                  column_types with
  | Some kv => kv.2 v
  | None => false
  end.

(** ** Proof steps

    A gateway that turns the request away settles a route; and one
    character of a header read bit by bit. *)

Ltac turned_away :=
  eexists; split; [reflexivity|]; split;
  [reflexivity | let H := fresh in intros H; discriminate H].

Ltac next_char s H :=
  destruct s as [|[[] [] [] [] [] [] [] []] s]; try discriminate H.

(** A body given in full is a body of text fields. *)
Ltac text_fields_by_computation :=
  let k := fresh "k" in let v := fresh "v" in
  let Hk := fresh "Hk" in let Hb := fresh "Hb" in
  intros k v Hk Hb _; rewrite !elem_of_cons, elem_of_nil in Hk;
  destruct Hk as [->|[->|[->|[->|[]]]]]; vm_compute in Hb;
  first [ discriminate Hb
        | injection Hb as <-; eexists; split; [|split]; reflexivity ].

(** * Properties *)

(** ** Running programs *)

Arguments project : simpl never.
Arguments col : simpl never.
Arguments sql_eq : simpl never.

Lemma run_bind {A B} (p : prog A) (f : A -> prog B) (w : world) :
  run (p ≫= f) w =
  match run p w with
  | (inl e, w') => (inl e, w')
  | (inr a, w') => run (f a) w'
  end.
Proof.
  unfold mbind, prog_bind. revert w.
  induction p as [a|e|q k IH|k IH]; intros w; simpl; try reflexivity.
  - destruct (execute q w) as [r w']. apply IH.
  - apply IH.
Qed.

Lemma run_try_catch {A} (p : prog A) (h : exn -> prog A) (w : world) :
  run (try_catch p h) w =
  match run p w with
  | (inl e, w') => run (h e) w'
  | (inr a, w') => (inr a, w')
  end.
Proof.
  revert w.
  induction p as [a|e|q k IH|k IH]; intros w; simpl; try reflexivity.
  - destruct (execute q w) as [r w']. apply IH.
  - apply IH.
Qed.

Lemma run_db_execute (q : sql) (w : world) :
  run (db_execute q) w =
  match execute q w with
  | (SqlError code, w') => (inl (DbError code), w')
  | (r, w') => (inr r, w')
  end.
Proof. simpl. destruct (execute q w) as [[rs|n|code] w']; reflexivity. Qed.

Lemma run_verify (t : token) (secret : string) (w : world) :
  run (verify t secret) w =
  (match jwt_verify t secret (now w) with
   | inr c => inr c
   | inl e => inl (JwtError e)
   end, w).
Proof. simpl. destruct (jwt_verify t secret (now w)); reflexivity. Qed.

Lemma run_command (q : sql) (w : world) :
  run (command q) w =
  match execute q w with
  | (SqlError code, w') => (inl (DbError code), w')
  | (OkPacket n, w') => (inr n, w')
  | (Rows _, w') => (inr 0, w')
  end.
Proof.
  unfold command. rewrite run_bind, run_db_execute.
  destruct (execute q w) as [[rs|n|code] w']; reflexivity.
Qed.

(** A SELECT reads the store and leaves it alone. *)
Lemma run_query_select cols t wh (w : world) :
  run (query (SELECT cols t wh)) w =
  if reachable w
  then (inr (project cols <$> List.filter (matches (now w) wh) (rows_of t w)), w)
  else (inl (DbError "ECONNREFUSED"), w).
Proof. unfold query. rewrite run_bind, run_db_execute. unfold execute.
  destruct (reachable w); reflexivity. Qed.

(** ** Tokens *)

Lemma clock_before (e clock : Z) : clock < e * 1000 -> (e <=? clockTimestamp clock) = false.
Proof.
  intros H. apply Z.leb_gt. unfold clockTimestamp.
  apply Z.div_lt_upper_bound; lia.
Qed.

Lemma clock_after (e clock : Z) : e * 1000 <= clock -> (e <=? clockTimestamp clock) = true.
Proof.
  intros H. apply Z.leb_le. unfold clockTimestamp.
  apply Z.div_le_lower_bound; lia.
Qed.

Lemma secrets_agree (env : environment) :
  AuthMiddleware.JWT_SECRET env = AuthController.JWT_SECRET env.
Proof. reflexivity. Qed.

(** C4.  The token that [generateToken] issues for a user id at any moment
    has an expiry instant; presented to [jwt.verify] under the gateway's
    secret at an instant strictly before it, it decodes to the same user
    id, and at any instant after it verification throws TokenExpiredError,
    which the middleware gateway answers with 401 "Token expired". *)
Theorem issued_token_verifies_until_expiry
    (env : environment) (uid : jsval) (issued_in checked_in : world) :
  exists (t : token) (e : Z),
    run (AuthController.generateToken env uid) issued_in = (inr t, issued_in)
    /\ expiry_instant t = Some e
    /\ (now checked_in < e ->
        exists c, run (verify t (AuthMiddleware.JWT_SECRET env)) checked_in
                  = (inr c, checked_in)
                  /\ userId c = uid)
    /\ (e < now checked_in ->
        run (verify t (AuthMiddleware.JWT_SECRET env)) checked_in
        = (inl (JwtError TokenExpiredError), checked_in)
        /\ forall req, bearer (authorization req) = Some t ->
             run (AuthMiddleware.authenticateToken env req) checked_in
             = (inr (Rejected (Response 401 (error_message "Token expired"
                                               "Please login again"))),
                checked_in)).
Proof.
  eexists _, _. split; [reflexivity|]. split; [reflexivity|].
  set (t := jwt_sign _ _ _ _ _). split.
  - intros Hlt. rewrite run_verify. unfold t, jwt_sign, jwt_verify.
    rewrite decide_True by reflexivity.
    simpl exp. rewrite clock_before by exact Hlt.
    eexists. split; reflexivity.
  - intros Hgt.
    assert (Hv : jwt_verify t (AuthMiddleware.JWT_SECRET env) (now checked_in)
                 = inl TokenExpiredError).
    { unfold t, jwt_sign, jwt_verify.
      rewrite decide_True by reflexivity.
      simpl exp in *. rewrite clock_after by lia. reflexivity. }
    split.
    + rewrite run_verify, Hv. reflexivity.
    + intros req Hb. unfold AuthMiddleware.authenticateToken.
      rewrite run_try_catch, Hb, run_bind, run_verify, Hv. reflexivity.
Qed.

(** A token issued at second 1000 for seven days, checked one second
    later and one second after its expiry. *)
Lemma issued_token_verifies_until_expiry_witness :
  let env := Environment None None in
  let w := World [] [] 1 1 1000000 true true in
  let t := JWT (Claims (VInt 7) None 1000 605800) "your-fallback-secret" in
  (exists c, run (verify t (AuthMiddleware.JWT_SECRET env))
                 (World [] [] 1 1 1001000 true true)
             = (inr c, World [] [] 1 1 1001000 true true) /\ userId c = VInt 7)
  /\ run (verify t (AuthMiddleware.JWT_SECRET env))
         (World [] [] 1 1 605801000 true true)
     = (inl (JwtError TokenExpiredError), World [] [] 1 1 605801000 true true).
Proof.
  intros env w t. split.
  - destruct (issued_token_verifies_until_expiry env (VInt 7) w
                (World [] [] 1 1 1001000 true true))
      as (t' & e & Ht & He & Hbefore & _).
    injection Ht as <-. injection He as <-.
    apply Hbefore. vm_compute. reflexivity.
  - destruct (issued_token_verifies_until_expiry env (VInt 7) w
                (World [] [] 1 1 605801000 true true))
      as (t' & e & Ht & He & _ & Hafter).
    injection Ht as <-. injection He as <-.
    apply Hafter. vm_compute. reflexivity.
Defined.

(** ** Strings, rows and conditions *)

Lemma lower_char_idem (c : ascii) : Js.lower_char (Js.lower_char c) = Js.lower_char c.
Proof. destruct c as [[] [] [] [] [] [] [] []]; reflexivity. Qed.

Lemma toLowerCase_idem (s : string) :
  Js.toLowerCase (Js.toLowerCase s) = Js.toLowerCase s.
Proof. induction s as [|c s IH]; simpl; [reflexivity|]. now rewrite lower_char_idem, IH. Qed.

Lemma sql_eq_lower (v : jsval) (e : string) :
  sql_eq v (VStr (Js.toLowerCase e)) = sql_eq v (VStr e).
Proof. unfold sql_eq. destruct (to_sql v); simpl; try reflexivity. now rewrite toLowerCase_idem. Qed.

Lemma sql_eq_str_refl (e : string) : sql_eq (VStr e) (VStr e) = true.
Proof. unfold sql_eq. simpl. apply String.eqb_refl. Qed.

Lemma sql_eq_int_refl (n : Z) : sql_eq (VInt n) (VInt n) = true.
Proof. unfold sql_eq. simpl. apply Z.eqb_refl. Qed.

Lemma col_project (cs : list string) (r : row) (c : string) :
  c ∈ cs -> col (project (Some cs) r) c = col r c.
Proof.
  intros Hc. unfold col, project. f_equal.
  destruct (r !! c) as [v|] eqn:Hr.
  - apply map_lookup_filter_Some. split; [exact Hr | exact Hc].
  - apply map_lookup_filter_None. left. exact Hr.
Qed.

Lemma filter_by_email (clock : Z) (e : string) (rs : list row) :
  List.filter (matches clock [Eq "email" (VStr (Js.toLowerCase e))]) rs
  = List.filter (fun u => sql_eq (col u "email") (VStr e)) rs.
Proof.
  apply List.filter_ext. intros u. unfold matches. simpl.
  rewrite andb_true_r. apply sql_eq_lower.
Qed.

Lemma filter_by_email_raw (clock : Z) (e : string) (rs : list row) :
  List.filter (matches clock [Eq "email" (VStr e)]) rs
  = List.filter (fun u => sql_eq (col u "email") (VStr e)) rs.
Proof.
  apply List.filter_ext. intros u. unfold matches. simpl.
  now rewrite andb_true_r.
Qed.

Lemma nonempty_string (s : string) : s <> "" -> exists c r, s = String c r.
Proof. destruct s; [congruence | eauto]. Qed.

Lemma wrong_password_compare (p : string) (u : row) :
  wrong_password p u ->
  bcrypt_compare p (col u "password") = Ret false.
Proof.
  intros (h & -> & Hne). simpl. f_equal.
  apply String.eqb_neq. exact Hne.
Qed.

(** ** Login *)

(** What [loginUser] answers once the body carries an email and a
    password: the outcome of the lookup and of the comparison. *)
Lemma loginUser_run (env : environment) (req : request) (e p : string) (w : world) :
  presents req e p -> reachable w = true ->
  run (AuthController.loginUser env req) w =
  match users_with_email e w with
  | [] => (inr AuthController.invalid_credentials, w)
  | u :: _ =>
      match col u "password" with
      | VStr h =>
          if String.eqb h (bcrypt_hash p 12) then
            (inr (AuthController.logged_in
                    (delete "password"
                       (project (Some ["id"; "firstName"; "lastName"; "email";
                                       "password"; "role"]) u))
                    (jwt_sign (col u "id") None (AuthController.JWT_SECRET env)
                       (AuthController.JWT_EXPIRES_IN env) (now w))), w)
          else (inr AuthController.invalid_credentials, w)
      | _ => (inr (Response 500 (error_message "Internal server error"
                                   "Login failed. Please try again.")), w)
      end
  end.
Proof.
  intros (He & Hp & Hne & Hnp) Hr.
  destruct (nonempty_string e Hne) as (c & r & ->).
  destruct (nonempty_string p Hnp) as (c' & r' & ->).
  unfold AuthController.loginUser. rewrite He, Hp.
  rewrite run_try_catch, run_bind, run_query_select, Hr.
  simpl rows_of. rewrite filter_by_email. fold (users_with_email (String c r) w).
  destruct (users_with_email (String c r) w) as [|u rest]; [reflexivity|].
  rewrite fmap_cons. cbv iota beta.
  rewrite run_bind, col_project by (repeat constructor).
  destruct (col u "password") as [| | |h|] eqn:Hpw; try reflexivity.
  simpl bcrypt_compare. simpl run at 2.
  destruct (String.eqb h _); [|reflexivity].
  simpl negb. cbv iota.
  rewrite col_project by (repeat constructor). reflexivity.
Qed.


Lemma filter_and {A} (f g : A -> bool) (l : list A) :
  List.filter (fun x => f x && g x) l = List.filter g (List.filter f l).
Proof.
  induction l as [|x l IH]; simpl; [reflexivity|].
  destruct (f x); simpl; [destruct (g x)|]; now rewrite IH.
Qed.

Lemma filter_active_email (clock : Z) (e : string) (w : world) :
  List.filter (matches clock [Eq "email" (VStr e); Eq "isActive" (VInt 1)])
              (users w)
  = active_users_with_email e w.
Proof.
  unfold active_users_with_email, users_with_email.
  rewrite <- filter_and. apply List.filter_ext. intros u.
  unfold matches. simpl. now rewrite andb_true_r.
Qed.


Lemma login_rejects (env : environment) (req : request) (e p : string) (w : world) :
  presents req e p -> reachable w = true ->
  Forall (wrong_password p) (active_users_with_email e w) ->
  run (Server.login env req) w
  = (inr (Response 400 (error_json "Invalid credentials")), w).
Proof.
  intros (He & Hp & Hne & Hnp) Hr Hall.
  unfold Server.login. rewrite He, Hp.
  change (VStr <$> Some e) with (Some (VStr e)).
  rewrite run_try_catch, run_bind. simpl (run (param _) _). cbv iota beta.
  rewrite run_bind, run_query_select, Hr.
  simpl rows_of. rewrite filter_active_email.
  destruct (active_users_with_email e w) as [|u rest]; [reflexivity|].
  apply Forall_cons in Hall as [Hu _].
  rewrite fmap_cons. cbv iota beta.
  change (project None u) with u.
  rewrite run_bind, (wrong_password_compare p u Hu). reflexivity.
Qed.




(** ** UPDATE *)

Lemma relax_lookup_None (t : table) (sets : gmap string expr) (c : string) :
  sets !! c = None -> relax t sets !! c = None.
Proof.
  intros Hc. unfold relax. apply lookup_union_None. split; [|exact Hc].
  rewrite lookup_fmap.
  replace (filter _ (implicit_defaults t) !! c) with (@None jsval); [reflexivity|].
  symmetry. apply map_lookup_filter_None. right. intros v _. simpl. congruence.
Qed.

(** The columns an UPDATE does not assign keep their value, apart from
    the ON UPDATE CURRENT_TIMESTAMP column. *)
Lemma updated_frame (t : table) (w : world) (sets : gmap string expr) (r : row) (c : string) :
  sets !! c = None -> c <> on_update t -> updated t w sets r !! c = r !! c.
Proof.
  intros Hc Hne. unfold updated.
  assert (Hnew : (eval (now w) <$> relax t sets) !! c = None)
    by (rewrite lookup_fmap, relax_lookup_None by exact Hc; reflexivity).
  destruct (bool_decide _); [reflexivity|].
  destruct (bool_decide _).
  - rewrite lookup_insert_ne by congruence. now apply lookup_union_r.
  - now apply lookup_union_r.
Qed.

(** A successful UPDATE rewrites the matching rows in place. *)
Lemma update_rows_ok (t : table) (w : world) (sets : gmap string expr)
    (wh : list cond) (todo seen rs : list row) :
  update_rows t w sets wh seen todo = inr rs ->
  rs = seen ++ map (fun r => if matches (now w) wh r then updated t w sets r else r) todo.
Proof.
  revert seen. induction todo as [|r rest IH]; intros seen H; simpl in *.
  - injection H as <-. now rewrite app_nil_r.
  - set (r' := if matches (now w) wh r then updated t w sets r else r) in *.
    destruct (bool_decide (r' = r)) eqn:Hsame.
    + apply bool_decide_eq_true in Hsame. rewrite Hsame.
      rewrite (IH _ H), <- app_assoc. reflexivity.
    + destruct (strict w && assigns_null t sets); [discriminate|].
      destruct (if key_changed t r r' then _ else _); [discriminate|].
      rewrite (IH _ H), <- app_assoc. reflexivity.
Qed.

(** An UPDATE fails and changes nothing, or rewrites rows in place. *)
Lemma execute_update (t : table) (sets : gmap string expr) (wh : list cond) (w : world) :
  (exists code, execute (UPDATE t sets wh) w = (SqlError code, w))
  \/ (exists n, execute (UPDATE t sets wh) w
      = (OkPacket n,
         set_rows t (map (fun r => if matches (now w) wh r
                                   then updated t w sets r else r)
                         (rows_of t w)) w)).
Proof.
  unfold execute. destruct (reachable w); [|left; eauto].
  unfold update. destruct (update_rows _ _ _ _ _ _) as [code|rs] eqn:H; [left; eauto|].
  right. exists 0. apply update_rows_ok in H. now rewrite H.
Qed.

(** An INSERT fails and changes nothing, or appends one row. *)
Lemma execute_insert (t : table) (vals : gmap string jsval) (w : world) :
  (exists code, execute (INSERT t vals) w = (SqlError code, w))
  \/ (exists r, new_row t w vals = inr r
               /\ key_error t w r (rows_of t w) = None
               /\ reachable w = true
               /\ execute (INSERT t vals) w
                  = (OkPacket (auto_of t w),
                     bump_auto t (set_rows t (rows_of t w ++ [r]) w))).
Proof.
  unfold execute. destruct (reachable w); [|left; eauto].
  unfold insert. destruct (new_row t w vals) as [code|r]; [left; eauto|].
  destruct (key_error t w r (rows_of t w)) eqn:Hk; [left; eauto|].
  right. exists r. auto.
Qed.

(** On user_sessions an UPDATE that leaves [userId] alone and assigns no
    NULL to a NOT NULL column cannot fail. *)
Lemma update_sessions_total (w : world) (sets : gmap string expr)
    (wh : list cond) (todo seen : list row) :
  sets !! "userId" = None -> assigns_null UserSessions sets = false ->
  update_rows UserSessions w sets wh seen todo
  = inr (seen ++ map (fun r => if matches (now w) wh r
                               then updated UserSessions w sets r else r) todo).
Proof.
  intros Hu Hn. revert seen. induction todo as [|r rest IH]; intros seen; simpl.
  - now rewrite app_nil_r.
  - set (r' := if matches (now w) wh r then updated UserSessions w sets r else r).
    assert (Hkey : col r' "userId" = col r "userId").
    { unfold r', col. destruct (matches _ _ _); [|reflexivity].
      now rewrite updated_frame. }
    rewrite Hn, andb_false_r.
    replace (negb (bool_decide (col r' "userId" = col r "userId"))) with false
      by (now rewrite bool_decide_eq_true_2).
    destruct (bool_decide (r' = r)) eqn:Hsame.
    + apply bool_decide_eq_true in Hsame. fold r'. rewrite IH, <- app_assoc.
      now rewrite Hsame.
    + now rewrite IH, <- app_assoc.
Qed.

Lemma execute_update_sessions (w : world) (sets : gmap string expr) (wh : list cond) :
  sets !! "userId" = None -> assigns_null UserSessions sets = false ->
  reachable w = true ->
  execute (UPDATE UserSessions sets wh) w
  = (OkPacket 0,
     set_rows UserSessions
       (map (fun r => if matches (now w) wh r
                      then updated UserSessions w sets r else r)
            (user_sessions w)) w).
Proof.
  intros Hu Hn Hr. unfold execute, update. rewrite Hr.
  now rewrite update_sessions_total.
Qed.

(** ** The stateful gateway *)

Lemma authenticateToken_run (env : environment) (req : request) (w : world) :
  run (Server.authenticateToken env req) w =
  match bearer (authorization req) with
  | None => (inr (Rejected (Response 401 (error_json "Access token required"))), w)
  | Some t =>
      match jwt_verify t (Server.JWT_SECRET env) (now w) with
      | inl _ => (inr (Rejected (Response 403 (error_json "Invalid token"))), w)
      | inr decoded =>
          if reachable w then
            match live_sessions t w with
            | [] => (inr (Rejected (Response 403
                                      (error_json "Invalid or expired token"))), w)
            | session :: _ => (inr (Next (decoded, col session "id")), touched t w)
            end
          else (inr (Rejected (Response 403 (error_json "Invalid token"))), w)
      end
  end.
Proof.
  unfold Server.authenticateToken.
  destruct (bearer (authorization req)) as [t|]; [|reflexivity].
  rewrite run_try_catch, run_bind, run_verify.
  destruct (jwt_verify t (Server.JWT_SECRET env) (now w)) as [e|decoded]; [reflexivity|].
  rewrite run_bind, run_query_select.
  destruct (reachable w) eqn:Hr; [|reflexivity].
  simpl rows_of. fold (live_sessions t w).
  destruct (live_sessions t w) as [|session rest]; [reflexivity|].
  rewrite fmap_cons. cbv iota beta. change (project None session) with session.
  rewrite run_bind, run_db_execute.
  rewrite execute_update_sessions by (reflexivity || exact Hr).
  reflexivity.
Qed.

(** The gateway never changes the users table. *)
Lemma authenticateToken_users (env : environment) (req : request) (w : world) :
  users (run (Server.authenticateToken env req) w).2 = users w.
Proof.
  rewrite authenticateToken_run.
  destruct (bearer _); [|reflexivity].
  destruct (jwt_verify _ _ _); [reflexivity|].
  destruct (reachable w); [|reflexivity].
  destruct (live_sessions _ _); reflexivity.
Qed.

(** ** Profile update *)

Lemma Forall2_map_self {A} (P : A -> A -> Prop) (f : A -> A) (l : list A) :
  (forall x, P x (f x)) -> Forall2 P l (map f l).
Proof. intros H. induction l; simpl; constructor; auto. Qed.

Lemma allowed_sets_lookup (b : gmap string jsval) (c : string) :
  c ∉ Server.allowedUpdates ->
  (Lit <$> filter (fun kv : string * jsval => kv.1 ∈ Server.allowedUpdates) b) !! c
  = None.
Proof.
  intros Hc. rewrite lookup_fmap.
  replace (filter _ b !! c) with (@None jsval); [reflexivity|].
  symmetry. apply map_lookup_filter_None. right. intros v _. exact Hc.
Qed.

Lemma updateProfile_frame (req : request) (decoded : claims) (w : world) :
  Forall2 (fun r r' : row =>
             forall c, c ∉ Server.allowedUpdates -> c <> "updatedAt" ->
                       r' !! c = r !! c)
          (users w) (users (run (Server.updateProfile req decoded) w).2).
Proof.
  assert (Hrefl : forall l : list row,
    Forall2 (fun r r' : row => forall c, c ∉ Server.allowedUpdates ->
               c <> "updatedAt" -> r' !! c = r !! c) l l).
  { intros l. rewrite <- (map_id l) at 2. apply Forall2_map_self. reflexivity. }
  unfold Server.updateProfile. rewrite run_try_catch.
  destruct (bool_decide _); [apply Hrefl|].
  rewrite run_bind, run_db_execute.
  destruct (execute_update Users
              (Lit <$> filter (fun kv : string * jsval => kv.1 ∈ Server.allowedUpdates)
                              (body req))
              [Eq "id" (userId decoded)] w) as [[code Herr]|[n Hok]].
  - rewrite Herr. apply Hrefl.
  - rewrite Hok. rewrite run_bind, run_query_select.
    match goal with |- context [reachable ?x] => destruct (reachable x) end;
      simpl users; (apply Forall2_map_self; intros r c Hc Hne;
        match goal with |- context [if ?b then _ else _] => destruct b end;
        [|reflexivity];
        apply updated_frame; [now apply allowed_sets_lookup | exact Hne]).
Qed.

Lemma protected_not_allowed (c : string) :
  c ∈ protected_columns -> (c ∉ Server.allowedUpdates) /\ c <> "updatedAt".
Proof.
  unfold protected_columns. rewrite !elem_of_cons, elem_of_nil.
  intros [->|[->|[->|[->|[->|[->|[]]]]]]]; split;
    solve [ apply (bool_decide_unpack _); vm_compute; exact I | discriminate ].
Qed.

(** C10.  Whatever keys the body of PUT /api/user/profile carries and
    whatever the gateway decides, every row of the users table keeps the
    value of every column outside the allow-list (only [updatedAt], which
    the store maintains itself, may move), and no row appears or
    disappears; in particular [email], [password], [socialId],
    [socialProvider], [emailVerified] and [isActive] are unchanged. *)
Theorem profile_update_changes_only_allowed_fields
    (env : environment) (req : request) (w : world) :
  let w' := (run (Server.putProfile env req) w).2 in
  Forall2 (fun r r' : row =>
             forall c, c ∉ Server.allowedUpdates -> c <> "updatedAt" ->
                       r' !! c = r !! c)
          (users w) (users w')
  /\ Forall2 (fun r r' : row =>
                forall c, c ∈ protected_columns -> col r' c = col r c)
             (users w) (users w').
Proof.
  intros w'.
  assert (H : Forall2 (fun r r' : row =>
             forall c, c ∉ Server.allowedUpdates -> c <> "updatedAt" ->
                       r' !! c = r !! c) (users w) (users w')).
  { unfold w', Server.putProfile, route. rewrite run_bind.
    pose proof (authenticateToken_users env req w) as Hu.
    destruct (run (Server.authenticateToken env req) w) as [[e|[r|a]] w1];
      simpl in Hu; rewrite <- Hu.
    - simpl. rewrite <- (map_id (users w1)) at 2. apply Forall2_map_self. reflexivity.
    - simpl. rewrite <- (map_id (users w1)) at 2. apply Forall2_map_self. reflexivity.
    - apply updateProfile_frame. }
  split; [exact H|].
  eapply Forall2_impl; [exact H|].
  intros r r' Hrr c Hc. apply protected_not_allowed in Hc as [Hc1 Hc2].
  unfold col. now rewrite Hrr.
Qed.

(** ** Logout *)

Lemma relax_lookup_Some (t : table) (sets : gmap string expr) (c : string) (e : expr) :
  sets !! c = Some e -> e <> Lit VNull -> relax t sets !! c = Some e.
Proof.
  intros Hc Hne. unfold relax. rewrite lookup_union_r; [exact Hc|].
  rewrite lookup_fmap.
  replace (filter _ (implicit_defaults t) !! c) with (@None jsval); [reflexivity|].
  symmetry. apply map_lookup_filter_None. right. intros v _. simpl. congruence.
Qed.

(** What an UPDATE leaves in a column, as read by [col]. *)
Lemma col_updated (t : table) (w : world) (sets : gmap string expr) (r : row) (c : string) :
  c <> on_update t ->
  col (updated t w sets r) c
  = match relax t sets !! c with
    | Some e => eval (now w) e
    | None => col r c
    end.
Proof.
  intros Hne. unfold updated.
  set (new := eval (now w) <$> relax t sets).
  assert (Hnew : new !! c = eval (now w) <$> relax t sets !! c)
    by (unfold new; now rewrite lookup_fmap).
  destruct (bool_decide (map_Forall _ new)) eqn:Hsame.
  - apply bool_decide_eq_true in Hsame.
    destruct (relax t sets !! c) as [e|] eqn:He; [|reflexivity].
    apply (Hsame c (eval (now w) e)). now rewrite Hnew.
  - assert (Hcol : col (new ∪ r) c
                   = match relax t sets !! c with
                     | Some e => eval (now w) e
                     | None => col r c
                     end).
    { unfold col. rewrite lookup_union, Hnew.
      destruct (relax t sets !! c); simpl; now destruct (r !! c). }
    destruct (bool_decide (sets !! on_update t = None)); [|exact Hcol].
    unfold col in *. rewrite lookup_insert_ne by congruence. exact Hcol.
Qed.

Lemma matches_token (clock : Z) (t : token) (r : row) :
  matches clock [Eq "token" (VTok t)] r = sql_eq (col r "token") (VTok t).
Proof. unfold matches. simpl. apply andb_true_r. Qed.

Lemma user_sessions_revoke (t : token) (w : world) :
  user_sessions (revoke t w)
  = map (fun r => if sql_eq (col r "token") (VTok t)
                  then updated UserSessions w {["isActive" := Lit (VInt 0)]} r
                  else r)
        (user_sessions w).
Proof.
  unfold revoke. destruct w; simpl. apply map_ext. intros r.
  now rewrite andb_true_r.
Qed.

Lemma col_revoked_row (w : world) (r : row) :
  col (updated UserSessions w {["isActive" := Lit (VInt 0)]} r) "isActive" = VInt 0.
Proof.
  rewrite col_updated by discriminate.
  now rewrite (relax_lookup_Some _ _ _ (Lit (VInt 0))) by (reflexivity || discriminate).
Qed.

(** Revoking deactivates every session of the bearer string. *)
Lemma revoke_revoked (t : token) (w : world) : revoked t (revoke t w).
Proof.
  unfold revoked. rewrite user_sessions_revoke.
  apply List.Forall_forall. intros r' Hin. apply in_map_iff in Hin as (r & <- & _).
  destruct (sql_eq (col r "token") (VTok t)) eqn:Ht; [|congruence].
  intros _. now rewrite col_revoked_row.
Qed.

(** Sessions of other bearer strings are not touched. *)
Lemma revoke_others (t : token) (w : world) :
  users (revoke t w) = users w
  /\ Forall2 (fun r r' : row =>
                if sql_eq (col r "token") (VTok t)
                then col r' "isActive" = VInt 0
                     /\ forall c, c <> "isActive" -> c <> "lastUsedAt" ->
                                  r' !! c = r !! c
                else r' = r)
             (user_sessions w) (user_sessions (revoke t w)).
Proof.
  split; [now destruct w|]. rewrite user_sessions_revoke.
  apply Forall2_map_self. intros r.
  destruct (sql_eq (col r "token") (VTok t)); [|reflexivity]. split.
  - apply col_revoked_row.
  - intros c Hc1 Hc2. apply updated_frame; [|exact Hc2].
    now apply lookup_singleton_ne.
Qed.

(** An inactive session is left alone by the UPDATE of a logout. *)
Lemma updated_inactive (w : world) (r : row) :
  col r "isActive" = VInt 0 ->
  updated UserSessions w {["isActive" := Lit (VInt 0)]} r = r.
Proof.
  intros H. unfold updated.
  rewrite bool_decide_eq_true_2; [reflexivity|].
  intros c v Hcv. rewrite lookup_fmap in Hcv.
  destruct (decide (c = "isActive")) as [->|Hne].
  - rewrite (relax_lookup_Some _ _ _ (Lit (VInt 0))) in Hcv
      by (reflexivity || discriminate).
    injection Hcv as <-. exact H.
  - rewrite relax_lookup_None in Hcv by (now apply lookup_singleton_ne).
    discriminate.
Qed.

(** Revoking once more changes nothing, whatever the clock shows then. *)
Lemma revoke_idempotent (t : token) (w w1 : world) :
  user_sessions w1 = user_sessions (revoke t w) -> revoke t w1 = w1.
Proof.
  intros Hs.
  assert (Hmap : user_sessions (revoke t w1) = user_sessions w1).
  { rewrite user_sessions_revoke, Hs.
    rewrite <- (map_id (user_sessions (revoke t w))) at 2.
    apply map_ext_in. intros r' Hin.
    destruct (sql_eq (col r' "token") (VTok t)) eqn:Ht; [|reflexivity].
    apply updated_inactive.
    rewrite user_sessions_revoke in Hin.
    apply in_map_iff in Hin as (r & <- & _).
    destruct (sql_eq (col r "token") (VTok t)) eqn:Hr.
    - apply col_revoked_row.
    - congruence. }
  unfold revoke in *. destruct w1; simpl in *. now rewrite Hmap.
Qed.

Lemma execute_revoke (t : token) (w : world) :
  reachable w = true ->
  execute (UPDATE UserSessions {["isActive" := Lit (VInt 0)]} [Eq "token" (VTok t)]) w
  = (OkPacket 0, revoke t w).
Proof. intros Hr. now rewrite execute_update_sessions. Qed.

Lemma logoutUser_run (req : request) (t : token) (rest : list token) (w : world) :
  authorization req = Some (Text "Bearer" :: t :: rest) ->
  run (AuthController.logoutUser req) w
  = if reachable w then (inr AuthController.logout_successful, revoke t w)
    else (inr (Response 500 (error_json "Internal server error")), w).
Proof.
  intros Hh. unfold AuthController.logoutUser. rewrite Hh.
  rewrite run_try_catch, run_bind. simpl startsWith_Bearer. cbv iota.
  simpl (default _ _). rewrite run_db_execute.
  destruct (reachable w) eqn:Hr.
  - now rewrite execute_revoke.
  - unfold execute. now rewrite Hr.
Qed.

Lemma logoutUser_without_bearer (req : request) (w : world) :
  startsWith_Bearer (authorization req) = false ->
  run (AuthController.logoutUser req) w
  = (inr AuthController.logout_successful, w).
Proof.
  intros Hh. unfold AuthController.logoutUser. now rewrite Hh.
Qed.

Lemma logout_handler_run (req : request) (t : token) (rest : list token) (w : world) :
  authorization req = Some (Text "Bearer" :: t :: rest) ->
  run (Server.logout_handler req) w
  = if reachable w
    then (inr (Response 200 (JObj [("message", JStr "Logged out successfully")])),
          revoke t w)
    else (inr Server.internal_error, w).
Proof.
  intros Hh. unfold Server.logout_handler. rewrite Hh.
  rewrite run_try_catch, run_bind.
  change (VTok <$> header_token (Some (Text "Bearer" :: t :: rest)))
    with (Some (VTok t)).
  simpl (run (param _) _). cbv iota beta.
  rewrite run_bind, run_db_execute.
  destruct (reachable w) eqn:Hr.
  - now rewrite execute_revoke.
  - unfold execute. now rewrite Hr.
Qed.

(** In a store where the bearer string is revoked the stateful gateway
    lets no request through: it answers 401 or 403 and changes nothing;
    when the token still verifies and the store answers, the answer is
    the 403 of the session check. *)
Lemma revoked_not_live (t : token) (w : world) :
  revoked t w -> live_sessions t w = [].
Proof.
  unfold revoked, live_sessions. induction 1 as [|r l Hr Hl IH]; [reflexivity|].
  simpl. rewrite IH.
  destruct (sql_eq (col r "token") (VTok t)) eqn:Ht; [|reflexivity].
  now rewrite (Hr eq_refl).
Qed.

Lemma gateway_rejects_dead (env : environment) (req : request) (w : world) :
  (forall t, bearer (authorization req) = Some t -> live_sessions t w = []) ->
  exists r,
    run (Server.authenticateToken env req) w = (inr (Rejected r), w)
    /\ (status r = 401 \/ status r = 403)
    /\ (forall t c, bearer (authorization req) = Some t ->
          jwt_verify t (Server.JWT_SECRET env) (now w) = inr c ->
          reachable w = true ->
          r = Response 403 (error_json "Invalid or expired token")).
Proof.
  intros Hdead. rewrite authenticateToken_run.
  destruct (bearer (authorization req)) as [t|] eqn:Hb.
  - specialize (Hdead t eq_refl).
    destruct (jwt_verify t _ _) as [e|c] eqn:Hv.
    + eexists. split; [reflexivity|]. split; [now right|].
      intros t' c' Ht'. injection Ht' as <-. congruence.
    + destruct (reachable w) eqn:Hr.
      * rewrite Hdead. eexists. split; [reflexivity|]. split; [now right|].
        reflexivity.
      * eexists. split; [reflexivity|]. split; [now right|]. discriminate.
  - eexists. split; [reflexivity|]. split; [now left|]. discriminate.
Qed.

Lemma sql_eq_tok (a b : token) : sql_eq (VTok a) (VTok b) = bool_decide (a = b).
Proof. reflexivity. Qed.

Lemma harmless_update_row (t : token) (w : world) (sets : gmap string expr) (r : row) :
  harmless t (UPDATE UserSessions sets []) = true ->
  (sql_eq (col r "token") (VTok t) = true ->
   sql_eq (col r "isActive") (VInt 1) = false) ->
  sql_eq (col (updated UserSessions w sets r) "token") (VTok t) = true ->
  sql_eq (col (updated UserSessions w sets r) "isActive") (VInt 1) = false.
Proof.
  unfold harmless. intros Hh Hr. apply andb_prop in Hh as [Htok Hact].
  rewrite !col_updated by (intros E; discriminate E).
  destruct (sets !! "token") as [e1|] eqn:Et.
  - destruct e1 as [v|]; [|discriminate Htok].
    destruct v as [| | | |t']; try discriminate Htok.
    rewrite (relax_lookup_Some _ _ _ _ Et) by (intros E; discriminate E).
    cbn [eval to_sql]. rewrite sql_eq_tok.
    apply negb_true_iff in Htok. rewrite Htok. intros E; discriminate E.
  - rewrite (relax_lookup_None _ _ _ Et). intros Hm.
    destruct (sets !! "isActive") as [e2|] eqn:Ea.
    + destruct e2 as [v|]; [|discriminate Hact].
      destruct v as [| |z| |]; try discriminate Hact.
      destruct z; try discriminate Hact.
      rewrite (relax_lookup_Some _ _ _ _ Ea) by (intros E; discriminate E).
      reflexivity.
    + rewrite (relax_lookup_None _ _ _ Ea). now apply Hr.
Qed.

Lemma harmless_insert_row (t : token) (w : world) (vals : gmap string jsval) (r : row) :
  harmless t (INSERT UserSessions vals) = true ->
  new_row UserSessions w vals = inr r ->
  sql_eq (col r "token") (VTok t) = false.
Proof.
  simpl. intros Hh Hr. unfold new_row in Hr.
  destruct (existsb _ _); [discriminate|].
  destruct (strict w && _); [discriminate|]. injection Hr as <-.
  destruct (vals !! "token") as [[| | | |t']|] eqn:Et; try discriminate.
  unfold col. rewrite <- !(assoc_L (∪)), lookup_union_l'.
  - rewrite lookup_fmap, Et. simpl. rewrite sql_eq_tok.
    now apply negb_true_iff in Hh.
  - rewrite lookup_fmap, Et. eexists. reflexivity.
Qed.

(** A harmless statement keeps a revoked bearer string revoked. *)
Lemma harmless_keeps_revoked (t : token) (q : sql) (w : world) :
  harmless t q = true -> revoked t w -> revoked t (execute q w).2.
Proof.
  intros Hh Hrev. destruct q as [cols tb wh|tb vals|tb sets wh|].
  - unfold execute. now destruct (reachable w).
  - unfold execute. destruct (reachable w); [|exact Hrev].
    unfold insert. destruct (new_row tb w vals) as [code|r] eqn:Hn; [exact Hrev|].
    destruct (key_error tb w r (rows_of tb w)); [exact Hrev|].
    destruct tb; [exact Hrev|].
    unfold revoked. simpl. apply Forall_app. split; [exact Hrev|].
    constructor; [|constructor].
    rewrite (harmless_insert_row t w vals r Hh Hn). discriminate.
  - destruct (execute_update tb sets wh w) as [[code Hs]|[n Hok]].
    + now rewrite Hs.
    + rewrite Hok. destruct tb; [exact Hrev|].
      unfold revoked in *. simpl.
      apply List.Forall_forall. intros r' Hin.
      apply in_map_iff in Hin as (r & <- & Hin).
      rewrite List.Forall_forall in Hrev. specialize (Hrev r Hin).
      destruct (matches (now w) wh r); [|exact Hrev].
      apply harmless_update_row; [|exact Hrev].
      simpl in *. exact Hh.
  - unfold execute. now destruct (reachable w).
Qed.

Lemma later_keeps_revoked (t : token) (w w' : world) :
  later t w w' -> revoked t w -> revoked t w'.
Proof.
  induction 1 as [w|w q w' Hh Hl IH|w w1 w' Hu Hs Hl IH]; intros Hrev.
  - exact Hrev.
  - apply IH. now apply harmless_keeps_revoked.
  - apply IH. unfold revoked in *. now rewrite Hs.
Qed.

Lemma bearer_of_header (req : request) (t t' : token) (rest : list token) :
  authorization req = Some (Text "Bearer" :: t :: rest) ->
  bearer (authorization req) = Some t' -> t' = t.
Proof.
  intros -> H. unfold bearer in H.
  change (header_token (Some (Text "Bearer" :: t :: rest))) with (Some t) in H.
  cbv beta iota in H. revert H.
  destruct (truthy (VTok t)); intros H; [now injection H | discriminate H].
Qed.

Lemma reachable_revoke (t : token) (w : world) : reachable (revoke t w) = reachable w.
Proof. now destruct w. Qed.

(** C1, as the code has it.  Once a logout handler has run against a
    store that answers, the stateful gateway of server.js rejects the
    bearer string it revoked, in every later state of the store that
    harmless statements and the passing of time lead to: the answer is 401
    or 403, nothing changes, and when the token still passes [jwt.verify]
    and the store answers it is the 403 "Invalid or expired token" of the
    session check. *)
Theorem stateful_gateway_rejects_revoked_token
    (env : environment) (req : request) (t : token) (rest : list token)
    (w w1 w' : world) :
  reachable w = true ->
  authorization req = Some (Text "Bearer" :: t :: rest) ->
  w1 = (run (Server.logout_handler req) w).2
  \/ w1 = (run (AuthController.logoutUser req) w).2 ->
  later t w1 w' ->
  exists r,
    run (Server.authenticateToken env req) w' = (inr (Rejected r), w')
    /\ (status r = 401 \/ status r = 403)
    /\ (forall c, jwt_verify t (Server.JWT_SECRET env) (now w') = inr c ->
                  reachable w' = true ->
                  r = Response 403 (error_json "Invalid or expired token")).
Proof.
  intros Hr Hh Hw1 Hlater.
  assert (Hrev : revoked t w1).
  { rewrite (logout_handler_run req t rest), (logoutUser_run req t rest), Hr in Hw1
      by exact Hh.
    destruct Hw1 as [->| ->]; apply revoke_revoked. }
  apply (later_keeps_revoked t w1 w' Hlater) in Hrev.
  destruct (gateway_rejects_dead env req w') as (r & Hrun & Hst & Hwhy).
  { intros t' Hb. rewrite (bearer_of_header req t t' rest Hh Hb).
    now apply revoked_not_live. }
  exists r. split; [exact Hrun|]. split; [exact Hst|].
  intros c Hv Hr'. apply (Hwhy t c); try assumption.
  rewrite Hh. unfold bearer. simpl header_token.
  destruct t as [s|c' k]; [discriminate Hv|reflexivity].
Qed.

(** Ann logs out five seconds after signing up; a minute later, after a
    look-up by another request, her token is presented again. *)
Lemma stateful_gateway_rejects_revoked_token_witness :
  let req := with_bearer ann_token ∅ in
  let w := advance 5000 ann_store in
  let w1 := (run (Server.logout_handler req) w).2 in
  let w' := advance 60000 w1 in
  jwt_verify ann_token (Server.JWT_SECRET sample_env) (now w')
    = inr (Claims (VInt 1) (Some (VStr "ann@example.com")) 1000 605800)
  /\ exists r,
       run (Server.authenticateToken sample_env req) w' = (inr (Rejected r), w')
       /\ (status r = 401 \/ status r = 403).
Proof.
  intros req w w1 w'. split; [reflexivity|].
  destruct (stateful_gateway_rejects_revoked_token sample_env req ann_token [] w w1 w')
    as (r & Hrun & Hst & _).
  - reflexivity.
  - reflexivity.
  - left. reflexivity.
  - apply (later_execute _ _ (SELECT None Users [Eq "email" (VStr "bob@example.com")]));
      [reflexivity|].
    apply (later_env _ _ w'); [reflexivity | reflexivity | apply later_refl].
  - exists r. split; [exact Hrun | exact Hst].
Defined.

(** C1 as stated fails on the middleware gateway: after Ann's logout has
    set her session row to isActive = 0, the stateless gateway still lets
    her token through. *)
Lemma middleware_accepts_revoked_token :
  let req := with_bearer ann_token ∅ in
  let w := advance 5000 ann_store in
  let w1 := (run (AuthRoutes.logout sample_env req) w).2 in
  (run (AuthRoutes.logout sample_env req) w).1 = inr AuthController.logout_successful
  /\ (fun r => (col r "token", col r "isActive")) <$> user_sessions w1
     = [(VTok ann_token, VInt 0)]
  /\ run (AuthMiddleware.authenticateToken sample_env req) w1
     = (inr (Next (VInt 1, ann_token)), w1).
Proof. vm_compute. repeat split; reflexivity. Qed.

(** ** Refresh *)

Lemma rotation_sets (clock : Z) (t : token) :
  eval clock <$> relax UserSessions
                   (list_to_map [("token", Lit (VTok t)); ("lastUsedAt", NOW)])
  = list_to_map [("token", VTok t); ("lastUsedAt", VInt clock)].
Proof.
  apply map_eq. intros c. rewrite lookup_fmap.
  destruct (decide (c = "token")) as [->|Hn1].
  { now rewrite (relax_lookup_Some _ _ _ (Lit (VTok t))) by (reflexivity || discriminate). }
  destruct (decide (c = "lastUsedAt")) as [->|Hn2].
  { now rewrite (relax_lookup_Some _ _ _ NOW) by (reflexivity || discriminate). }
  rewrite relax_lookup_None.
  - simpl. rewrite !lookup_insert_ne by congruence. now rewrite lookup_empty.
  - simpl. rewrite !lookup_insert_ne by congruence. now rewrite lookup_empty.
Qed.

(** What the UPDATE of a refresh makes of a session row. *)
Lemma updated_rotation (w : world) (t : token) (r : row) :
  let r' := updated UserSessions w
              (list_to_map [("token", Lit (VTok t)); ("lastUsedAt", NOW)]) r in
  col r' "token" = VTok t /\ col r' "lastUsedAt" = VInt (now w)
  /\ forall c, c <> "token" -> c <> "lastUsedAt" -> r' !! c = r !! c.
Proof.
  intros r'. unfold r', updated. rewrite rotation_sets.
  set (new := list_to_map [("token", VTok t); ("lastUsedAt", VInt (now w))] : row).
  assert (Ht : new !! "token" = Some (VTok t)) by reflexivity.
  assert (Hl : new !! "lastUsedAt" = Some (VInt (now w))) by reflexivity.
  assert (Ho : forall c, c <> "token" -> c <> "lastUsedAt" -> new !! c = None).
  { intros c H1 H2. unfold new. simpl.
    rewrite !lookup_insert_ne by congruence. apply lookup_empty. }
  destruct (bool_decide (map_Forall _ new)) eqn:Hsame.
  - apply bool_decide_eq_true in Hsame. repeat split.
    + exact (Hsame _ _ Ht).
    + exact (Hsame _ _ Hl).
  - rewrite bool_decide_eq_false_2 by discriminate. repeat split.
    + unfold col. now rewrite lookup_union_l', Ht by (rewrite Ht; eauto).
    + unfold col. now rewrite lookup_union_l', Hl by (rewrite Hl; eauto).
    + intros c H1 H2. now rewrite lookup_union_r by (now apply Ho).
Qed.

Lemma matches_active_session (clock : Z) (uid : jsval) (r : row) :
  matches clock [Eq "userId" uid; Eq "isActive" (VInt 1)] r = active_session_of uid r.
Proof. unfold matches, active_session_of. simpl. now rewrite andb_true_r. Qed.

(** C6, as the code has it.  A refresh whose bearer string verifies and
    whose user is active answers 200 with a freshly signed token; it adds
    no session row: it writes the new token and the time into every
    active session row of that user, which stay active, and leaves all
    other session rows and all users as they were. *)
Theorem refresh_rewrites_active_sessions
    (env : environment) (req : request) (t : token) (rest : list token)
    (decoded : claims) (w : world) :
  reachable w = true ->
  authorization req = Some (Text "Bearer" :: t :: rest) ->
  jwt_verify t (AuthController.JWT_SECRET env) (now w) = inr decoded ->
  active_users_with_id (userId decoded) w <> [] ->
  let newToken := jwt_sign (userId decoded) None (AuthController.JWT_SECRET env)
                    (AuthController.JWT_EXPIRES_IN env) (now w) in
  let w' := (run (AuthController.refreshToken env req) w).2 in
  (run (AuthController.refreshToken env req) w).1
    = inr (AuthController.refreshed newToken)
  /\ users w' = users w
  /\ length (user_sessions w') = length (user_sessions w)
  /\ Forall2 (fun r r' : row =>
                if active_session_of (userId decoded) r
                then col r' "token" = VTok newToken
                     /\ col r' "lastUsedAt" = VInt (now w)
                     /\ forall c, c <> "token" -> c <> "lastUsedAt" ->
                                  r' !! c = r !! c
                else r' = r)
             (user_sessions w) (user_sessions w').
Proof.
  intros Hr Hh Hv Hact newToken w'.
  assert (Hrun : run (AuthController.refreshToken env req) w
    = (inr (AuthController.refreshed newToken),
       set_rows UserSessions
         (map (fun r => if matches (now w) [Eq "userId" (userId decoded);
                                            Eq "isActive" (VInt 1)] r
                        then updated UserSessions w
                               (list_to_map [("token", Lit (VTok newToken));
                                             ("lastUsedAt", NOW)]) r
                        else r)
              (user_sessions w)) w)).
  { unfold AuthController.refreshToken. rewrite Hh.
    rewrite run_try_catch. simpl startsWith_Bearer. cbv iota. simpl negb. cbv iota.
    simpl (default _ _).
    rewrite run_bind, run_verify, Hv, run_bind, run_query_select, Hr.
    simpl rows_of. fold (active_users_with_id (userId decoded) w).
    destruct (active_users_with_id (userId decoded) w) as [|u us]; [congruence|].
    rewrite fmap_cons. cbv iota beta.
    rewrite run_bind.
    change (run (AuthController.generateToken env (userId decoded)) w)
      with (@inr exn token newToken, w).
    cbv iota beta. rewrite run_bind, run_db_execute.
    rewrite execute_update_sessions by (reflexivity || exact Hr).
    reflexivity. }
  unfold w'. rewrite Hrun. split; [reflexivity|]. split; [now destruct w|].
  split; [destruct w; simpl; apply length_map|].
  destruct w; simpl. apply Forall2_map_self. intros r.
  rewrite andb_true_r. fold (active_session_of (userId decoded) r).
  destruct (active_session_of (userId decoded) r); [|reflexivity].
  apply updated_rotation.
Qed.

(** Ann refreshes her token five seconds after signing up. *)
Lemma refresh_rewrites_active_sessions_witness :
  let req := with_bearer ann_token ∅ in
  let w := advance 5000 ann_store in
  let w' := (run (AuthController.refreshToken sample_env req) w).2 in
  (run (AuthController.refreshToken sample_env req) w).1
    = inr (AuthController.refreshed
             (JWT (Claims (VInt 1) None 1005 605805) "k3y-from-env"))
  /\ length (user_sessions w') = length (user_sessions w).
Proof.
  intros req w w'.
  destruct (refresh_rewrites_active_sessions sample_env req ann_token []
              (Claims (VInt 1) (Some (VStr "ann@example.com")) 1000 605800) w)
    as (H1 & _ & H3 & _).
  - reflexivity.
  - reflexivity.
  - reflexivity.
  - intros E. apply (f_equal (@length row)) in E. vm_compute in E. discriminate E.
  - split; [exact H1 | exact H3].
Defined.

(** C6 as stated fails: Ann's refresh is answered 200 with a new token,
    yet the store still holds one session row, now carrying the new
    token, and the stateful gateway turns the old token away. *)
Lemma refresh_adds_no_session_row :
  let req := with_bearer ann_token ∅ in
  let w := advance 5000 ann_store in
  let after := run (AuthController.refreshToken sample_env req) w in
  let newToken := JWT (Claims (VInt 1) None 1005 605805) "k3y-from-env" in
  after.1 = inr (AuthController.refreshed newToken)
  /\ length (user_sessions w) = 1%nat
  /\ (fun r => (col r "token", col r "isActive")) <$> user_sessions after.2
     = [(VTok newToken, VInt 1)]
  /\ run (Server.authenticateToken sample_env req) after.2
     = (inr (Rejected (Response 403 (error_json "Invalid or expired token"))),
        after.2).
Proof. vm_compute. repeat split; reflexivity. Qed.

(** ** Deactivated accounts *)

(** The login handler of server.js treats a deactivated account like an
    unknown email. *)
Lemma login_ignores_deactivated
    (env : environment) (req : request) (e p : string) (w : world) :
  presents req e p -> reachable w = true ->
  Forall (fun u => sql_eq (col u "isActive") (VInt 1) = false)
         (users_with_email e w) ->
  run (Server.login env req) w
  = (inr (Response 400 (error_json "Invalid credentials")), w).
Proof.
  intros Hreq Hr Hall. apply (login_rejects env req e p w Hreq Hr).
  unfold active_users_with_email.
  replace (List.filter _ (users_with_email e w)) with (@nil row); [constructor|].
  induction Hall as [|u l Hu Hl IH]; simpl; [reflexivity|]. now rewrite Hu.
Qed.

(** [loginUser] never looks at [isActive]: the first user row with the
    email and the right password is signed in. *)
Lemma loginUser_accepts_any_status
    (env : environment) (req : request) (e p : string) (w : world)
    (u : row) (rest : list row) :
  presents req e p -> reachable w = true ->
  users_with_email e w = u :: rest ->
  col u "password" = VStr (bcrypt_hash p 12) ->
  exists user t,
    run (AuthController.loginUser env req) w
    = (inr (AuthController.logged_in user t), w).
Proof.
  intros Hreq Hr Hu Hp. rewrite (loginUser_run env req e p w Hreq Hr), Hu, Hp.
  rewrite String.eqb_refl. eauto.
Qed.

(** C7 fails on [loginUser]: Ann's account is deactivated, and her
    password still signs her in with a fresh token, while the login
    handler of server.js answers 400 "Invalid credentials". *)
Lemma loginUser_signs_in_deactivated_account :
  let w := advance 5000 (deactivate_all ann_store) in
  let req := credentials "Ann@Example.com" "pw123456" in
  (fun u => (col u "email", col u "isActive")) <$> users w
    = [(VStr "ann@example.com", VInt 0)]
  /\ (exists user,
        run (AuthController.loginUser sample_env req) w
        = (inr (AuthController.logged_in user
                  (JWT (Claims (VInt 1) None 1005 605805) "k3y-from-env")), w))
  /\ run (Server.login sample_env req) w
     = (inr (Response 400 (error_json "Invalid credentials")), w).
Proof.
  intros w req. split; [vm_compute; reflexivity|]. split.
  - exists (delete "password"
              (project (Some ["id"; "firstName"; "lastName"; "email";
                              "password"; "role"])
                       (default ∅ (head (users w))))).
    vm_compute. reflexivity.
  - vm_compute. reflexivity.
Qed.

(** ** Social identities *)

Lemma project_all (l : list row) : project None <$> l = l.
Proof. induction l as [|r l IH]; [reflexivity|]. rewrite fmap_cons, IH. reflexivity. Qed.

Lemma col_new_row (t : table) (w : world) (vals : gmap string jsval) (r : row)
    (c : string) (v : jsval) :
  new_row t w vals = inr r -> vals !! c = Some v -> col r c = to_sql v.
Proof.
  unfold new_row. intros Hr Hc.
  destruct (existsb _ _); [discriminate|].
  destruct (strict w && _); [discriminate|]. injection Hr as <-.
  unfold col. rewrite <- !(assoc_L (∪)), lookup_union_l'.
  - now rewrite lookup_fmap, Hc.
  - rewrite lookup_fmap, Hc. eexists. reflexivity.
Qed.

Lemma col_new_row_id (t : table) (w : world) (vals : gmap string jsval) (r : row) :
  new_row t w vals = inr r -> vals !! "id" = None -> col r "id" = VInt (auto_of t w).
Proof.
  unfold new_row. intros Hr Hc.
  destruct (existsb _ _); [discriminate|].
  destruct (strict w && _); [discriminate|]. injection Hr as <-.
  unfold col. rewrite <- !(assoc_L (∪)), lookup_union_r.
  - rewrite lookup_union_l'; now rewrite lookup_insert_eq.
  - now rewrite lookup_fmap, Hc.
Qed.

Lemma sql_eq_int_inv (a b : jsval) (n m : Z) :
  a = VInt n -> b = VInt m -> sql_eq a b = true -> a = b.
Proof. intros -> -> H. unfold sql_eq in H. simpl in H. apply Z.eqb_eq in H. now subst. Qed.

Lemma filter_nonempty {A} (f : A -> bool) (l : list A) (x : A) :
  In x l -> f x = true -> exists y l', List.filter f l = y :: l'.
Proof.
  intros Hin Hf.
  destruct (List.filter f l) as [|y l'] eqn:E; [|eauto].
  assert (In x (List.filter f l)) by (apply filter_In; auto).
  rewrite E in *. contradiction.
Qed.

Lemma matches_social (clock : Z) (p : OAuth.profile) (provider : string) (r : row) :
  matches clock [Eq "socialId" (VStr (OAuth.id p)); Eq "socialProvider" (VStr provider)] r
  = sql_eq (col r "socialId") (VStr (OAuth.id p))
    && sql_eq (col r "socialProvider") (VStr provider).
Proof. unfold matches. simpl. now rewrite andb_true_r. Qed.

(** When a user already carries the social identity, it is returned and
    nothing is written. *)
Lemma findOrCreateUser_found
    (p : OAuth.profile) (provider : string) (w : world) (u : row) (l : list row) :
  reachable w = true -> social_users p provider w = u :: l ->
  run (OAuth.findOrCreateUser p provider) w = (inr (Some u), w).
Proof.
  intros Hr Hs. unfold OAuth.findOrCreateUser.
  rewrite run_bind, run_query_select, Hr. simpl rows_of.
  fold (social_users p provider w). now rewrite project_all, Hs.
Qed.

(** What a call achieves: it adds at most one user; and when it adds one
    or returns one, some user carries the social identity afterwards, and
    the first such user has the id of the returned one. *)
Lemma createUser_settles
    (p : OAuth.profile) (provider : string) (email : jsval)
    (w w1 : world) (res : exn + option row) :
  social_users p provider w = [] ->
  run (OAuth.createUser p provider email) w = (res, w1) ->
  (length (users w1) <= S (length (users w)))%nat
  /\ reachable w1 = reachable w
  /\ (length (users w1) <> length (users w) \/ (exists u, res = inr (Some u)) ->
      reachable w = true
      /\ exists u' l, social_users p provider w1 = u' :: l
                      /\ (integer_ids w -> forall u, res = inr (Some u) ->
                                                     col u' "id" = col u "id")).
Proof.
  intros Hnone. unfold OAuth.createUser.
  rewrite run_bind, run_command.
  match goal with |- context [execute (INSERT Users ?v) w] => set (vals := v) end.
  destruct (execute_insert Users vals w) as [[code He]|(r & Hnew & _ & Hr & He)];
    rewrite He; cbv iota beta.
  - intros H. injection H as <- <-. split; [lia|]. split; [reflexivity|].
    intros [Hlen|[u Hu]]; [congruence|discriminate Hu].
  - rewrite run_bind, run_query_select.
    set (w' := bump_auto Users (set_rows Users (rows_of Users w ++ [r]) w)).
    assert (Hr' : reachable w' = true) by (unfold w'; now destruct w).
    assert (Hu' : users w' = users w ++ [r]) by (unfold w'; now destruct w).
    assert (Hn' : now w' = now w) by (unfold w'; now destruct w).
    rewrite Hr', project_all. simpl run. intros H. injection H as <- <-.
    rewrite Hu', length_app. simpl. split; [lia|]. split; [congruence|].
    intros _. split; [exact Hr|].
    assert (Hsoc : social_users p provider w' = [r]).
    { unfold social_users in *. rewrite Hu', Hn', List.filter_app, Hnone. cbn [app List.filter].
      rewrite matches_social.
      rewrite (col_new_row Users w vals r "socialId" (VStr (OAuth.id p)) Hnew eq_refl).
      rewrite (col_new_row Users w vals r "socialProvider" (VStr provider) Hnew eq_refl).
      simpl to_sql. now rewrite !sql_eq_str_refl. }
    exists r, []. split; [exact Hsoc|].
    intros Hint u Hu.
    assert (Hid : col r "id" = VInt (auto_users w))
      by (apply (col_new_row_id Users w vals r Hnew); reflexivity).
    injection Hu as Hu.
    assert (Hin : In u (List.filter (matches (now w) [Eq "id" (VInt (auto_users w))])
                                    (users w ++ [r]))).
    { destruct (List.filter (matches (now w) [Eq "id" (VInt (auto_users w))])
                            (users w ++ [r])) as [|u0 rest]; [discriminate Hu|].
      injection Hu as ->. now left. }
    apply filter_In in Hin as [Hin Hm].
    apply in_app_iff in Hin as [Hin|[<-|[]]]; [|reflexivity].
    unfold matches in Hm. cbn [forallb holds] in Hm. rewrite andb_true_r in Hm.
    unfold integer_ids in Hint. rewrite List.Forall_forall in Hint.
    destruct (Hint u Hin) as [n Hn]. rewrite Hid. symmetry.
    now apply (sql_eq_int_inv _ _ n (auto_users w)).
Qed.

Lemma matches_id (clock : Z) (v : jsval) (r : row) :
  matches clock [Eq "id" v] r = sql_eq (col r "id") v.
Proof. unfold matches. simpl. apply andb_true_r. Qed.

(** Linking: after [UPDATE users SET socialId = ?, socialProvider = ?,
    avatar = ? WHERE id = ?] the users that carry the social identity are
    the ones with that id. *)
Lemma link_settles
    (p : OAuth.profile) (provider : string) (photo : jsval) (u : row) (w : world) :
  let sets : gmap string expr :=
    list_to_map [("socialId", Lit (VStr (OAuth.id p)));
                 ("socialProvider", Lit (VStr provider));
                 ("avatar", Lit photo)] in
  let w1 := set_rows Users
              (map (fun r => if matches (now w) [Eq "id" (col u "id")] r
                             then updated Users w sets r else r)
                   (users w)) w in
  social_users p provider w = [] -> In u (users w) -> integer_ids w ->
  exists u' l, social_users p provider w1 = u' :: l /\ col u' "id" = col u "id".
Proof.
  intros sets w1 Hnone Hin Hint.
  assert (Hn1 : now w1 = now w) by (unfold w1; now destruct w).
  assert (Hu1 : users w1
                = map (fun r => if sql_eq (col r "id") (col u "id")
                                then updated Users w sets r else r) (users w)).
  { unfold w1. destruct w; simpl. apply map_ext. intros r. now rewrite andb_true_r. }
  unfold integer_ids in Hint. rewrite List.Forall_forall in Hint.
  destruct (Hint u Hin) as [n Hn].
  assert (Hsoc : forall r, matches (now w) [Eq "socialId" (VStr (OAuth.id p));
                                            Eq "socialProvider" (VStr provider)]
                             (updated Users w sets r) = true).
  { intros r. rewrite matches_social, !col_updated by discriminate.
    rewrite (relax_lookup_Some _ _ _ (Lit (VStr (OAuth.id p)))) by (reflexivity || discriminate).
    rewrite (relax_lookup_Some _ _ _ (Lit (VStr provider))) by (reflexivity || discriminate).
    simpl eval. now rewrite !sql_eq_str_refl. }
  assert (Hall : forall r', In r' (social_users p provider w1) -> col r' "id" = col u "id").
  { intros r' Hr'. unfold social_users in Hr'. rewrite Hn1, Hu1 in Hr'.
    apply filter_In in Hr' as [Hr' Hm]. apply in_map_iff in Hr' as (r & <- & Hr).
    destruct (sql_eq (col r "id") (col u "id")) eqn:Hid.
    - rewrite col_updated by discriminate.
      rewrite relax_lookup_None by reflexivity.
      destruct (Hint r Hr) as [m Hm']. now apply (sql_eq_int_inv _ _ m n).
    - exfalso. assert (Hx : In r (social_users p provider w))
        by (unfold social_users; apply filter_In; auto).
      rewrite Hnone in Hx. contradiction. }
  destruct (filter_nonempty
              (matches (now w1) [Eq "socialId" (VStr (OAuth.id p));
                                 Eq "socialProvider" (VStr provider)])
              (users w1) (updated Users w sets u)) as (u' & l & Hf).
  - rewrite Hu1. apply in_map_iff. exists u. split; [|exact Hin].
    now rewrite Hn, sql_eq_int_refl.
  - rewrite Hn1. apply Hsoc.
  - exists u', l. split; [exact Hf|]. apply Hall.
    unfold social_users. rewrite Hf. now left.
Qed.

Lemma settled_failure (p : OAuth.profile) (provider : string) (w : world) (e : exn) :
  settled p provider w (inl e) w.
Proof.
  split; [lia|]. split; [reflexivity|]. split.
  - intros H. now contradiction H.
  - intros _ u Hu. discriminate Hu.
Qed.

Lemma findOrCreateUser_settles
    (p : OAuth.profile) (provider : string) (w w1 : world) (res : exn + option row) :
  run (OAuth.findOrCreateUser p provider) w = (res, w1) ->
  settled p provider w res w1.
Proof.
  unfold OAuth.findOrCreateUser.
  rewrite run_bind, run_query_select. simpl rows_of.
  fold (social_users p provider w). rewrite project_all.
  destruct (reachable w) eqn:Hr.
  2:{ intros H. injection H as <- <-. apply settled_failure. }
  destruct (social_users p provider w) as [|u0 l0] eqn:Hs.
  2:{ cbn [run]. intros H. injection H as <- <-.
      split; [lia|]. split; [reflexivity|]. split.
      - intros H. now contradiction H.
      - intros _ u Hu. injection Hu as <-. split; [exact Hr|]. rewrite Hs. eauto. }
  cbv iota beta. rewrite run_bind.
  assert (Hcreate : forall email,
    run (OAuth.createUser p provider email) w = (res, w1) ->
    settled p provider w res w1).
  { intros email H.
    destruct (createUser_settles p provider email w w1 res Hs H) as (H1 & H2 & H3).
    split; [exact H1|]. split; [congruence|]. split.
    - intros Hlen. destruct (H3 (or_introl Hlen)) as (_ & u' & l & Hu' & _). eauto.
    - intros Hint u Hu. destruct (H3 (or_intror (ex_intro _ u Hu))) as (_ & u' & l & Hu' & Hid).
      split; [exact Hr|]. exists u', l. split; [exact Hu'|]. now apply Hid. }
  destruct (truthy (from_option VStr VNull (head (OAuth.emails p)))); [|apply Hcreate].
  rewrite run_bind, run_query_select, Hr, project_all. simpl rows_of.
  destruct (List.filter (matches (now w)
              [Eq "email" (from_option VStr VNull (head (OAuth.emails p)))])
              (users w)) as [|u us] eqn:He; [apply Hcreate|].
  cbv iota beta. rewrite run_bind.
  destruct (head (OAuth.photos p)) as [ph|].
  2:{ cbn [fmap option_fmap option_map param run]. intros H. injection H as <- <-.
      apply settled_failure. }
  change (VStr <$> Some ph) with (Some (VStr ph)).
  cbn [param run]. rewrite run_bind, run_db_execute.
  match goal with |- context [execute (UPDATE Users ?s ?c) w] =>
    destruct (execute_update Users s c w) as [[code Hx]|[n Hx]]; rewrite Hx end.
  - intros H. injection H as <- <-. apply settled_failure.
  - cbn [run]. intros H. injection H as <- <-.
    split; [destruct w; cbn [users set_rows rows_of]; rewrite length_map; lia|].
    split; [now destruct w|]. split.
    + intros Hlen. exfalso. apply Hlen. destruct w; cbn [users set_rows rows_of].
      apply length_map.
    + intros Hint u' Hu'. injection Hu' as <-. split; [exact Hr|].
      apply (link_settles p provider (VStr ph) u w Hs); [|exact Hint].
      assert (Hin : In u (List.filter (matches (now w)
                      [Eq "email" (from_option VStr VNull (head (OAuth.emails p)))])
                      (users w))) by (rewrite He; now left).
      now apply filter_In in Hin.
Qed.

(** C5.  When [findOrCreateUser] returns a user for a profile, it has
    added at most one user, and calling it again with the same profile
    returns a user with the same id and leaves the store exactly as it
    was: nothing is inserted the second time. *)
Theorem findOrCreateUser_twice_same_user
    (p : OAuth.profile) (provider : string) (w : world) (u : row) :
  integer_ids w ->
  (run (OAuth.findOrCreateUser p provider) w).1 = inr (Some u) ->
  let w1 := (run (OAuth.findOrCreateUser p provider) w).2 in
  (length (users w1) <= S (length (users w)))%nat
  /\ exists u',
       run (OAuth.findOrCreateUser p provider) w1 = (inr (Some u'), w1)
       /\ col u' "id" = col u "id".
Proof.
  intros Hint Hres w1.
  destruct (run (OAuth.findOrCreateUser p provider) w) as [res w'] eqn:Hrun.
  simpl in Hres, w1. subst res w1.
  destruct (findOrCreateUser_settles p provider w w' _ Hrun) as (Hlen & Hr' & _ & Hsame).
  destruct (Hsame Hint u eq_refl) as (Hr & u' & l & Hs & Hid).
  split; [exact Hlen|]. exists u'. split; [|exact Hid].
  apply (findOrCreateUser_found p provider w' u' l); [congruence | exact Hs].
Qed.

(** Bob signs in with Google for the first time while Ann is the only
    user, and then once more. *)
Lemma findOrCreateUser_twice_same_user_witness :
  let first := run (OAuth.findOrCreateUser bob_profile "google") ann_store in
  exists u u',
    first.1 = inr (Some u)
    /\ run (OAuth.findOrCreateUser bob_profile "google") first.2
       = (inr (Some u'), first.2)
    /\ col u' "id" = col u "id" /\ col u "id" = VInt 2
    /\ length (users first.2) = 2%nat.
Proof.
  intros first.
  exists (default ∅ (head (social_users bob_profile "google" first.2))).
  assert (H1 : first.1
               = inr (Some (default ∅ (head (social_users bob_profile "google" first.2)))))
    by (vm_compute; reflexivity).
  destruct (findOrCreateUser_twice_same_user bob_profile "google" ann_store
              (default ∅ (head (social_users bob_profile "google" first.2))))
    as (_ & u' & Hrun & Hid).
  - repeat constructor. exists 1. vm_compute. reflexivity.
  - exact H1.
  - exists u'. split; [exact H1|]. split; [exact Hrun|]. split; [exact Hid|].
    split; vm_compute; reflexivity.
Defined.

(** X21.  Two calls of [findOrCreateUser] in a row with the same profile
    add at most one user, whatever the first call returns or throws. *)
Lemma findOrCreateUser_twice_adds_at_most_one
    (p : OAuth.profile) (provider : string) (w : world) :
  let w1 := (run (OAuth.findOrCreateUser p provider) w).2 in
  let w2 := (run (OAuth.findOrCreateUser p provider) w1).2 in
  (length (users w2) <= S (length (users w)))%nat.
Proof.
  intros w1 w2.
  destruct (run (OAuth.findOrCreateUser p provider) w) as [res w'] eqn:Hrun.
  simpl in w1. subst w1.
  destruct (findOrCreateUser_settles p provider w w' _ Hrun) as (Hlen & Hr' & Hadd & _).
  destruct (run (OAuth.findOrCreateUser p provider) w') as [res2 w''] eqn:Hrun2.
  simpl in w2. subst w2.
  destruct (Nat.eq_dec (length (users w')) (length (users w))) as [Heq|Hne].
  - destruct (findOrCreateUser_settles p provider w' w'' _ Hrun2) as (Hlen2 & _).
    lia.
  - destruct (Hadd Hne) as (u' & l & Hs).
    destruct (reachable w') eqn:Hreach.
    + rewrite (findOrCreateUser_found p provider w' u' l Hreach Hs) in Hrun2.
      injection Hrun2 as _ <-. exact Hlen.
    + unfold OAuth.findOrCreateUser in Hrun2.
      rewrite run_bind, run_query_select, Hreach in Hrun2.
      injection Hrun2 as _ <-. exact Hlen.
Qed.

(** ** Registration *)

Lemma sql_eq_null_r (a : jsval) : sql_eq a VNull = false.
Proof. unfold sql_eq. now destruct (to_sql a). Qed.

Lemma filter_length_existsb {A} (f : A -> bool) (l : list A) :
  (0 <? length (List.filter f l))%nat = existsb f l.
Proof.
  induction l as [|x l IH]; [reflexivity|]. cbn [List.filter existsb].
  destruct (f x); [reflexivity|]. exact IH.
Qed.

Lemma has_email_by_query (clock : Z) (e : string) (w : world) :
  (0 <? length (project (Some ["id"]) <$>
                List.filter (matches clock [Eq "email" (VStr e)]) (users w)))%nat
  = has_email e w.
Proof.
  rewrite length_fmap, filter_length_existsb. unfold has_email.
  induction (users w) as [|o l IH]; [reflexivity|]. cbn [existsb].
  rewrite IH. f_equal. unfold matches. cbn [forallb holds]. apply andb_true_r.
Qed.

Lemma signup_row (firstName lastName email password : string) (w : world) :
  exists r,
    new_row Users w (signup_values firstName lastName email password) = inr r
    /\ col r "email" = VStr (Js.toLowerCase email)
    /\ col r "socialId" = VNull.
Proof.
  eexists. split; [|split].
  - unfold new_row.
    replace (existsb _ (not_null Users)) with false by reflexivity.
    replace (existsb (not_given _) (not_null Users)) with false by reflexivity.
    rewrite andb_false_r. reflexivity.
  - reflexivity.
  - reflexivity.
Qed.

(** The INSERT of a sign-up fails with ER_DUP_ENTRY exactly when the email
    is taken, and otherwise appends the user. *)
Lemma execute_signup (firstName lastName email password : string) (w : world) :
  reachable w = true ->
  let e := Js.toLowerCase email in
  let q := INSERT Users (signup_values firstName lastName email password) in
  if has_email e w
  then execute q w = (SqlError "ER_DUP_ENTRY", w)
  else (execute q w).1 = OkPacket (auto_users w)
       /\ reachable (execute q w).2 = true
       /\ has_email e (execute q w).2 = true.
Proof.
  intros Hr e q.
  destruct (signup_row firstName lastName email password w) as (r & Hnew & Hmail & Hsoc).
  assert (Hdup : dup_email r (users w) = has_email e w).
  { unfold dup_email, has_email. now rewrite Hmail. }
  assert (Hsocial : dup_social r (users w) = false).
  { unfold dup_social. rewrite Hsoc. clear.
    induction (users w) as [|o l IH]; [reflexivity|]. cbn [existsb].
    rewrite IH, sql_eq_null_r. reflexivity. }
  unfold q, execute, insert. rewrite Hr, Hnew. unfold key_error.
  cbn [rows_of]. rewrite Hdup, Hsocial, orb_false_r.
  destruct (has_email e w) eqn:He; [reflexivity|].
  cbn [fst snd]. split; [reflexivity|]. split; [now destruct w|].
  unfold has_email. destruct w; cbn [users bump_auto set_rows rows_of].
  rewrite existsb_app. cbn [existsb]. rewrite Hmail.
  fold e. rewrite sql_eq_str_refl. cbn [orb]. apply orb_true_r.
Qed.

Lemma run_step {A} (p : prog A) (w : world) :
  run p w = run (step p w).1 (step p w).2.
Proof.
  destruct p as [a|e|q k|k]; cbn [run step]; try reflexivity.
  now destruct (execute q w).
Qed.

(** Each suspension point of [registerUser] takes a valid sign-up from
    one stage to the next. *)
Lemma step_thread (env : environment) (req : request)
    (firstName lastName email password : string) (s : stage) (w : world) :
  valid_signup req firstName lastName email password ->
  reachable w = true ->
  step (thread env req firstName lastName email password s) w
  = let '(s', w') := next env email (signup_values firstName lastName email password) s w in
    (thread env req firstName lastName email password s', w').
Proof.
  intros (Hf & Hl & He & Hp & Hnf & Hnl & Hre & Hlen) Hr.
  destruct s as [| |uid|uid t|r].
  - destruct (nonempty_string firstName Hnf) as (c1 & r1 & E1).
    destruct (nonempty_string lastName Hnl) as (c2 & r2 & E2).
    assert (Hne : exists c3 r3, email = String c3 r3)
      by (destruct email; [discriminate Hre | eauto]).
    destruct Hne as (c3 & r3 & E3).
    assert (Hnp : exists c4 r4, password = String c4 r4)
      by (destruct password; [cbn in Hlen; lia | eauto]).
    destruct Hnp as (c4 & r4 & E4).
    cbn [thread next]. unfold AuthController.registerUser.
    rewrite Hf, Hl, He, Hp, E1, E2, E3, E4. rewrite <- E1, <- E2, <- E3, <- E4.
    rewrite Hre. cbn [negb].
    replace (String.length password <? 8)%nat with false
      by (symmetry; apply Nat.ltb_ge; exact Hlen).
    cbn [try_catch mbind prog_bind bind query db_execute step].
    unfold execute. rewrite Hr. cbn [rows_of bind try_catch].
    rewrite has_email_by_query.
    destruct (has_email (Js.toLowerCase email) w); reflexivity.
  - cbn [thread next]. unfold AuthController.createUser, command.
    cbn [try_catch mbind prog_bind bind db_execute step].
    fold (signup_values firstName lastName email password).
    pose proof (execute_signup firstName lastName email password w Hr) as Hx.
    cbv zeta in Hx.
    destruct (has_email (Js.toLowerCase email) w).
    + rewrite Hx. reflexivity.
    + destruct Hx as (Hok & _ & _).
      destruct (execute _ w) as [res w']. cbn [fst snd] in *. subst res.
      reflexivity.
  - reflexivity.
  - cbn [thread next try_catch mbind prog_bind bind query db_execute step].
    unfold execute. rewrite Hr. reflexivity.
  - reflexivity.
Qed.

Lemma next_reachable (env : environment) (fn ln email pw : string) (s : stage) (w : world) :
  reachable w = true ->
  reachable (next env email (signup_values fn ln email pw) s w).2 = true.
Proof.
  intros Hr. pose proof (execute_signup fn ln email pw w Hr) as Hx. cbv zeta in Hx.
  destruct s; cbn [next]; try exact Hr.
  - now destruct (has_email _ w).
  - destruct (has_email _ w); [exact Hr|]. cbn [snd]. apply Hx.
Qed.

Lemma race_step_left (env : environment) (e : string) (w0 : world)
    (fn ln email pw : string) (s1 s2 : stage) (w : world) :
  Js.toLowerCase email = e ->
  race_invariant e w0 s1 s2 w ->
  let '(s1', w') := next env email (signup_values fn ln email pw) s1 w in
  race_invariant e w0 s1' s2 w'.
Proof.
  intros <- Hinv.
  assert (Hr : reachable w = true) by apply Hinv.
  pose proof (execute_signup fn ln email pw w Hr) as Hx. cbv zeta in Hx.
  unfold race_invariant in *.
  destruct s1 as [| |uid|uid t|r]; cbn [next];
    try destruct (has_email (Js.toLowerCase email) w) eqn:E;
    cbn [created answer_ok snd status AuthController.user_exists AuthController.registered] in *;
    try change (409 =? 201) with false in *;
    try change (201 =? 201) with true in *;
    try rewrite E;
    intuition (try discriminate; try congruence).
  all: destruct (created s2); intuition (try discriminate; try congruence).
Qed.

Lemma race_invariant_sym (e : string) (w0 : world) (s1 s2 : stage) (w : world) :
  race_invariant e w0 s1 s2 w -> race_invariant e w0 s2 s1 w.
Proof. unfold race_invariant. intuition. Qed.

Lemma race_step_right (env : environment) (e : string) (w0 : world)
    (fn ln email pw : string) (s1 s2 : stage) (w : world) :
  Js.toLowerCase email = e ->
  race_invariant e w0 s1 s2 w ->
  let '(s2', w') := next env email (signup_values fn ln email pw) s2 w in
  race_invariant e w0 s1 s2' w'.
Proof.
  intros He Hinv. apply race_invariant_sym in Hinv.
  pose proof (race_step_left env e w0 fn ln email pw s2 s1 w He Hinv) as H.
  destruct (next _ _ _ s2 w) as [s2' w']. now apply race_invariant_sym.
Qed.

(** However the steps of two valid sign-ups with the same email are
    interleaved, each stays a stage of [registerUser] and the invariant
    holds. *)
Lemma interleave_threads (env : environment) (e : string) (w0 : world)
    (req1 req2 : request) (f1 l1 e1 p1 f2 l2 e2 p2 : string)
    (sched : list bool) (s1 s2 : stage) (w : world) :
  valid_signup req1 f1 l1 e1 p1 -> valid_signup req2 f2 l2 e2 p2 ->
  Js.toLowerCase e1 = e -> Js.toLowerCase e2 = e ->
  race_invariant e w0 s1 s2 w ->
  exists s1' s2' w',
    interleave sched (thread env req1 f1 l1 e1 p1 s1) (thread env req2 f2 l2 e2 p2 s2) w
    = (thread env req1 f1 l1 e1 p1 s1', thread env req2 f2 l2 e2 p2 s2', w')
    /\ race_invariant e w0 s1' s2' w'.
Proof.
  intros Hv1 Hv2 He1 He2. revert s1 s2 w.
  induction sched as [|b sched IH]; intros s1 s2 w Hinv.
  - exists s1, s2, w. split; [reflexivity | exact Hinv].
  - assert (Hr : reachable w = true) by apply Hinv.
    destruct b; cbn [interleave].
    + rewrite (step_thread env req1 f1 l1 e1 p1 s1 w Hv1 Hr).
      pose proof (race_step_left env e w0 f1 l1 e1 p1 s1 s2 w He1 Hinv) as Hn.
      destruct (next _ _ _ s1 w) as [s1' w']. now apply IH.
    + rewrite (step_thread env req2 f2 l2 e2 p2 s2 w Hv2 Hr).
      pose proof (race_step_right env e w0 f2 l2 e2 p2 s1 s2 w He2 Hinv) as Hn.
      destruct (next _ _ _ s2 w) as [s2' w']. now apply IH.
Qed.

(** Left alone, a sign-up runs to its answer in four steps. *)
Lemma run_thread (env : environment) (req : request) (fn ln email pw : string)
    (s : stage) (w : world) :
  valid_signup req fn ln email pw -> reachable w = true ->
  let vals := signup_values fn ln email pw in
  let a := next env email vals s w in
  let b := next env email vals a.1 a.2 in
  let c := next env email vals b.1 b.2 in
  let d := next env email vals c.1 c.2 in
  exists r, d.1 = Answered r
            /\ run (thread env req fn ln email pw s) w = (inr r, d.2).
Proof.
  intros Hv Hr vals a b c d.
  assert (Ha : reachable a.2 = true) by (apply next_reachable; exact Hr).
  assert (Hb : reachable b.2 = true) by (apply next_reachable; exact Ha).
  assert (Hc : reachable c.2 = true) by (apply next_reachable; exact Hb).
  assert (Hrun : run (thread env req fn ln email pw s) w
                 = run (thread env req fn ln email pw d.1) d.2).
  { rewrite run_step, (step_thread env req fn ln email pw s w Hv Hr).
    fold vals. fold a. destruct a as [sa wa] eqn:Ea. cbn [fst snd] in *.
    rewrite run_step, (step_thread env req fn ln email pw sa wa Hv Ha).
    fold vals. fold b. destruct b as [sb wb] eqn:Eb. cbn [fst snd] in *.
    rewrite run_step, (step_thread env req fn ln email pw sb wb Hv Hb).
    fold vals. fold c. destruct c as [sc wc] eqn:Ec. cbn [fst snd] in *.
    rewrite run_step, (step_thread env req fn ln email pw sc wc Hv Hc).
    fold vals. fold d. destruct d as [sd wd] eqn:Ed. reflexivity. }
  assert (Hd : exists r, d.1 = Answered r).
  { unfold d, c, b, a.
    destruct s; cbn [next fst snd];
      repeat (match goal with |- context [if ?x then _ else _] => destruct x end;
              cbn [next fst snd]); eauto. }
  destruct Hd as [r Hd]. exists r. split; [exact Hd|].
  rewrite Hrun, Hd. reflexivity.
Qed.

Lemma race_run_left (env : environment) (e : string) (w0 : world)
    (fn ln email pw : string) (s1 s2 : stage) (w : world) :
  Js.toLowerCase email = e ->
  race_invariant e w0 s1 s2 w ->
  let vals := signup_values fn ln email pw in
  let a := next env email vals s1 w in
  let b := next env email vals a.1 a.2 in
  let c := next env email vals b.1 b.2 in
  let d := next env email vals c.1 c.2 in
  race_invariant e w0 d.1 s2 d.2.
Proof.
  intros He Hinv vals a b c d.
  pose proof (race_step_left env e w0 fn ln email pw s1 s2 w He Hinv) as Ha.
  fold vals in Ha. fold a in Ha. destruct a as [sa wa]. cbn [fst snd] in *.
  pose proof (race_step_left env e w0 fn ln email pw sa s2 wa He Ha) as Hb.
  fold vals in Hb. fold b in Hb. destruct b as [sb wb]. cbn [fst snd] in *.
  pose proof (race_step_left env e w0 fn ln email pw sb s2 wb He Hb) as Hc.
  fold vals in Hc. fold c in Hc. destruct c as [sc wc]. cbn [fst snd] in *.
  pose proof (race_step_left env e w0 fn ln email pw sc s2 wc He Hc) as Hd.
  fold vals in Hd. fold d in Hd. destruct d as [sd wd]. exact Hd.
Qed.

(** A valid sign-up whose email is taken is answered 409 and changes
    nothing. *)
Lemma registerUser_taken (env : environment) (req : request)
    (fn ln e p : string) (w : world) :
  valid_signup req fn ln e p -> reachable w = true ->
  has_email (Js.toLowerCase e) w = true ->
  run (AuthController.registerUser env req) w
  = (inr AuthController.user_exists, w).
Proof.
  intros Hv Hr Hm.
  destruct (run_thread env req fn ln e p Checking w Hv Hr) as (resp & Hd & Hrun).
  cbv zeta in Hd, Hrun. cbn [thread] in Hrun.
  cbn [next fst snd] in Hd, Hrun. rewrite Hm in Hd, Hrun.
  cbn [next fst snd] in Hd, Hrun. injection Hd as <-. exact Hrun.
Qed.

(** After a valid sign-up against a store that answers, the email is
    taken, whatever the answer was. *)
Lemma registerUser_takes_email (env : environment) (req : request)
    (fn ln e p : string) (w : world) :
  valid_signup req fn ln e p -> reachable w = true ->
  exists r w1,
    run (AuthController.registerUser env req) w = (inr r, w1)
    /\ reachable w1 = true
    /\ has_email (Js.toLowerCase e) w1 = true.
Proof.
  intros Hv Hr. destruct (has_email (Js.toLowerCase e) w) eqn:Hm.
  - exists AuthController.user_exists, w.
    split; [now apply (registerUser_taken env req fn ln e p)|]. now split.
  - destruct (run_thread env req fn ln e p Checking w Hv Hr) as (resp & _ & Hrun).
    cbv zeta in Hrun. cbn [thread] in Hrun.
    pose proof (execute_signup fn ln e p w Hr) as Hx. cbv zeta in Hx.
    rewrite Hm in Hx. destruct Hx as (_ & Hr1 & Hm1).
    cbn [next fst snd] in Hrun. rewrite Hm in Hrun.
    cbn [next fst snd] in Hrun. rewrite Hm in Hrun.
    cbn [next fst snd] in Hrun.
    eexists _, _. split; [exact Hrun|]. split; [exact Hr1 | exact Hm1].
Qed.

(** C2.  Two registrations with the same email up to letter case, served
    by [registerUser] while the store answers; both are sign-ups the
    handler accepts, in printable ASCII, that fit their columns, and the
    stored emails are printable ASCII.  Served one after the other, the
    second is answered 409 "User already exists" by the existence check
    and changes nothing.  Served in any interleaving of their suspension
    points, one of them is answered 201 and the other 409, or, when the
    email was taken from the start, both are answered 409; there the 409
    comes from the existence check when the other INSERT ran before it,
    and from the ER_DUP_ENTRY handler when it ran in between. *)
Theorem concurrent_signups_conflict
    (env : environment) (req1 req2 : request)
    (f1 l1 e1 p1 f2 l2 e2 p2 : string) (sched : list bool) (w : world) :
  reachable w = true ->
  plain_emails w ->
  storable_signup req1 f1 l1 e1 p1 ->
  storable_signup req2 f2 l2 e2 p2 ->
  Js.toLowerCase e1 = Js.toLowerCase e2 ->
  (exists r1 w1,
     run (AuthController.registerUser env req1) w = (inr r1, w1)
     /\ run (AuthController.registerUser env req2) w1
        = (inr AuthController.user_exists, w1))
  /\ exists r1 r2 w',
       serve2 sched (AuthController.registerUser env req1)
                    (AuthController.registerUser env req2) w
       = (inr r1, inr r2, w')
       /\ ((status r1 = 201 /\ r2 = AuthController.user_exists)
           \/ (r1 = AuthController.user_exists /\ status r2 = 201)
           \/ (r1 = AuthController.user_exists /\ r2 = AuthController.user_exists
               /\ has_email (Js.toLowerCase e1) w = true)).
Proof.
  intros Hr _ [Hv1 _] [Hv2 _] He. split.
  { destruct (registerUser_takes_email env req1 f1 l1 e1 p1 w Hv1 Hr)
      as (r1 & w1 & Hrun & Hr1 & Hm1).
    exists r1, w1. split; [exact Hrun|].
    apply (registerUser_taken env req2 f2 l2 e2 p2); [exact Hv2 | exact Hr1 |].
    now rewrite <- He. }
  set (e := Js.toLowerCase e1).
  assert (Hinit : race_invariant e w Checking Checking w).
  { unfold race_invariant. cbn [created answer_ok].
    intuition (try discriminate; try congruence). }
  destruct (interleave_threads env e w req1 req2 f1 l1 e1 p1 f2 l2 e2 p2
              sched Checking Checking w Hv1 Hv2 eq_refl (eq_sym He) Hinit)
    as (s1 & s2 & wa & Hil & Hinv).
  unfold serve2.
  change (AuthController.registerUser env req1)
    with (thread env req1 f1 l1 e1 p1 Checking).
  change (AuthController.registerUser env req2)
    with (thread env req2 f2 l2 e2 p2 Checking).
  rewrite Hil.
  assert (Hra : reachable wa = true) by apply Hinv.
  destruct (run_thread env req1 f1 l1 e1 p1 s1 wa Hv1 Hra) as (r1 & Hd1 & Hrun1).
  pose proof (race_run_left env e w f1 l1 e1 p1 s1 s2 wa eq_refl Hinv) as Hinv1.
  cbv zeta in Hd1, Hrun1, Hinv1. rewrite Hrun1. rewrite Hd1 in Hinv1.
  match type of Hrun1 with _ = (_, ?x) => set (wb := x) in * end.
  assert (Hrb : reachable wb = true) by apply Hinv1.
  destruct (run_thread env req2 f2 l2 e2 p2 s2 wb Hv2 Hrb) as (r2 & Hd2 & Hrun2).
  apply race_invariant_sym in Hinv1.
  pose proof (race_run_left env e w f2 l2 e2 p2 s2 (Answered r1) wb (eq_sym He) Hinv1)
    as Hinv2.
  cbv zeta in Hd2, Hrun2, Hinv2. rewrite Hrun2. rewrite Hd2 in Hinv2.
  match type of Hrun2 with _ = (_, ?x) => set (wc := x) in * end.
  exists r1, r2, wc. split; [reflexivity|].
  unfold race_invariant in Hinv2. cbn [created answer_ok] in Hinv2.
  destruct Hinv2 as (_ & Ha2 & Ha1 & Hone & Hin & Hout & Hx2 & Hx1).
  destruct Ha1 as [-> | H1]; destruct Ha2 as [-> | H2].
  - right. right. split; [reflexivity|]. split; [reflexivity|].
    destruct (Hout (Hx1 eq_refl)) as [H|[H|H]]; [discriminate H|discriminate H|exact H].
  - right. left. split; [reflexivity | exact H2].
  - left. split; [exact H1 | reflexivity].
  - exfalso. apply Hone; apply Z.eqb_eq; assumption.
Qed.

(** Ann's sign-up and a second one with the same email in capitals,
    whose existence check runs before Ann's INSERT and whose own INSERT
    runs after it. *)
Lemma concurrent_signups_conflict_witness :
  let ann := signup "ann@example.com" "pw123456" in
  let ANN := signup "Ann@Example.COM" "s3cret-pw" in
  (exists r1 w1,
     run (AuthController.registerUser sample_env ann) empty_store = (inr r1, w1)
     /\ run (AuthController.registerUser sample_env ANN) w1
        = (inr AuthController.user_exists, w1))
  /\ exists r1 r2 w',
       serve2 [true; false; true; false]
         (AuthController.registerUser sample_env ann)
         (AuthController.registerUser sample_env ANN) empty_store
       = (inr r1, inr r2, w')
       /\ ((status r1 = 201 /\ r2 = AuthController.user_exists)
           \/ (r1 = AuthController.user_exists /\ status r2 = 201)
           \/ (r1 = AuthController.user_exists /\ r2 = AuthController.user_exists
               /\ has_email (Js.toLowerCase "ann@example.com") empty_store = true)).
Proof.
  intros ann ANN.
  apply (concurrent_signups_conflict sample_env ann ANN
           "Ann" "Lee" "ann@example.com" "pw123456"
           "Ann" "Lee" "Ann@Example.COM" "s3cret-pw").
  - reflexivity.
  - constructor.
  - unfold storable_signup, valid_signup.
    repeat split; try reflexivity; try discriminate;
      apply Nat.leb_le; vm_compute; reflexivity.
  - unfold storable_signup, valid_signup.
    repeat split; try reflexivity; try discriminate;
      apply Nat.leb_le; vm_compute; reflexivity.
  - reflexivity.
Defined.

(** ** Start-up and store failures *)

(** C9 fails on server.js: when [connectDB()] rejects, [app.listen] has
    already been called before the process exits with status 1; the slim
    server, which awaits the connection first, exits without listening. *)
Lemma server_js_listens_before_it_exits :
  Startup.boot Startup.server_js Startup.Failed
    = [Startup.Listening; Startup.Exited 1]
  /\ Startup.boot Startup.slim_server Startup.Failed = [Startup.Exited 1].
Proof. split; reflexivity. Qed.


(** ** More on registration *)

(** X1.  A body whose four fields are missing, falsy or strings of
    printable ASCII, and that is not a valid sign-up (a field missing or
    empty, an email of the wrong shape, a password shorter than eight
    characters), is answered 400 by [registerUser] without a single
    statement: the store is untouched, whether it answers or not. *)
Theorem registerUser_rejects_invalid_body
    (env : environment) (req : request) (w : world) :
  text_fields req ->
  (forall f l e p, ~ valid_signup req f l e p) ->
  exists body,
    run (AuthController.registerUser env req) w = (inr (Response 400 body), w).
Proof.
  intros _ Hinvalid. unfold AuthController.registerUser.
  destruct (field req "firstName") as [[|c1 r1]|] eqn:Hf; try (eexists; reflexivity).
  destruct (field req "lastName") as [[|c2 r2]|] eqn:Hl; try (eexists; reflexivity).
  destruct (field req "email") as [[|c3 r3]|] eqn:He; try (eexists; reflexivity).
  destruct (field req "password") as [[|c4 r4]|] eqn:Hp; try (eexists; reflexivity).
  destruct (Js.emailRegex_test (String c3 r3)) eqn:Hre; [|eexists; reflexivity].
  destruct (String.length (String c4 r4) <? 8)%nat eqn:Hlen; [eexists; reflexivity|].
  exfalso. apply (Hinvalid (String c1 r1) (String c2 r2) (String c3 r3) (String c4 r4)).
  unfold valid_signup. repeat split; try assumption; try discriminate.
  now apply Nat.ltb_ge.
Qed.

(** A sign-up whose email has no dot after the at sign. *)
Lemma registerUser_rejects_invalid_body_witness :
  exists body,
    run (AuthController.registerUser sample_env (signup "ann@localhost" "pw123456"))
        ann_store
    = (inr (Response 400 body), ann_store).
Proof.
  apply registerUser_rejects_invalid_body; [text_fields_by_computation|].
  intros f l e p (_ & _ & He & _ & _ & _ & Hre & _).
  vm_compute in He. injection He as <-. vm_compute in Hre. discriminate Hre.
Defined.

Lemma substring_all (s : string) (n : nat) :
  (String.length s <= n)%nat -> String.substring 0 n s = s.
Proof.
  revert n. induction s as [|c r IH]; intros [|n] H; cbn in *;
    try reflexivity; try lia.
  f_equal. apply IH. lia.
Qed.

(** Passwords of at most 72 bytes have different hashes. *)
Lemma bcrypt_hash_inj (p q : string) (n : nat) :
  (String.length p <= 72)%nat -> (String.length q <= 72)%nat ->
  bcrypt_hash p n = bcrypt_hash q n -> p = q.
Proof.
  intros Hp Hq E. unfold bcrypt_hash in E.
  rewrite !substring_all in E by assumption.
  cbv [String.append] in E. now inversion E.
Qed.

Lemma project_hides (cs : list string) (r : row) (c : string) :
  c ∉ cs -> project (Some cs) r !! c = None.
Proof.
  intros Hc. unfold project. apply map_lookup_filter_None. right.
  intros v _. exact Hc.
Qed.

(** The row a sign-up inserts, column by column. *)
Lemma signup_row_columns (fn ln email pw : string) (w : world) :
  exists r,
    new_row Users w (signup_values fn ln email pw) = inr r
    /\ col r "id" = VInt (auto_users w)
    /\ col r "email" = VStr (Js.toLowerCase email)
    /\ col r "password" = VStr (bcrypt_hash pw 12)
    /\ col r "firstName" = VStr (Js.trim fn)
    /\ col r "lastName" = VStr (Js.trim ln)
    /\ col r "role" = VNull
    /\ col r "isActive" = VInt 1.
Proof.
  eexists. split.
  - unfold new_row.
    replace (existsb _ (not_null Users)) with false by reflexivity.
    replace (existsb (not_given _) (not_null Users)) with false by reflexivity.
    rewrite andb_false_r. reflexivity.
  - repeat split; reflexivity.
Qed.

(** What a successful [registerUser] leaves behind. *)
Lemma registerUser_succeeds
    (env : environment) (req : request) (fn ln email pw : string) (w : world) :
  valid_signup req fn ln email pw ->
  reachable w = true ->
  has_email (Js.toLowerCase email) w = false ->
  exists r user w',
    run (AuthController.registerUser env req) w
    = (inr (AuthController.registered user
              (jwt_sign (VInt (auto_users w)) None (AuthController.JWT_SECRET env)
                 (AuthController.JWT_EXPIRES_IN env) (now w))), w')
    /\ users w' = users w ++ [r]
    /\ user_sessions w' = user_sessions w
    /\ reachable w' = true /\ now w' = now w
    /\ col r "id" = VInt (auto_users w)
    /\ col r "email" = VStr (Js.toLowerCase email)
    /\ col r "password" = VStr (bcrypt_hash pw 12)
    /\ col r "firstName" = VStr (Js.trim fn)
    /\ col r "lastName" = VStr (Js.trim ln)
    /\ col r "role" = VNull
    /\ col r "isActive" = VInt 1
    /\ exposes "password" (sent (AuthController.registered user
                                   (jwt_sign (VInt (auto_users w)) None
                                      (AuthController.JWT_SECRET env)
                                      (AuthController.JWT_EXPIRES_IN env) (now w))))
       = false.
Proof.
  intros Hv Hr He.
  destruct (run_thread env req fn ln email pw Checking w Hv Hr) as (resp & Hd & Hrun).
  cbv zeta in Hd, Hrun. cbn [thread] in Hrun.
  destruct (signup_row_columns fn ln email pw w)
    as (r & Hnew & Hid & Hmail & Hpw & Hfn & Hln & Hrole & Hact).
  assert (Hex : execute (INSERT Users (signup_values fn ln email pw)) w
                = (OkPacket (auto_users w),
                   bump_auto Users (set_rows Users (users w ++ [r]) w))).
  { destruct (execute_insert Users (signup_values fn ln email pw) w)
      as [[code Herr]|(r' & Hnew' & _ & _ & Hok)].
    - pose proof (execute_signup fn ln email pw w Hr) as Hx. cbv zeta in Hx.
      rewrite He in Hx. destruct Hx as (Hx & _). rewrite Herr in Hx. discriminate Hx.
    - rewrite Hnew in Hnew'. injection Hnew' as <-. exact Hok. }
  cbn [next fst snd] in Hd, Hrun. rewrite He in Hd, Hrun.
  cbn [next fst snd] in Hd, Hrun. rewrite He in Hd, Hrun.
  cbn [next fst snd] in Hd, Hrun. rewrite Hex in Hd, Hrun. cbn [snd] in Hd, Hrun.
  injection Hd as <-.
  eexists r, _, _. split; [exact Hrun|].
  split; [now destruct w|]. split; [now destruct w|].
  split; [now destruct w|]. split; [now destruct w|].
  split; [exact Hid|]. split; [exact Hmail|]. split; [exact Hpw|].
  split; [exact Hfn|]. split; [exact Hln|]. split; [exact Hrole|]. split; [exact Hact|].
  cbn [sent AuthController.registered exposes orb].
  rewrite !orb_false_r. apply bool_decide_eq_false. intros [v Hv'].
  rewrite lookup_insert_ne in Hv' by discriminate.
  destruct (project _ <$> _) as [|u us] eqn:Hq; cbn [head default] in Hv'.
  - rewrite lookup_empty in Hv'. discriminate Hv'.
  - assert (Hin : u ∈ project (Some ["id"; "firstName"; "lastName"; "email"; "role"])
                    <$> List.filter (matches (now w) [Eq "id" (VInt (auto_users w))])
                                    (users w ++ [r]))
      by (rewrite Hq; left).
    apply list_elem_of_fmap in Hin as (u0 & -> & _). unfold id in Hv'.
    rewrite project_hides in Hv'; [discriminate Hv'|].
    apply (bool_decide_unpack _). vm_compute. exact I.
Qed.

(** X2.  A sign-up that passes the checks, in printable ASCII and fitting
    its columns, with an email nobody has, against a store that answers
    and whose emails are printable ASCII: [registerUser] answers 201,
    appends exactly one user whose
    email is lower-cased, whose names are trimmed, whose role is NULL,
    who is active, and whose password column holds the bcrypt hash; it
    stores no session; the token it
    returns is signed for the new user's id, and the response does not
    carry the password column. *)
Theorem registerUser_stores_hashed_password
    (env : environment) (req : request) (fn ln email pw : string) (w : world) :
  storable_signup req fn ln email pw ->
  reachable w = true ->
  plain_emails w ->
  has_email (Js.toLowerCase email) w = false ->
  exists r user w',
    run (AuthController.registerUser env req) w
    = (inr (AuthController.registered user
              (jwt_sign (VInt (auto_users w)) None (AuthController.JWT_SECRET env)
                 (AuthController.JWT_EXPIRES_IN env) (now w))), w')
    /\ users w' = users w ++ [r]
    /\ user_sessions w' = user_sessions w
    /\ col r "id" = VInt (auto_users w)
    /\ col r "email" = VStr (Js.toLowerCase email)
    /\ col r "password" = VStr (bcrypt_hash pw 12)
    /\ col r "firstName" = VStr (Js.trim fn)
    /\ col r "lastName" = VStr (Js.trim ln)
    /\ col r "role" = VNull
    /\ col r "isActive" = VInt 1
    /\ exposes "password" (sent (AuthController.registered user
                                   (jwt_sign (VInt (auto_users w)) None
                                      (AuthController.JWT_SECRET env)
                                      (AuthController.JWT_EXPIRES_IN env) (now w))))
       = false.
Proof.
  intros [Hv _] Hr _ He.
  destruct (registerUser_succeeds env req fn ln email pw w Hv Hr He)
    as (r & user & w' & Hrun & Hu & Hs & _ & _ & Hid & Hmail & Hpw & Hfn & Hln
        & Hrole & Hact & Hexp).
  exists r, user, w'. split; [exact Hrun|]. split; [exact Hu|]. split; [exact Hs|].
  split; [exact Hid|]. split; [exact Hmail|]. split; [exact Hpw|].
  split; [exact Hfn|]. split; [exact Hln|]. split; [exact Hrole|].
  split; [exact Hact | exact Hexp].
Qed.

(** Bob signs up while Ann is the only user. *)
Lemma registerUser_stores_hashed_password_witness :
  exists r user w',
    run (AuthController.registerUser sample_env (signup "Bob@Example.com" "hunter2-hunter2"))
        ann_store
    = (inr (AuthController.registered user
              (JWT (Claims (VInt 2) None 1000 605800) "k3y-from-env")), w')
    /\ users w' = users ann_store ++ [r]
    /\ col r "email" = VStr "bob@example.com"
    /\ col r "password" = VStr "$2b$hunter2-hunter2".
Proof.
  destruct (registerUser_stores_hashed_password sample_env
              (signup "Bob@Example.com" "hunter2-hunter2")
              "Ann" "Lee" "Bob@Example.com" "hunter2-hunter2" ann_store)
    as (r & user & w' & Hrun & Hu & _ & _ & Hmail & Hpw & _).
  - unfold storable_signup, valid_signup.
    repeat split; try reflexivity; try discriminate;
      apply Nat.leb_le; vm_compute; reflexivity.
  - reflexivity.
  - repeat constructor. eexists. split; vm_compute; reflexivity.
  - vm_compute. reflexivity.
  - exists r, user, w'. split; [exact Hrun|]. split; [exact Hu|].
    split; [exact Hmail | exact Hpw].
Defined.

Lemma filter_free_email (e e' : string) (l : list row) :
  Js.toLowerCase e' = e ->
  existsb (fun o => sql_eq (col o "email") (VStr e)) l = false ->
  List.filter (fun u => sql_eq (col u "email") (VStr e')) l = [].
Proof.
  intros He. induction l as [|o l IH]; [reflexivity|].
  cbn [existsb List.filter]. intros H. apply orb_false_elim in H as [Ho Hl].
  rewrite <- (sql_eq_lower (col o "email") e'), He, Ho. now apply IH.
Qed.

(** X3.  Round trip: after a successful sign-up (in printable ASCII,
    fitting its columns, against a store whose emails are printable
    ASCII), [loginUser] with the same email in any letter case and the
    same password answers 200 with a token signed for the id of the new
    user; and with any other password of printable ASCII it answers 401
    "Invalid credentials", both passwords being at most 72 bytes long,
    which is all that bcrypt hashes. *)
Theorem register_then_login
    (env : environment) (req login : request) (fn ln email pw email' pw' : string)
    (w : world) :
  storable_signup req fn ln email pw ->
  presents login email' pw' ->
  Js.toLowerCase email' = Js.toLowerCase email ->
  ascii_text pw' = true ->
  (String.length pw <= 72)%nat -> (String.length pw' <= 72)%nat ->
  reachable w = true ->
  plain_emails w ->
  has_email (Js.toLowerCase email) w = false ->
  let w1 := (run (AuthController.registerUser env req) w).2 in
  if String.eqb pw' pw
  then exists user,
         run (AuthController.loginUser env login) w1
         = (inr (AuthController.logged_in user
                   (jwt_sign (VInt (auto_users w)) None (AuthController.JWT_SECRET env)
                      (AuthController.JWT_EXPIRES_IN env) (now w1))), w1)
  else run (AuthController.loginUser env login) w1
       = (inr AuthController.invalid_credentials, w1).
Proof.
  intros [Hv _] Hp He _ Hlen Hlen' Hr _ Hfree w1.
  destruct (registerUser_succeeds env req fn ln email pw w Hv Hr Hfree)
    as (r & user & w' & Hrun & Hu & _ & Hr' & _ & Hid & Hmail & Hpw & _).
  unfold w1. rewrite Hrun. cbn [snd]. clear w1.
  assert (Hfind : users_with_email email' w' = [r]).
  { unfold users_with_email. rewrite Hu, List.filter_app.
    replace (List.filter _ (users w)) with (@nil row).
    - cbn [app List.filter]. rewrite Hmail, <- sql_eq_lower, He.
      now rewrite sql_eq_str_refl.
    - symmetry. now apply (filter_free_email (Js.toLowerCase email)). }
  rewrite (loginUser_run env login email' pw' w' Hp Hr'), Hfind, Hpw.
  destruct (String.eqb pw' pw) eqn:Epw.
  - apply String.eqb_eq in Epw. subst pw'. rewrite String.eqb_refl.
    rewrite Hid. eauto.
  - replace (String.eqb (bcrypt_hash pw 12) (bcrypt_hash pw' 12)) with false; [reflexivity|].
    symmetry. apply String.eqb_neq. intros E.
    apply bcrypt_hash_inj in E; [|assumption..].
    apply String.eqb_neq in Epw. congruence.
Qed.

(** Bob signs up and logs in with his email in capitals. *)
Lemma register_then_login_witness :
  let w1 := (run (AuthController.registerUser sample_env
                    (signup "bob@example.com" "hunter2-hunter2")) ann_store).2 in
  exists user,
    run (AuthController.loginUser sample_env
           (credentials "BOB@EXAMPLE.COM" "hunter2-hunter2")) w1
    = (inr (AuthController.logged_in user
              (JWT (Claims (VInt 2) None 1000 605800) "k3y-from-env")), w1).
Proof.
  intros w1.
  apply (register_then_login sample_env (signup "bob@example.com" "hunter2-hunter2")
           (credentials "BOB@EXAMPLE.COM" "hunter2-hunter2")
           "Ann" "Lee" "bob@example.com" "hunter2-hunter2"
           "BOB@EXAMPLE.COM" "hunter2-hunter2" ann_store).
  - unfold storable_signup, valid_signup.
    repeat split; try reflexivity; try discriminate;
      apply Nat.leb_le; vm_compute; reflexivity.
  - repeat split; try reflexivity; discriminate.
  - reflexivity.
  - reflexivity.
  - apply Nat.leb_le. vm_compute. reflexivity.
  - apply Nat.leb_le. vm_compute. reflexivity.
  - reflexivity.
  - repeat constructor. eexists. split; vm_compute; reflexivity.
  - vm_compute. reflexivity.
Defined.

(** ** The gateway of the middleware, and [optionalAuth] *)

(** The gateway of the middleware, case by case. *)
Lemma middleware_authenticateToken_run (env : environment) (req : request) (w : world) :
  run (AuthMiddleware.authenticateToken env req) w =
  (inr match bearer (authorization req) with
       | None => Rejected (Response 401 (error_message "Access denied"
                                           "No token provided"))
       | Some t =>
           match jwt_verify t (AuthMiddleware.JWT_SECRET env) (now w) with
           | inl JsonWebTokenError =>
               Rejected (Response 401 (error_message "Invalid token"
                                         "Token is malformed"))
           | inl TokenExpiredError =>
               Rejected (Response 401 (error_message "Token expired"
                                         "Please login again"))
           | inr c =>
               if reachable w then
                 if has_user (userId c) w then Next (userId c, t)
                 else Rejected (Response 401 (error_message "Invalid token"
                                                "User not found"))
               else Rejected (Response 500 (error_message "Internal server error"
                                              "Authentication failed"))
           end
       end, w).
Proof.
  unfold AuthMiddleware.authenticateToken. rewrite run_try_catch.
  destruct (bearer (authorization req)) as [t|]; [|reflexivity].
  rewrite run_bind, run_verify.
  destruct (jwt_verify t (AuthMiddleware.JWT_SECRET env) (now w)) as [[|]|c];
    [reflexivity|reflexivity|].
  rewrite run_bind, run_query_select.
  destruct (reachable w); [|reflexivity].
  cbn [rows_of].
  assert (Hex : has_user (userId c) w
                = (0 <? length (List.filter (matches (now w) [Eq "id" (userId c)]) (users w)))%nat).
  { rewrite filter_length_existsb. unfold has_user.
    induction (users w) as [|u l IH]; [reflexivity|]. cbn [existsb].
    rewrite IH. f_equal. unfold matches. cbn [forallb holds]. now rewrite andb_true_r. }
  rewrite Hex.
  destruct (List.filter (matches (now w) [Eq "id" (userId c)]) (users w)) as [|u us];
    [reflexivity|].
  rewrite fmap_cons. reflexivity.
Qed.

(** X4.  The stateless gateway lets a request through exactly when it
    carries a truthy bearer string that verifies, the store answers, and
    a user row has the id of the token; it hands on that id and the
    string.  Whatever it answers, it leaves the store as it was. *)
Theorem middleware_gateway_accepts_iff
    (env : environment) (req : request) (w : world) :
  (run (AuthMiddleware.authenticateToken env req) w).2 = w
  /\ forall uid t,
       (run (AuthMiddleware.authenticateToken env req) w).1 = inr (Next (uid, t))
       <-> (bearer (authorization req) = Some t
            /\ (exists c, jwt_verify t (AuthMiddleware.JWT_SECRET env) (now w) = inr c
                          /\ userId c = uid)
            /\ reachable w = true
            /\ has_user uid w = true).
Proof.
  rewrite middleware_authenticateToken_run. cbn [fst snd].
  split; [reflexivity|]. intros uid t. split.
  - intros H.
    destruct (bearer (authorization req)) as [t0|]; [|discriminate H].
    destruct (jwt_verify t0 _ _) as [[|]|c] eqn:Hv;
      [discriminate H|discriminate H|].
    destruct (reachable w); [|discriminate H].
    destruct (has_user (userId c) w) eqn:Hu; [|discriminate H].
    injection H as <- <-.
    split; [reflexivity|]. split; [exists c; now split|]. now split.
  - intros (-> & (c & -> & <-) & -> & ->). reflexivity.
Qed.

(** X5.  [optionalAuth] never touches the store and never turns a request
    away; it attaches an identity exactly when the bearer string
    verifies, and then it is the identity the gateway would hand on:
    whenever [authenticateToken] lets a request through, [optionalAuth]
    attaches the same id and string. *)
Theorem optionalAuth_agrees_with_gateway
    (env : environment) (req : request) (w : world) :
  (run (Optional.optionalAuth env req) w).2 = w
  /\ (forall uid t,
        (run (Optional.optionalAuth env req) w).1 = inr (Some (uid, t))
        <-> (bearer (authorization req) = Some t
             /\ exists c, jwt_verify t (AuthMiddleware.JWT_SECRET env) (now w) = inr c
                          /\ userId c = uid))
  /\ ((run (Optional.optionalAuth env req) w).1 = inr None
      \/ exists a, (run (Optional.optionalAuth env req) w).1 = inr (Some a))
  /\ (forall a,
        (run (AuthMiddleware.authenticateToken env req) w).1 = inr (Next a) ->
        (run (Optional.optionalAuth env req) w).1 = inr (Some a)).
Proof.
  assert (Hrun : run (Optional.optionalAuth env req) w
    = (inr match bearer (authorization req) with
           | Some t => match jwt_verify t (AuthMiddleware.JWT_SECRET env) (now w) with
                       | inr c => Some (userId c, t)
                       | inl _ => None
                       end
           | None => None
           end, w)).
  { unfold Optional.optionalAuth. rewrite run_try_catch.
    destruct (bearer (authorization req)) as [t|]; [|reflexivity].
    rewrite run_bind, run_verify.
    now destruct (jwt_verify t _ _). }
  assert (Hiff : forall uid t,
        (run (Optional.optionalAuth env req) w).1 = inr (Some (uid, t))
        <-> (bearer (authorization req) = Some t
             /\ exists c, jwt_verify t (AuthMiddleware.JWT_SECRET env) (now w) = inr c
                          /\ userId c = uid)).
  { intros uid t. rewrite Hrun. cbn [fst].
    destruct (bearer (authorization req)) as [t0|].
    - destruct (jwt_verify t0 _ _) as [e|c] eqn:Hv; split.
      + intros H. discriminate H.
      + intros (H & c & Hc & _). injection H as <-. congruence.
      + intros H. injection H as <- <-. eauto.
      + intros (H & c' & Hc & <-). injection H as <-. congruence.
    - split; [intros H; discriminate H | intros (H & _); discriminate H]. }
  split; [now rewrite Hrun|]. split; [exact Hiff|]. split.
  - rewrite Hrun. cbn [fst]. destruct (bearer _) as [t|]; [|now left].
    destruct (jwt_verify t _ _); [now left | right; eauto].
  - intros [uid t] Ha. apply Hiff.
    rewrite middleware_authenticateToken_run in Ha. cbn [fst] in Ha.
    destruct (bearer (authorization req)) as [t0|]; [|discriminate Ha].
    destruct (jwt_verify t0 _ _) as [[|]|c] eqn:Hv;
      [discriminate Ha|discriminate Ha|].
    destruct (reachable w); [|discriminate Ha].
    destruct (has_user (userId c) w); [|discriminate Ha].
    injection Ha as <- <-. eauto.
Qed.

(** ** More on the stateful gateway *)

(** X6.  The stateful gateway never reads the users table: two stores with
    the same sessions, clock and availability get the same answer,
    whatever their users are.  In particular deactivating a user does not
    end the sessions the user holds. *)
Theorem stateful_gateway_ignores_users
    (env : environment) (req : request) (w w' : world) :
  user_sessions w' = user_sessions w -> now w' = now w ->
  reachable w' = reachable w ->
  (run (Server.authenticateToken env req) w').1
  = (run (Server.authenticateToken env req) w).1.
Proof.
  intros Hs Hn Hr. rewrite !authenticateToken_run.
  unfold live_sessions. rewrite Hs, Hn, Hr.
  destruct (bearer (authorization req)) as [t|]; [|reflexivity].
  destruct (jwt_verify t _ _); [reflexivity|].
  destruct (reachable w); [|reflexivity].
  now destruct (List.filter _ (user_sessions w)).
Qed.

(** Ann's account is deactivated; her session still opens the gateway. *)
Lemma stateful_gateway_ignores_users_witness :
  let req := with_bearer ann_token ∅ in
  (run (Server.authenticateToken sample_env req) (deactivate_all ann_store)).1
  = (run (Server.authenticateToken sample_env req) ann_store).1
  /\ exists a, (run (Server.authenticateToken sample_env req) ann_store).1
               = inr (Next a).
Proof.
  intros req. split.
  - apply stateful_gateway_ignores_users; reflexivity.
  - eexists. vm_compute. reflexivity.
Defined.

Lemma filter_map_commute {A} (p : A -> bool) (f : A -> A) (l : list A) :
  (forall x, p (f x) = p x) ->
  List.filter p (map f l) = map f (List.filter p l).
Proof.
  intros H. induction l as [|x l IH]; [reflexivity|].
  cbn [map List.filter]. rewrite H. destruct (p x); cbn [map]; now rewrite IH.
Qed.

Lemma touch_row (w : world) (r : row) (k : string) :
  k <> "lastUsedAt" ->
  updated UserSessions w {["lastUsedAt" := NOW]} r !! k = r !! k.
Proof.
  intros Hk. apply updated_frame; [|exact Hk].
  now apply lookup_singleton_ne.
Qed.

Lemma touched_sessions (t : token) (w : world) :
  user_sessions (touched t w)
  = map (fun r => if sql_eq (col r "token") (VTok t)
                  then updated UserSessions w {["lastUsedAt" := NOW]} r else r)
        (user_sessions w).
Proof.
  unfold touched. destruct w; simpl. apply map_ext. intros r.
  now rewrite andb_true_r.
Qed.

(** X7.  When the stateful gateway lets a request through, the only thing
    it writes is [lastUsedAt] of session rows: users are untouched and
    every session row keeps all its other columns; and the same request
    presented again at once is let through again, with the same claims
    and the same session id. *)
Theorem stateful_gateway_touches_only_lastUsedAt
    (env : environment) (req : request) (w : world) (c : claims) (sid : jsval) :
  (run (Server.authenticateToken env req) w).1 = inr (Next (c, sid)) ->
  let w' := (run (Server.authenticateToken env req) w).2 in
  users w' = users w
  /\ Forall2 (fun r r' : row => forall k, k <> "lastUsedAt" -> r' !! k = r !! k)
             (user_sessions w) (user_sessions w')
  /\ (run (Server.authenticateToken env req) w').1 = inr (Next (c, sid)).
Proof.
  intros Hacc w'. unfold w'. clear w'.
  rewrite authenticateToken_run in Hacc |- *.
  destruct (bearer (authorization req)) as [t|] eqn:Hb; [|discriminate Hacc].
  destruct (jwt_verify t (Server.JWT_SECRET env) (now w)) as [e|c0] eqn:Hv;
    [discriminate Hacc|].
  destruct (reachable w) eqn:Hr; [|discriminate Hacc].
  destruct (live_sessions t w) as [|s l] eqn:Hl; [discriminate Hacc|].
  cbn [fst snd] in *. injection Hacc as <- <-.
  split; [now destruct w|]. split.
  - rewrite touched_sessions. apply Forall2_map_self. intros r k Hk.
    destruct (sql_eq (col r "token") (VTok t)); [|reflexivity].
    now apply touch_row.
  - rewrite authenticateToken_run, Hb.
    replace (now (touched t w)) with (now w) by (now destruct w).
    replace (reachable (touched t w)) with true by (now destruct w).
    rewrite Hv.
    assert (Hlive : live_sessions t (touched t w)
                    = map (fun r => if sql_eq (col r "token") (VTok t)
                                    then updated UserSessions w {["lastUsedAt" := NOW]} r
                                    else r)
                          (live_sessions t w)).
    { unfold live_sessions. rewrite touched_sessions.
      replace (now (touched t w)) with (now w) by (now destruct w).
      apply filter_map_commute. intros r.
      destruct (sql_eq (col r "token") (VTok t)); [|reflexivity].
      unfold matches. cbn [forallb holds]. unfold col.
      now rewrite !touch_row by discriminate. }
    rewrite Hlive, Hl. cbn [map].
    destruct (sql_eq (col s "token") (VTok t)); [|reflexivity].
    unfold col. now rewrite touch_row by discriminate.
Qed.

(** Ann presents her token five seconds after signing up. *)
Lemma stateful_gateway_touches_only_lastUsedAt_witness :
  let req := with_bearer ann_token ∅ in
  let w := advance 5000 ann_store in
  let w' := (run (Server.authenticateToken sample_env req) w).2 in
  users w' = users w
  /\ (fun r => col r "lastUsedAt") <$> user_sessions w' = [VInt 1005000].
Proof.
  intros req w w'.
  destruct (stateful_gateway_touches_only_lastUsedAt sample_env req w
              (Claims (VInt 1) (Some (VStr "ann@example.com")) 1000 605800) (VInt 1))
    as (Hu & _ & _).
  - vm_compute. reflexivity.
  - split; [exact Hu|]. vm_compute. reflexivity.
Defined.

Lemma col_new_row_default (t : table) (w : world) (vals : gmap string jsval)
    (r : row) (c : string) :
  new_row t w vals = inr r -> vals !! c = None ->
  (<["id" := VInt (auto_of t w)]> (implicit_defaults t)) !! c = None ->
  col r c = col (defaults t (now w)) c.
Proof.
  unfold new_row. intros Hr Hc Hi.
  destruct (existsb _ _); [discriminate Hr|].
  destruct (strict w && _); [discriminate Hr|]. injection Hr as <-.
  unfold col. rewrite lookup_union_r; [reflexivity|].
  apply lookup_union_None. split; [|exact Hi].
  now rewrite lookup_fmap, Hc.
Qed.

Lemma openSession_inv (env : environment) (req : request)
    (uid email device : jsval) (w w' : world) (t : token) :
  run (Server.openSession env req uid email device) w = (inr t, w') ->
  t = jwt_sign uid (Some email) (Server.JWT_SECRET env) seven_days (now w)
  /\ reachable w = true
  /\ exists s,
       col s "token" = VTok t /\ col s "userId" = to_sql uid
       /\ col s "expiresAt" = VInt (now w + seven_days * 1000)
       /\ col s "isActive" = VInt 1
       /\ col s "id" = VInt (auto_sessions w)
       /\ has_user (to_sql uid) w = true
       /\ w' = bump_auto UserSessions
                 (set_rows UserSessions (user_sessions w ++ [s]) w).
Proof.
  unfold Server.openSession, sign.
  intros H. rewrite run_bind in H. cbn [run] in H. rewrite run_bind in H.
  cbn [run] in H.
  destruct (ip req) as [a|]; [|discriminate H].
  change (VStr <$> Some a) with (Some (VStr a)) in H.
  rewrite run_bind in H. cbn [run param] in H.
  destruct (userAgent req) as [g|]; [|discriminate H].
  change (VStr <$> Some g) with (Some (VStr g)) in H.
  rewrite run_bind in H. cbn [run param] in H.
  rewrite run_bind, run_db_execute in H.
  match type of H with context [execute (INSERT UserSessions ?v) w] =>
    destruct (execute_insert UserSessions v w)
      as [(code & E)|(s & Hnew & Hkey & Hr & E)]; rewrite E in H
  end; [discriminate H|].
  cbn [run] in H. injection H as <- <-.
  split; [reflexivity|]. split; [exact Hr|]. exists s.
  assert (Huid : col s "userId" = to_sql uid)
    by (rewrite (col_new_row _ _ _ _ "userId" _ Hnew eq_refl); reflexivity).
  split; [rewrite (col_new_row _ _ _ _ "token" _ Hnew eq_refl); reflexivity|].
  split; [exact Huid|].
  split; [rewrite (col_new_row _ _ _ _ "expiresAt" _ Hnew eq_refl); reflexivity|].
  split; [rewrite (col_new_row_default _ _ _ _ "isActive" Hnew); reflexivity|].
  split; [apply (col_new_row_id _ _ _ _ Hnew); reflexivity|].
  split; [|reflexivity].
  unfold key_error in Hkey. rewrite Huid in Hkey.
  destruct (has_user (to_sql uid) w); [reflexivity|discriminate Hkey].
Qed.

(** X8.  A session opened by the server outlives its token.  When
    [openSession] succeeds it appends exactly one active session row that
    carries the token it returns, and at every instant at which that token
    still verifies the row has not expired: the token's [exp], in whole
    seconds, never lies after the row's [expiresAt].  Users are left
    alone, and the user the session is for exists. *)
Theorem openSession_row_outlives_token
    (env : environment) (req : request) (uid email device : jsval)
    (w w' : world) (t : token) :
  run (Server.openSession env req uid email device) w = (inr t, w') ->
  users w' = users w
  /\ has_user (to_sql uid) w = true
  /\ exists s e,
       user_sessions w' = user_sessions w ++ [s]
       /\ col s "token" = VTok t
       /\ col s "isActive" = VInt 1
       /\ col s "expiresAt" = VInt e
       /\ forall clock c,
            jwt_verify t (Server.JWT_SECRET env) clock = inr c -> clock < e.
Proof.
  intros H. apply openSession_inv in H.
  destruct H as (Ht & Hr & s & Htok & Huid & Hexp & Hact & Hid & Hfk & ->).
  split; [now destruct w|]. split; [exact Hfk|].
  exists s, (now w + seven_days * 1000).
  split; [now destruct w|]. split; [exact Htok|]. split; [exact Hact|].
  split; [exact Hexp|].
  intros clock c Hv. subst t. unfold jwt_verify, jwt_sign in Hv.
  destruct (decide _); [|discriminate Hv]. cbn [exp] in Hv.
  destruct (_ <=? _) eqn:Hle; [discriminate Hv|].
  apply Z.leb_gt in Hle. unfold clockTimestamp, seven_days in *.
  pose proof (Z.mul_div_le (now w) 1000 ltac:(lia)).
  pose proof (Z.mod_pos_bound clock 1000 ltac:(lia)).
  pose proof (Z.div_mod clock 1000 ltac:(lia)). lia.
Qed.

(** Ann opens a second session. *)
Lemma openSession_row_outlives_token_witness :
  exists s e,
    user_sessions
      (run (Server.openSession sample_env (with_bearer ann_token ∅)
              (VInt 1) (VStr "ann@example.com") VNull) ann_store).2
    = user_sessions ann_store ++ [s]
    /\ col s "expiresAt" = VInt e
    /\ forall clock c,
         jwt_verify ann_token (Server.JWT_SECRET sample_env) clock = inr c ->
         clock < e.
Proof.
  destruct (openSession_row_outlives_token sample_env (with_bearer ann_token ∅)
              (VInt 1) (VStr "ann@example.com") VNull ann_store
              (run (Server.openSession sample_env (with_bearer ann_token ∅)
                      (VInt 1) (VStr "ann@example.com") VNull) ann_store).2
              ann_token)
    as (_ & _ & s & e & Hs & _ & _ & He & Hout).
  - vm_compute. reflexivity.
  - exists s, e. split; [exact Hs|]. split; [exact He|exact Hout].
Defined.

(** ** Updates of users that cannot fail *)

Lemma update_users_total (w : world) (sets : gmap string expr)
    (wh : list cond) (todo seen : list row) :
  sets !! "email" = None -> sets !! "socialId" = None ->
  sets !! "socialProvider" = None ->
  assigns_null Users sets = false ->
  update_rows Users w sets wh seen todo
  = inr (seen ++ map (fun r => if matches (now w) wh r
                               then updated Users w sets r else r) todo).
Proof.
  intros He Hs Hp Hn. revert seen.
  induction todo as [|r rest IH]; intros seen; simpl.
  - now rewrite app_nil_r.
  - set (r' := if matches (now w) wh r then updated Users w sets r else r).
    assert (Hkey : forall c, sets !! c = None -> c <> "updatedAt" ->
                             col r' c = col r c).
    { intros c Hc Hne. unfold r', col. destruct (matches _ _ _); [|reflexivity].
      now rewrite updated_frame. }
    rewrite Hn, andb_false_r.
    replace (negb (bool_decide _)) with false.
    2:{ symmetry. apply negb_false_iff, bool_decide_eq_true.
        repeat split; apply Hkey; try assumption; discriminate. }
    destruct (bool_decide (r' = r)) eqn:Hsame.
    + apply bool_decide_eq_true in Hsame. fold r'. rewrite IH, <- app_assoc.
      now rewrite Hsame.
    + now rewrite IH, <- app_assoc.
Qed.

(** ** Reading a profile *)

Lemma exposes_projected (cs : list string) (c : string) (rs : list row) (u : row)
    (us : list row) :
  c ∉ cs -> project (Some cs) <$> rs = u :: us -> u !! c = None.
Proof.
  intros Hc Hq.
  assert (Hin : u ∈ project (Some cs) <$> rs) by (rewrite Hq; left).
  apply list_elem_of_fmap in Hin as (u0 & -> & _).
  now apply project_hides.
Qed.

Lemma getUserProfile_run (uid : jsval) (w : world) :
  exists resp,
    run (ProfileRead.getUserProfile uid) w = (inr resp, w)
    /\ exposes "password" (sent resp) = false
    /\ status resp
       = if reachable w
         then match active_users_with_id uid w with [] => 404 | _ :: _ => 200 end
         else 500.
Proof.
  unfold ProfileRead.getUserProfile.
  rewrite run_try_catch, run_bind, run_query_select.
  destruct (reachable w); [|eexists; repeat split; reflexivity].
  cbn [rows_of]. fold (active_users_with_id uid w).
  destruct (project _ <$> _) as [|u us] eqn:Hq.
  - apply fmap_nil_inv in Hq. rewrite Hq. eexists. repeat split; reflexivity.
  - destruct (active_users_with_id uid w) as [|u0 l]; [discriminate Hq|].
    eexists. split; [reflexivity|]. split; [|reflexivity].
    cbn [sent exposes orb]. rewrite orb_false_r.
    apply bool_decide_eq_false. intros [v Hv].
    rewrite (exposes_projected ProfileRead.columns "password" (u0 :: l) u us) in Hv;
      [discriminate Hv| |exact Hq].
    apply (bool_decide_unpack _). vm_compute. exact I.
Qed.

Lemma getProfile_run (decoded : claims) (w : world) :
  exists resp,
    run (ProfileRead.getProfile decoded) w = (inr resp, w)
    /\ exposes "password" (sent resp) = false
    /\ status resp
       = if reachable w
         then if has_user (userId decoded) w then 200 else 404
         else 500.
Proof.
  unfold ProfileRead.getProfile.
  rewrite run_try_catch, run_bind, run_query_select.
  destruct (reachable w); [|eexists; repeat split; reflexivity].
  cbn [rows_of].
  assert (Hex : has_user (userId decoded) w
                = (0 <? length (List.filter (matches (now w) [Eq "id" (userId decoded)])
                                            (users w)))%nat).
  { rewrite filter_length_existsb. unfold has_user.
    induction (users w) as [|u l IH]; [reflexivity|]. cbn [existsb].
    rewrite IH. f_equal. unfold matches. cbn [forallb holds]. now rewrite andb_true_r. }
  rewrite Hex.
  destruct (project _ <$> _) as [|u us] eqn:Hq.
  - apply fmap_nil_inv in Hq. rewrite Hq. eexists. repeat split; reflexivity.
  - destruct (List.filter _ (users w)) as [|u0 l]; [discriminate Hq|].
    eexists. split; [reflexivity|]. split; [|reflexivity].
    cbn [sent exposes].
    apply bool_decide_eq_false. intros [v Hv].
    rewrite (exposes_projected Server.profile_columns "password" (u0 :: l) u us) in Hv;
      [discriminate Hv| |exact Hq].
    apply (bool_decide_unpack _). vm_compute. exact I.
Qed.

(** X11.  GET /api/auth/profile, gateway and controller together, is
    read-only and never shows the password column: it leaves the store
    as it was, always answers, sends no row that carries [password], and
    answers 200 only to a bearer string that verifies for the id of a
    user who is active. *)
Theorem profile_route_reads_only
    (env : environment) (req : request) (w : world) :
  exists resp,
    run (ProfileRead.profile env req) w = (inr resp, w)
    /\ exposes "password" (sent resp) = false
    /\ (status resp = 200 ->
        exists t c,
          bearer (authorization req) = Some t
          /\ jwt_verify t (AuthMiddleware.JWT_SECRET env) (now w) = inr c
          /\ active_users_with_id (userId c) w <> []).
Proof.
  unfold ProfileRead.profile, route.
  rewrite run_bind, middleware_authenticateToken_run.
  destruct (bearer (authorization req)) as [t|]; [|turned_away].
  destruct (jwt_verify t _ _) as [[|]|c] eqn:Hv; [turned_away..|].
  destruct (reachable w) eqn:Hr; [|turned_away].
  destruct (has_user (userId c) w); [|turned_away].
  cbn [fst].
  destruct (getUserProfile_run (userId c) w) as (resp & Hrun & Hhide & Hst).
  exists resp. split; [exact Hrun|]. split; [exact Hhide|].
  intros H200. exists t, c. split; [reflexivity|]. split; [exact Hv|].
  rewrite Hr in Hst. destruct (active_users_with_id (userId c) w); [|discriminate].
  rewrite H200 in Hst. discriminate Hst.
Qed.

(** X12.  The two profile reads disagree on deactivated accounts.  Both
    handlers leave the store alone and send no [password]; but for the
    id of a user who exists and is not active, [getUserProfile] of the
    controller answers 404 while the handler of server.js answers 200
    with the profile. *)
Theorem profile_of_deactivated_account
    (decoded : claims) (w : world) :
  reachable w = true ->
  has_user (userId decoded) w = true ->
  active_users_with_id (userId decoded) w = [] ->
  exists r404 r200,
    run (ProfileRead.getUserProfile (userId decoded)) w = (inr r404, w)
    /\ run (ProfileRead.getProfile decoded) w = (inr r200, w)
    /\ status r404 = 404 /\ status r200 = 200
    /\ exposes "password" (sent r200) = false.
Proof.
  intros Hr Hu Hnone.
  destruct (getUserProfile_run (userId decoded) w) as (r404 & H1 & _ & Hs1).
  destruct (getProfile_run decoded w) as (r200 & H2 & Hhide & Hs2).
  rewrite Hr, Hnone in Hs1. rewrite Hr, Hu in Hs2.
  exists r404, r200. repeat split; assumption.
Qed.

(** Ann, after her account has been deactivated. *)
Lemma profile_of_deactivated_account_witness :
  let w := deactivate_all ann_store in
  let decoded := Claims (VInt 1) (Some (VStr "ann@example.com")) 1000 605800 in
  exists r404 r200,
    run (ProfileRead.getUserProfile (userId decoded)) w = (inr r404, w)
    /\ run (ProfileRead.getProfile decoded) w = (inr r200, w)
    /\ status r404 = 404 /\ status r200 = 200
    /\ exposes "password" (sent r200) = false.
Proof.
  intros w decoded.
  apply (profile_of_deactivated_account decoded w); vm_compute; reflexivity.
Defined.

(** ** Refreshing, when it does not succeed *)

Lemma startsWith_Bearer_inv (h : option (list token)) :
  startsWith_Bearer h = true ->
  exists t rest, h = Some (Text "Bearer" :: t :: rest).
Proof.
  unfold startsWith_Bearer. intros H.
  destruct h as [[|[s|c k] [|t rest]]|]; try discriminate H.
  - do 6 next_char s H. destruct s; discriminate H.
  - do 6 next_char s H. destruct s; [|discriminate H]. eauto.
Qed.

(** X13.  [refreshToken] fails closed.  It always answers, with 200 or
    with 401 and never with 500, also when the store is down; it never
    writes to users; an answer other than 200 leaves the whole store as
    it was; and 200 is given only to a header that starts with Bearer,
    whose token verifies, for the id of a user who is active. *)
Theorem refreshToken_fails_closed
    (env : environment) (req : request) (w : world) :
  exists resp w',
    run (AuthController.refreshToken env req) w = (inr resp, w')
    /\ users w' = users w
    /\ ((status resp = 401 /\ w' = w)
        \/ (status resp = 200
            /\ startsWith_Bearer (authorization req) = true
            /\ reachable w = true
            /\ exists t c,
                 bearer (authorization req) = Some t
                 /\ jwt_verify t (AuthController.JWT_SECRET env) (now w) = inr c
                 /\ active_users_with_id (userId c) w <> [])).
Proof.
  unfold AuthController.refreshToken. rewrite run_try_catch.
  destruct (startsWith_Bearer (authorization req)) eqn:Hsw; cbn [negb];
    [|eexists _, _; split; [reflexivity|]; split; [reflexivity|]; left; now split].
  destruct (startsWith_Bearer_inv _ Hsw) as (t & rest & Hh).
  rewrite Hh. simpl (default _ _).
  rewrite run_bind, run_verify.
  destruct (jwt_verify t (AuthController.JWT_SECRET env) (now w)) as [e|c] eqn:Hv;
    [eexists _, _; split; [reflexivity|]; split; [reflexivity|]; left; now split|].
  rewrite run_bind, run_query_select.
  destruct (reachable w) eqn:Hr;
    [|eexists _, _; split; [reflexivity|]; split; [reflexivity|]; left; now split].
  simpl rows_of. fold (active_users_with_id (userId c) w).
  destruct (active_users_with_id (userId c) w) as [|u us] eqn:Hact;
    [eexists _, _; split; [reflexivity|]; split; [reflexivity|]; left; now split|].
  rewrite fmap_cons. cbv iota beta. rewrite run_bind.
  change (run (AuthController.generateToken env (userId c)) w)
    with (@inr exn token
            (jwt_sign (userId c) None (AuthController.JWT_SECRET env)
               (AuthController.JWT_EXPIRES_IN env) (now w)), w).
  cbv iota beta. rewrite run_bind, run_db_execute.
  rewrite execute_update_sessions by (reflexivity || exact Hr).
  eexists _, _. split; [reflexivity|]. split; [now destruct w|]. right.
  split; [reflexivity|]. split; [reflexivity|]. split; [reflexivity|].
  assert (Hbt : exists t', bearer (Some (Text "Bearer" :: t :: rest)) = Some t'
                           /\ t' = t).
  { unfold bearer.
    change (header_token (Some (Text "Bearer" :: t :: rest))) with (Some t).
    cbv beta iota.
    destruct (truthy (VTok t)) eqn:Ht; [exists t; now split|].
    exfalso. destruct t as [s|c' k]; [|simpl in Ht; discriminate Ht].
    simpl in Hv. discriminate Hv. }
  destruct Hbt as (t' & Hbt & ->).
  exists t, c. split; [exact Hbt|]. split; [exact Hv|].
  rewrite ?Hact. intros E. discriminate E.
Qed.

(** ** Signing in through a provider *)

Lemma createUser_refused (p : OAuth.profile) (provider : string) (email : jsval)
    (w : world) :
  reachable w = true ->
  email = VNull \/ (strict w = true /\ exists e, email = VStr e) ->
  exists code,
    run (OAuth.createUser p provider email) w = (inl (DbError code), w)
    /\ (code = "ER_BAD_NULL_ERROR" \/ code = "ER_NO_DEFAULT_FOR_FIELD").
Proof.
  intros Hr Hwhy. unfold OAuth.createUser.
  rewrite run_bind, run_command. unfold execute, insert, new_row. rewrite Hr.
  destruct Hwhy as [->|(Hs & e & ->)].
  - replace (existsb (given_null _) (not_null Users)) with true by reflexivity.
    eexists. split; [reflexivity|]. now left.
  - replace (existsb (given_null _) (not_null Users)) with false by reflexivity.
    replace (existsb (not_given _) (not_null Users)) with true by reflexivity.
    rewrite Hs. eexists. split; [reflexivity|]. now right.
Qed.

(** X14.  What a first sign-in through a provider needs.  The INSERT of
    [findOrCreateUser] names no password, and passes NULL for the email
    when the profile has none; both columns are NOT NULL.  So against a
    store that answers, when no user carries the social identity and
    none can be linked by email (emails being printable ASCII), a
    profile without email is always refused, and on a server in strict
    mode every profile is: the call throws the error of the store and
    creates nothing. *)
Theorem findOrCreateUser_cannot_create
    (p : OAuth.profile) (provider : string) (w : world) :
  reachable w = true ->
  plain_emails w ->
  social_users p provider w = [] ->
  (forall e, head (OAuth.emails p) = Some e ->
             ascii_word e = true /\ users_with_email e w = []) ->
  OAuth.emails p = [] \/ strict w = true ->
  exists code,
    run (OAuth.findOrCreateUser p provider) w = (inl (DbError code), w).
Proof.
  intros Hr _ Hs Hfree Hwhy. unfold OAuth.findOrCreateUser.
  rewrite run_bind, run_query_select, Hr. simpl rows_of.
  fold (social_users p provider w). rewrite project_all, Hs.
  cbv iota beta. rewrite run_bind.
  destruct (OAuth.emails p) as [|e es] eqn:He.
  - cbn [head from_option truthy run].
    destruct (createUser_refused p provider VNull w Hr) as (code & H & _);
      [now left | eauto].
  - destruct Hwhy as [Hwhy|Hstrict]; [discriminate Hwhy|].
    cbn [head from_option].
    assert (Hnone : forall q : prog (option row),
              run q w = (inr None, w) ->
              exists code,
                (let (s, w') := run q w in
                 match s with
                 | inl x => (inl x, w')
                 | inr linked =>
                     run match linked with
                         | Some u => Ret (Some u)
                         | None => OAuth.createUser p provider (VStr e)
                         end w'
                 end) = (inl (DbError code), w)).
    { intros q ->.
      destruct (createUser_refused p provider (VStr e) w Hr) as (code & H & _);
        [right; eauto | eauto]. }
    apply Hnone.
    destruct (truthy (VStr e)); [|reflexivity].
    rewrite run_bind, run_query_select, Hr. simpl rows_of.
    rewrite filter_by_email_raw. fold (users_with_email e w).
    rewrite (proj2 (Hfree e eq_refl)). reflexivity.
Qed.

(** A profile without email, as Twitter may hand it over, on a lenient
    server. *)
Lemma findOrCreateUser_cannot_create_witness :
  (exists code,
     run (OAuth.findOrCreateUser
            (OAuth.Profile "108177" [] None (Some "Bob Ray") []) "twitter")
         ann_store
     = (inl (DbError code), ann_store))
  /\ strict ann_store = false.
Proof.
  split; [|reflexivity].
  apply (findOrCreateUser_cannot_create
           (OAuth.Profile "108177" [] None (Some "Bob Ray") []) "twitter" ann_store).
  - reflexivity.
  - repeat constructor. eexists. split; vm_compute; reflexivity.
  - vm_compute. reflexivity.
  - intros e He. discriminate He.
  - left. reflexivity.
Defined.

(** X15.  Linking needs a photo.  When no user carries the social
    identity but a user has the email of the profile, the account is
    linked by an UPDATE whose avatar parameter is the first photo of the
    profile; for a profile without photos that parameter is undefined,
    the statement is never sent, and the call throws a TypeError and
    leaves the store as it was: such a user cannot sign in through the
    provider. *)
Theorem findOrCreateUser_cannot_link_without_photo
    (p : OAuth.profile) (provider e : string) (w : world) :
  reachable w = true ->
  social_users p provider w = [] ->
  head (OAuth.emails p) = Some e -> e <> "" ->
  users_with_email e w <> [] ->
  OAuth.photos p = [] ->
  run (OAuth.findOrCreateUser p provider) w
  = (inl (TypeError "Bind parameters must not contain undefined"), w).
Proof.
  intros Hr Hs He Hne Hu Hph. unfold OAuth.findOrCreateUser.
  rewrite run_bind, run_query_select, Hr. simpl rows_of.
  fold (social_users p provider w). rewrite project_all, Hs.
  cbv iota beta. rewrite run_bind, He. cbn [from_option].
  destruct (nonempty_string e Hne) as (a & s & ->).
  cbn [truthy Js.truthy].
  rewrite run_bind, run_query_select, Hr. simpl rows_of.
  rewrite filter_by_email_raw. fold (users_with_email (String a s) w).
  rewrite project_all.
  destruct (users_with_email (String a s) w) as [|u l]; [congruence|].
  cbv iota beta. rewrite Hph. reflexivity.
Qed.

(** Ann signs in with a Google account that has her email and no
    picture. *)
Lemma findOrCreateUser_cannot_link_without_photo_witness :
  run (OAuth.findOrCreateUser
         (OAuth.Profile "2001" ["ann@example.com"] None (Some "Ann Lee") [])
         "google") ann_store
  = (inl (TypeError "Bind parameters must not contain undefined"), ann_store).
Proof.
  apply (findOrCreateUser_cannot_link_without_photo
           (OAuth.Profile "2001" ["ann@example.com"] None (Some "Ann Lee") [])
           "google" "ann@example.com" ann_store).
  - reflexivity.
  - vm_compute. reflexivity.
  - reflexivity.
  - discriminate.
  - intros E. apply (f_equal (@length row)) in E. vm_compute in E. discriminate E.
  - reflexivity.
Defined.

(** ** Logging out through the router *)

(** X16.  The router's logout revokes only under the scheme Bearer.  The
    gateway takes the second piece of the Authorization header whatever
    the first piece is, but [logoutUser] looks for a header that starts
    with Bearer and otherwise skips the UPDATE.  So for any other header
    the route leaves the store as it was; and when the gateway lets the
    request through, the answer is still 200 "Logout successful". *)
Theorem router_logout_needs_the_Bearer_scheme
    (env : environment) (req : request) (w : world) :
  startsWith_Bearer (authorization req) = false ->
  (run (AuthRoutes.logout env req) w).2 = w
  /\ forall a,
       (run (AuthMiddleware.authenticateToken env req) w).1 = inr (Next a) ->
       (run (AuthRoutes.logout env req) w).1
       = inr AuthController.logout_successful.
Proof.
  intros Hh. unfold AuthRoutes.logout, route.
  rewrite run_bind, middleware_authenticateToken_run. cbn [fst].
  match goal with |- context [run match ?g with _ => _ end w] =>
    destruct g as [r|a0]
  end.
  - split; [reflexivity|]. intros a Ha. discriminate Ha.
  - rewrite (logoutUser_without_bearer req w Hh). now split.
Qed.

(** Ann logs out with the scheme in lower case; her session stays live. *)
Lemma router_logout_needs_the_Bearer_scheme_witness :
  let req := Request (Some [Text "bearer"; ann_token]) ∅
               (Some "203.0.113.7") (Some "Mozilla/5.0") in
  let w := advance 5000 ann_store in
  run (AuthRoutes.logout sample_env req) w
  = (inr AuthController.logout_successful, w)
  /\ length (live_sessions ann_token w) = 1%nat.
Proof.
  intros req w.
  destruct (router_logout_needs_the_Bearer_scheme sample_env req w) as [Hw Hok].
  - reflexivity.
  - split; [|vm_compute; reflexivity].
    rewrite (surjective_pairing (run (AuthRoutes.logout sample_env req) w)).
    rewrite Hw, (Hok (VInt 1, ann_token)); [reflexivity|].
    vm_compute. reflexivity.
Defined.

(** ** Writing a profile *)

Lemma allowed_is_selected (k : string) :
  k ∈ Server.allowedUpdates ->
  k ∈ Server.profile_columns /\ k <> "updatedAt" /\ k <> "id"
  /\ k <> "email" /\ k <> "socialId" /\ k <> "socialProvider" /\ k <> "password".
Proof.
  unfold Server.allowedUpdates. rewrite !elem_of_cons, elem_of_nil.
  intros H.
  repeat (destruct H as [->|H];
          [repeat split;
           solve [ apply (bool_decide_unpack _); vm_compute; exact I
                 | discriminate ]|]).
  destruct H.
Qed.

Lemma fits_not_null (c : string) : fits_column c VNull = false.
Proof.
  unfold fits_column.
  destruct (List.find _ column_types) as [kv|] eqn:E; [|reflexivity].
  apply List.find_some in E as [Hin _]. cbn in Hin.
  repeat (destruct Hin as [<-|Hin]; [reflexivity|]). destruct Hin.
Qed.

(** X17.  What PUT /api/user/profile writes, it reads back.  For a
    decoded token whose integer id is the id of a user, while the store
    answers, and a body whose allowed keys hold values that fit the
    types of their columns: the handler answers 200, and every allowed
    key of the body holds the value of the body, in every user row with
    that id and in the user of the response; rows of other ids and the
    sessions are untouched.  A body without any allowed key is answered
    400 and nothing is written. *)
Theorem updateProfile_writes_what_it_returns
    (req : request) (decoded : claims) (n : Z) (w : world) :
  reachable w = true ->
  integer_ids w ->
  userId decoded = VInt n ->
  has_user (userId decoded) w = true ->
  let allowed := filter (fun kv : string * jsval => kv.1 ∈ Server.allowedUpdates)
                        (body req) in
  (forall k v, allowed !! k = Some v -> fits_column k v = true) ->
  if bool_decide (allowed = ∅)
  then run (Server.updateProfile req decoded) w
       = (inr (Response 400 (error_json "No valid fields to update")), w)
  else exists user w',
    run (Server.updateProfile req decoded) w
    = (inr (Response 200
              (JObj [("message", JStr "Profile updated successfully");
                     ("user", JRow user)])), w')
    /\ user_sessions w' = user_sessions w
    /\ (forall k v, allowed !! k = Some v -> col user k = to_sql v)
    /\ Forall2 (fun r r' : row =>
                  if sql_eq (col r "id") (userId decoded)
                  then forall k v, allowed !! k = Some v -> col r' k = to_sql v
                  else r' = r)
               (users w) (users w').
Proof.
  intros Hr _ _ Hu allowed Hfits.
  assert (Hnn : forall k v, allowed !! k = Some v -> v <> VNull).
  { intros k v Hk ->. apply Hfits in Hk. now rewrite fits_not_null in Hk. }
  unfold Server.updateProfile. rewrite run_try_catch. fold allowed.
  destruct (bool_decide (allowed = ∅)) eqn:Hempty; [reflexivity|].
  set (sets := Lit <$> allowed).
  assert (Hnone : forall c, c ∉ Server.allowedUpdates -> sets !! c = None)
    by (intros c Hc; now apply allowed_sets_lookup).
  assert (Hnot : forall c, c ∈ ["email"; "socialId"; "socialProvider"; "password"] ->
                           c ∉ Server.allowedUpdates).
  { intros c Hc Hin. apply allowed_is_selected in Hin.
    rewrite !elem_of_cons, elem_of_nil in Hc. intuition congruence. }
  assert (Hname : forall c, sets !! c <> Some (Lit VNull)).
  { intros c E. unfold sets in E. rewrite lookup_fmap in E.
    destruct (allowed !! c) as [v|] eqn:Ev; [|discriminate E].
    injection E as ->. now apply (Hnn c VNull). }
  assert (Hnull : assigns_null Users sets = false).
  { unfold assigns_null. cbn [not_null existsb].
    rewrite !bool_decide_eq_false_2; [reflexivity|..]; apply Hname. }
  rewrite run_bind, run_db_execute. unfold execute, update. rewrite Hr.
  rewrite update_users_total;
    [|apply Hnone, Hnot; rewrite !elem_of_cons; tauto..|exact Hnull].
  cbn [app rows_of].
  set (f := fun r : row => if matches (now w) [Eq "id" (userId decoded)] r
                           then updated Users w sets r else r).
  set (w' := set_rows Users (map f (users w)) w).
  assert (Hwritten : forall r k v, allowed !! k = Some v ->
                                   col (updated Users w sets r) k = to_sql v).
  { intros r k v Hk.
    pose proof Hk as Hin. apply map_lookup_filter_Some in Hin as [_ Hin].
    cbn [fst] in Hin. apply allowed_is_selected in Hin as (_ & Hup & _).
    rewrite col_updated by exact Hup.
    rewrite (relax_lookup_Some Users sets k (Lit v)); [reflexivity| |].
    - unfold sets. now rewrite lookup_fmap, Hk.
    - intros E. injection E as ->. now apply (Hnn k VNull). }
  assert (Hid : forall r, col (f r) "id" = col r "id").
  { intros r. unfold f. destruct (matches _ _ r); [|reflexivity].
    unfold col. rewrite updated_frame; [reflexivity| |discriminate].
    apply Hnone. intros Hin. now apply allowed_is_selected in Hin. }
  rewrite run_bind, run_query_select.
  replace (reachable w') with true by (unfold w'; now destruct w).
  replace (rows_of Users w') with (map f (users w)) by (unfold w'; now destruct w).
  replace (now w') with (now w) by (unfold w'; now destruct w).
  rewrite filter_map_commute
    by (intros r; rewrite !matches_id; now rewrite Hid).
  destruct (List.filter (matches (now w) [Eq "id" (userId decoded)]) (users w))
    as [|u0 l] eqn:Hq.
  { exfalso. unfold has_user in Hu. apply existsb_exists in Hu as (u & Hin & Hm).
    assert (Hf : In u (List.filter (matches (now w) [Eq "id" (userId decoded)])
                                   (users w)))
      by (apply filter_In; split; [exact Hin | now rewrite matches_id]).
    rewrite Hq in Hf. destruct Hf. }
  assert (Hm0 : matches (now w) [Eq "id" (userId decoded)] u0 = true).
  { assert (Hf : In u0 (List.filter (matches (now w) [Eq "id" (userId decoded)])
                                    (users w))) by (rewrite Hq; now left).
    now apply filter_In in Hf as [_ Hf]. }
  cbn [map]. rewrite fmap_cons. cbn [head from_option run].
  eexists _, _. split; [reflexivity|].
  split; [unfold w'; now destruct w|]. split.
  - intros k v Hk.
    pose proof Hk as Hin. apply map_lookup_filter_Some in Hin as [_ Hin].
    cbn [fst] in Hin. apply allowed_is_selected in Hin as (Hsel & _).
    rewrite col_project by exact Hsel. unfold f. rewrite Hm0.
    now apply Hwritten.
  - replace (users w') with (map f (users w)) by (unfold w'; now destruct w).
    apply Forall2_map_self. intros r. unfold f. rewrite matches_id.
    destruct (sql_eq (col r "id") (userId decoded)); [|reflexivity].
    intros k v. apply Hwritten.
Qed.

(** Ann sets her role and her city; [isActive] is not an allowed key. *)
Lemma updateProfile_writes_what_it_returns_witness :
  let req := with_bearer ann_token
               (list_to_map [("role", VStr "farmer"); ("city", VStr "Accra");
                             ("isActive", VInt 0)]) in
  let decoded := Claims (VInt 1) (Some (VStr "ann@example.com")) 1000 605800 in
  exists user w',
    run (Server.updateProfile req decoded) ann_store
    = (inr (Response 200
              (JObj [("message", JStr "Profile updated successfully");
                     ("user", JRow user)])), w')
    /\ col user "role" = VStr "farmer" /\ col user "city" = VStr "Accra".
Proof.
  intros req decoded.
  pose proof (updateProfile_writes_what_it_returns req decoded 1 ann_store) as H.
  cbv zeta in H.
  replace (bool_decide _) with false in H by (vm_compute; reflexivity).
  destruct H as (user & w' & Hrun & _ & Hcol & _).
  - reflexivity.
  - repeat constructor. exists 1. vm_compute. reflexivity.
  - reflexivity.
  - vm_compute. reflexivity.
  - intros k v Hk. apply map_lookup_filter_Some in Hk as [Hk Hin].
    cbn [fst] in Hin. apply elem_of_list_to_map_2 in Hk.
    rewrite !elem_of_cons, elem_of_nil in Hk.
    destruct Hk as [E|[E|[E|[]]]]; injection E as -> ->; [reflexivity..|].
    exfalso. revert Hin. apply (bool_decide_unpack _). vm_compute. exact I.
  - exists user, w'. split; [exact Hrun|]. split.
    + apply (Hcol "role" (VStr "farmer")). vm_compute. reflexivity.
    + apply (Hcol "city" (VStr "Accra")). vm_compute. reflexivity.
Defined.

(** ** What a sign-up can leave behind *)

Lemma registerUser_unreachable (env : environment) (req : request) (w : world) :
  reachable w = false ->
  exists resp, run (AuthController.registerUser env req) w = (inr resp, w).
Proof.
  intros Hr. unfold AuthController.registerUser.
  destruct (field req "firstName") as [[|c1 r1]|]; try (eexists; reflexivity).
  destruct (field req "lastName") as [[|c2 r2]|]; try (eexists; reflexivity).
  destruct (field req "email") as [[|c3 r3]|]; try (eexists; reflexivity).
  destruct (field req "password") as [[|c4 r4]|]; try (eexists; reflexivity).
  destruct (Js.emailRegex_test (String c3 r3)); [|eexists; reflexivity].
  destruct (String.length (String c4 r4) <? 8)%nat; [eexists; reflexivity|].
  cbn [negb]. rewrite run_try_catch, run_bind, run_query_select, Hr.
  eexists. reflexivity.
Qed.

(** X18.  Whatever the store, and for every body whose four fields are
    missing, falsy or strings of printable ASCII, [registerUser] writes
    no session and leaves every existing user as it was; it either adds
    nothing or appends one user, and then the body was a valid sign-up
    whose email nobody had: the stored email is that email in lower
    case, it has the shape the handler checks, and the stored password
    is the hash of a password of at least eight characters. *)
Theorem registerUser_adds_at_most_one_valid_user
    (env : environment) (req : request) (w : world) :
  text_fields req ->
  let w' := (run (AuthController.registerUser env req) w).2 in
  user_sessions w' = user_sessions w
  /\ (users w' = users w
      \/ exists r fn ln e p,
           users w' = users w ++ [r]
           /\ valid_signup req fn ln e p
           /\ has_email (Js.toLowerCase e) w = false
           /\ col r "email" = VStr (Js.toLowerCase e)
           /\ col r "password" = VStr (bcrypt_hash p 12)
           /\ col r "isActive" = VInt 1).
Proof.
  intros _ w'. unfold w'. clear w'.
  destruct (reachable w) eqn:Hr.
  2:{ destruct (registerUser_unreachable env req w Hr) as (resp & ->).
      split; [reflexivity | now left]. }
  assert (Hsame : forall resp,
            run (AuthController.registerUser env req) w = (inr resp, w) ->
            user_sessions (run (AuthController.registerUser env req) w).2
            = user_sessions w
            /\ (users (run (AuthController.registerUser env req) w).2 = users w
                \/ exists r fn ln e p,
                     users (run (AuthController.registerUser env req) w).2
                     = users w ++ [r]
                     /\ valid_signup req fn ln e p
                     /\ has_email (Js.toLowerCase e) w = false
                     /\ col r "email" = VStr (Js.toLowerCase e)
                     /\ col r "password" = VStr (bcrypt_hash p 12)
                     /\ col r "isActive" = VInt 1))
    by (intros resp ->; split; [reflexivity | now left]).
  destruct (field req "firstName") as [[|c1 r1]|] eqn:Hf;
    try (eapply Hsame; unfold AuthController.registerUser; rewrite Hf; reflexivity).
  destruct (field req "lastName") as [[|c2 r2]|] eqn:Hl;
    try (eapply Hsame; unfold AuthController.registerUser; rewrite Hf, Hl;
         reflexivity).
  destruct (field req "email") as [[|c3 r3]|] eqn:He;
    try (eapply Hsame; unfold AuthController.registerUser; rewrite Hf, Hl, He;
         reflexivity).
  destruct (field req "password") as [[|c4 r4]|] eqn:Hp;
    try (eapply Hsame; unfold AuthController.registerUser; rewrite Hf, Hl, He, Hp;
         reflexivity).
  destruct (Js.emailRegex_test (String c3 r3)) eqn:Hre;
    [|eapply Hsame; unfold AuthController.registerUser;
      rewrite Hf, Hl, He, Hp, Hre; reflexivity].
  destruct (String.length (String c4 r4) <? 8)%nat eqn:Hlen;
    [eapply Hsame; unfold AuthController.registerUser;
     rewrite Hf, Hl, He, Hp, Hre, Hlen; reflexivity|].
  assert (Hv : valid_signup req (String c1 r1) (String c2 r2) (String c3 r3)
                 (String c4 r4)).
  { unfold valid_signup. repeat split; try assumption; try discriminate.
    now apply Nat.ltb_ge. }
  clear Hsame.
  destruct (has_email (Js.toLowerCase (String c3 r3)) w) eqn:Hmail.
  - destruct (run_thread env req _ _ _ _ Checking w Hv Hr) as (resp & _ & Hrun).
    cbv zeta in Hrun. cbn [thread] in Hrun.
    cbn [next fst snd] in Hrun. rewrite Hmail in Hrun.
    cbn [next fst snd] in Hrun. rewrite Hrun.
    split; [reflexivity | now left].
  - destruct (registerUser_succeeds env req _ _ _ _ w Hv Hr Hmail)
      as (r & user & w' & Hrun & Hu & Hs & _ & _ & _ & Hem & Hpw & _ & _ & _ & Hact & _).
    rewrite Hrun. cbn [snd]. split; [exact Hs|]. right.
    exists r, (String c1 r1), (String c2 r2), (String c3 r3), (String c4 r4).
    split; [exact Hu|]. split; [exact Hv|]. split; [exact Hmail|].
    split; [exact Hem|]. split; [exact Hpw | exact Hact].
Qed.

(** Bob signs up while Ann is the only user. *)
Lemma registerUser_adds_at_most_one_valid_user_witness :
  let req := signup "bob@example.com" "hunter2-hunter2" in
  let w' := (run (AuthController.registerUser sample_env req) ann_store).2 in
  user_sessions w' = user_sessions ann_store /\ length (users w') = 2%nat.
Proof.
  intros req w'.
  destruct (registerUser_adds_at_most_one_valid_user sample_env req ann_store)
    as [Hs _]; [text_fields_by_computation|].
  split; [exact Hs | vm_compute; reflexivity].
Defined.

(** ** Logging in through the controller *)

(** X19.  [loginUser] of the controller only reads.  Whatever the request
    and the store, it answers with 200, 400, 401 or 500, it leaves the
    store exactly as it was (it stores no session and no login time),
    and no row it sends carries the password column. *)
Theorem loginUser_reads_only
    (env : environment) (req : request) (w : world) :
  exists resp,
    run (AuthController.loginUser env req) w = (inr resp, w)
    /\ exposes "password" (sent resp) = false
    /\ (status resp = 200 \/ status resp = 400 \/ status resp = 401
        \/ status resp = 500).
Proof.
  unfold AuthController.loginUser.
  destruct (field req "email") as [[|c1 r1]|];
    try (eexists; split; [reflexivity|]; split; [reflexivity|]; tauto).
  destruct (field req "password") as [[|c2 r2]|];
    try (eexists; split; [reflexivity|]; split; [reflexivity|]; tauto).
  rewrite run_try_catch, run_bind, run_query_select.
  destruct (reachable w);
    [|eexists; split; [reflexivity|]; split; [reflexivity|]; tauto].
  destruct (project _ <$> _) as [|user rest];
    [eexists; split; [reflexivity|]; split; [reflexivity|]; tauto|].
  cbv iota beta. rewrite run_bind.
  destruct (col user "password") as [| | |h|];
    try (eexists; split; [reflexivity|]; split; [reflexivity|]; tauto).
  cbn [bcrypt_compare run].
  destruct (String.eqb h _);
    [|eexists; split; [reflexivity|]; split; [reflexivity|]; tauto].
  cbn [negb]. eexists. split; [reflexivity|]. split; [|tauto].
  cbn [sent AuthController.logged_in exposes orb]. rewrite !orb_false_r.
  apply bool_decide_eq_false. intros [v Hv].
  rewrite lookup_insert_ne in Hv by discriminate.
  rewrite lookup_delete_eq in Hv. discriminate Hv.
Qed.

(** ** What a login on server.js can change *)

Lemma openSession_frame (env : environment) (req : request)
    (uid email device : jsval) (w : world) :
  let r := run (Server.openSession env req uid email device) w in
  users r.2 = users w
  /\ ((exists x, r.1 = inl x) /\ r.2 = w
      \/ (exists t s, r.1 = inr t /\ user_sessions r.2 = user_sessions w ++ [s])).
Proof.
  intros r.
  destruct (run (Server.openSession env req uid email device) w) as [[x|t] w']
    eqn:Hrun; subst r; cbn [fst snd].
  - assert (w' = w); [|subst w'; split; [reflexivity|left; eauto]].
    revert Hrun. unfold Server.openSession, sign.
    rewrite run_bind. cbn [run]. rewrite run_bind. cbn [run].
    destruct (ip req) as [a|]; [|intros H; now injection H].
    change (VStr <$> Some a) with (Some (VStr a)).
    rewrite run_bind. cbn [run param].
    destruct (userAgent req) as [g|]; [|intros H; now injection H].
    change (VStr <$> Some g) with (Some (VStr g)).
    rewrite run_bind. cbn [run param].
    rewrite run_bind, run_db_execute.
    match goal with |- context [execute (INSERT UserSessions ?v) w] =>
      destruct (execute_insert UserSessions v w)
        as [(code & E)|(s & _ & _ & _ & E)]; rewrite E
    end; intros H; [now injection H | discriminate H].
  - apply openSession_inv in Hrun.
    destruct Hrun as (_ & _ & s & _ & _ & _ & _ & _ & _ & ->).
    split; [now destruct w|]. right. exists t, s. split; [reflexivity|now destruct w].
Qed.

(** X20.  Whatever the request and the store, POST /api/auth/login of
    server.js always answers; no user appears or disappears and every
    user keeps every column but [lastLogin] and [updatedAt]; the
    sessions are left alone or one row is appended to them; and no row
    it sends carries the password column. *)
Theorem login_frame (env : environment) (req : request) (w : world) :
  let r := run (Server.login env req) w in
  Forall2 (fun u u' : row =>
             forall c, c <> "lastLogin" -> c <> "updatedAt" -> u' !! c = u !! c)
          (users w) (users r.2)
  /\ (user_sessions r.2 = user_sessions w
      \/ exists s, user_sessions r.2 = user_sessions w ++ [s])
  /\ exists resp, r.1 = inr resp /\ exposes "password" (sent resp) = false.
Proof.
  intros r. subst r.
  assert (Hrefl : forall l : list row,
    Forall2 (fun u u' : row => forall c, c <> "lastLogin" -> c <> "updatedAt" ->
                                         u' !! c = u !! c) l l).
  { intros l. rewrite <- (map_id l) at 2. apply Forall2_map_self. reflexivity. }
  assert (Hsame : forall resp,
            exposes "password" (sent resp) = false ->
            run (Server.login env req) w = (inr resp, w) ->
            Forall2 (fun u u' : row =>
                       forall c, c <> "lastLogin" -> c <> "updatedAt" ->
                                 u' !! c = u !! c)
                    (users w) (users (run (Server.login env req) w).2)
            /\ (user_sessions (run (Server.login env req) w).2 = user_sessions w
                \/ exists s, user_sessions (run (Server.login env req) w).2
                             = user_sessions w ++ [s])
            /\ exists resp, (run (Server.login env req) w).1 = inr resp
                            /\ exposes "password" (sent resp) = false).
  { intros resp Hx ->. split; [apply Hrefl|]. split; [now left|]. eauto. }
  unfold Server.login in *. rewrite run_try_catch in *. rewrite run_bind in *.
  destruct (field req "email") as [e|]; [|now apply (Hsame Server.internal_error)].
  change (VStr <$> Some e) with (Some (VStr e)) in *.
  simpl (run (param _) _) in *. cbv iota beta in *.
  rewrite run_bind, run_query_select in *.
  destruct (reachable w) eqn:Hr; [|now apply (Hsame Server.internal_error)].
  simpl rows_of in *. rewrite filter_active_email in *.
  destruct (active_users_with_email e w) as [|u rest];
    [now apply (Hsame (Response 400 (error_json "Invalid credentials")))|].
  rewrite fmap_cons in *. cbv iota beta in *.
  change (project None u) with u in *. rewrite run_bind in *.
  destruct (field req "password") as [p|];
    [|now apply (Hsame Server.internal_error)].
  destruct (col u "password") as [| | |h|];
    try (now apply (Hsame Server.internal_error)).
  cbn [bcrypt_compare run] in *.
  destruct (String.eqb h (bcrypt_hash p 12));
    [|now apply (Hsame (Response 400 (error_json "Invalid credentials")))].
  clear Hsame. cbn [negb]. rewrite run_bind, run_db_execute.
  unfold execute, update. rewrite Hr.
  rewrite update_users_total by reflexivity. cbn [app rows_of].
  set (w1 := set_rows Users _ w).
  assert (Hu1 : Forall2 (fun u u' : row =>
                           forall c, c <> "lastLogin" -> c <> "updatedAt" ->
                                     u' !! c = u !! c)
                        (users w) (users w1)).
  { unfold w1. destruct w; simpl. apply Forall2_map_self. intros x c Hc Hc'.
    destruct (sql_eq _ _ && true); [|reflexivity].
    apply updated_frame; [|exact Hc'].
    now apply lookup_singleton_ne. }
  assert (Hs1 : user_sessions w1 = user_sessions w) by (unfold w1; now destruct w).
  rewrite run_bind.
  pose proof (openSession_frame env req (col u "id") (col u "email")
                (Server.deviceInfo req) w1) as Hopen.
  cbv zeta in Hopen.
  destruct (run (Server.openSession env req (col u "id") (col u "email")
                   (Server.deviceInfo req)) w1) as [[x|t] w2].
  - cbn [fst snd] in *. destruct Hopen as (_ & [(_ & ->)|(t & s & Ht & _)]);
      [|discriminate Ht].
    split; [exact Hu1|]. split; [now left|].
    exists Server.internal_error. now split.
  - cbn [fst snd run] in *. destruct Hopen as (Hu2 & [((x & Hx) & _)|(t' & s & _ & Hs2)]);
      [discriminate Hx|].
    split; [now rewrite Hu2|]. split; [right; exists s; now rewrite Hs2, Hs1|].
    eexists. split; [reflexivity|].
    cbn [sent exposes orb]. rewrite !orb_false_r.
    apply bool_decide_eq_false. intros [v Hv].
    rewrite lookup_delete_eq in Hv. discriminate Hv.
Qed.
(** ** Logging out, once and again *)

Lemma revoke_unmatched (t : token) (w : world) :
  Forall (fun r => sql_eq (col r "token") (VTok t) = false) (user_sessions w) ->
  revoke t w = w.
Proof.
  intros Hnone.
  assert (Hmap : user_sessions (revoke t w) = user_sessions w).
  { rewrite user_sessions_revoke.
    rewrite <- (map_id (user_sessions w)) at 2.
    apply map_ext_in. intros r Hin.
    rewrite List.Forall_forall in Hnone. now rewrite (Hnone r Hin). }
  unfold revoke in *. destruct w; simpl in *. now rewrite Hmap.
Qed.

(** C8.  Logging out is total and idempotent on the bearer string.  While
    the store answers, [logoutUser], and the handler of server.js, reply
    200 for any string, whether it has a live session, an already
    revoked one or none; afterwards no session row of that string is
    active, and users are as they were; run again they reply 200 again
    and change nothing, and for a string without any session row already
    the first run changes nothing.  The route that is dispatched,
    POST /logout of the router, puts the gateway of the middleware in
    front of [logoutUser]: whenever that gateway lets the request
    through, the route answers 200, the first time and again.  In a
    store whose session rows hold signed tokens, logging out with a
    signed token leaves every session row of another token exactly as
    it was. *)
Theorem logout_handlers_total_and_idempotent
    (env : environment) (req : request) (t : token) (rest : list token) (w : world) :
  reachable w = true ->
  authorization req = Some (Text "Bearer" :: t :: rest) ->
  let ok := Response 200 (JObj [("message", JStr "Logged out successfully")]) in
  let w1 := revoke t w in
  run (AuthController.logoutUser req) w = (inr AuthController.logout_successful, w1)
  /\ run (AuthController.logoutUser req) w1 = (inr AuthController.logout_successful, w1)
  /\ run (Server.logout_handler req) w = (inr ok, w1)
  /\ run (Server.logout_handler req) w1 = (inr ok, w1)
  /\ (forall a,
        (run (AuthMiddleware.authenticateToken env req) w).1 = inr (Next a) ->
        run (AuthRoutes.logout env req) w = (inr AuthController.logout_successful, w1)
        /\ run (AuthRoutes.logout env req) w1
           = (inr AuthController.logout_successful, w1))
  /\ (Forall (fun r => sql_eq (col r "token") (VTok t) = false) (user_sessions w) ->
      w1 = w)
  /\ revoked t w1
  /\ users w1 = users w
  /\ (is_jwt t = true -> jwt_sessions w ->
      Forall2 (fun r r' : row =>
                 if sql_eq (col r "token") (VTok t)
                 then col r' "isActive" = VInt 0
                      /\ forall c, c <> "isActive" -> c <> "lastUsedAt" ->
                                   r' !! c = r !! c
                 else r' = r)
              (user_sessions w) (user_sessions w1)).
Proof.
  intros Hr Hh ok w1.
  assert (Hr1 : reachable w1 = true) by (unfold w1; now rewrite reachable_revoke).
  assert (Hidem : revoke t w1 = w1) by (now apply (revoke_idempotent t w)).
  assert (Hfirst : run (AuthController.logoutUser req) w
                   = (inr AuthController.logout_successful, w1))
    by (now rewrite (logoutUser_run req t rest), Hr).
  assert (Hagain : run (AuthController.logoutUser req) w1
                   = (inr AuthController.logout_successful, w1))
    by (now rewrite (logoutUser_run req t rest), Hr1, Hidem).
  split; [exact Hfirst|]. split; [exact Hagain|].
  rewrite !(logout_handler_run req t rest) by exact Hh.
  rewrite Hr, Hr1, Hidem. do 2 (split; [reflexivity|]).
  split.
  { intros a Ha.
    assert (Hgate : forall w0, users w0 = users w -> now w0 = now w ->
                               reachable w0 = true ->
              run (AuthMiddleware.authenticateToken env req) w0 = (inr (Next a), w0)).
    { intros w0 Hu0 Hn0 Hr0.
      rewrite middleware_authenticateToken_run in Ha |- *. cbn [fst] in Ha.
      unfold has_user in *. rewrite Hu0, Hn0, Hr0. rewrite Hr in Ha.
      now rewrite <- Ha. }
    unfold AuthRoutes.logout, route. rewrite !run_bind.
    rewrite (Hgate w eq_refl eq_refl Hr), Hfirst.
    rewrite (Hgate w1); [|unfold w1; now destruct w..|exact Hr1].
    now rewrite Hagain. }
  split; [intros Hnone; now apply revoke_unmatched|].
  split; [apply revoke_revoked|].
  split; [apply revoke_others|].
  intros _ _. apply revoke_others.
Qed.

(** Ann logs out twice through the router, five seconds after signing
    up. *)
Lemma logout_handlers_total_and_idempotent_witness :
  let req := with_bearer ann_token ∅ in
  let w := advance 5000 ann_store in
  run (AuthRoutes.logout sample_env req) w
  = (inr AuthController.logout_successful, revoke ann_token w)
  /\ run (AuthRoutes.logout sample_env req) (revoke ann_token w)
     = (inr AuthController.logout_successful, revoke ann_token w)
  /\ is_jwt ann_token = true /\ jwt_sessions w.
Proof.
  intros req w.
  destruct (logout_handlers_total_and_idempotent sample_env req ann_token [] w)
    as (_ & _ & _ & _ & Hroute & _); [reflexivity | reflexivity |].
  destruct (Hroute (VInt 1, ann_token)) as [H1 H2]; [vm_compute; reflexivity|].
  split; [exact H1|]. split; [exact H2|]. split; [reflexivity|].
  repeat constructor. eexists. split; vm_compute; reflexivity.
Defined.

(** ** The router's login and the gateway of server.js *)

(** X22.  The token of the router's login does not open the gateway of
    server.js.  [loginUser] answers a right password with a token and
    stores no session, while the stateful gateway asks for a live
    session row that carries the token.  So when no such row exists
    (no other handler stored this very token; session rows hold signed
    tokens), the request that presents the token right after the login
    is answered 403 by the gateway of server.js, and nothing changes. *)
Theorem router_login_token_is_refused_by_the_stateful_gateway
    (env : environment) (login req' : request) (e p : string)
    (u : row) (rest : list row) (w : world) :
  presents login e p -> ascii_text e = true ->
  reachable w = true -> plain_emails w ->
  users_with_email e w = u :: rest ->
  col u "password" = VStr (bcrypt_hash p 12) ->
  let t := jwt_sign (col u "id") None (AuthController.JWT_SECRET env)
             (AuthController.JWT_EXPIRES_IN env) (now w) in
  bearer (authorization req') = Some t ->
  jwt_sessions w ->
  live_sessions t w = [] ->
  exists user r,
    run (AuthController.loginUser env login) w
    = (inr (AuthController.logged_in user t), w)
    /\ run (Server.authenticateToken env req') w = (inr (Rejected r), w)
    /\ status r = 403.
Proof.
  intros Hp _ Hr _ Hfound Hpw t Hb _ Hdead.
  rewrite (loginUser_run env login e p w Hp Hr), Hfound, Hpw, String.eqb_refl.
  rewrite authenticateToken_run, Hb, Hr, Hdead.
  eexists. fold t.
  destruct (jwt_verify t (Server.JWT_SECRET env) (now w));
    eexists; (split; [reflexivity|]); split; reflexivity.
Qed.

(** Ann logs in through the router five seconds after signing up, and
    asks for her profile with the token she got. *)
Lemma router_login_token_is_refused_by_the_stateful_gateway_witness :
  let w := advance 5000 ann_store in
  let t := JWT (Claims (VInt 1) None 1005 605805) "k3y-from-env" in
  exists user r,
    run (AuthController.loginUser sample_env
           (credentials "ann@example.com" "pw123456")) w
    = (inr (AuthController.logged_in user t), w)
    /\ run (Server.authenticateToken sample_env (with_bearer t ∅)) w
       = (inr (Rejected r), w)
    /\ status r = 403.
Proof.
  intros w t.
  apply (router_login_token_is_refused_by_the_stateful_gateway sample_env
           (credentials "ann@example.com" "pw123456") (with_bearer t ∅)
           "ann@example.com" "pw123456"
           (default ∅ (head (users w))) [] w).
  - repeat split; try reflexivity; discriminate.
  - reflexivity.
  - reflexivity.
  - repeat constructor. eexists. split; vm_compute; reflexivity.
  - vm_compute. reflexivity.
  - vm_compute. reflexivity.
  - vm_compute. reflexivity.
  - repeat constructor. eexists. split; vm_compute; reflexivity.
  - vm_compute. reflexivity.
Defined.
